(** * EgoMimic: the ACT / ACTSP algorithm wrappers, the normalisation
    helpers and the validation metrics, embedded from the Python sources

    - [simarUtils]  : mimicplay/scripts/aloha_process/simarUtils.py
    - [val_utils]   : mimicplay/utils/val_utils.py
    - [eval_script] : mimicplay/scripts/evaluation/eval.py
    - [ACT], [ACTSP]: mimicplay/algo/act.py

    Numbers.  Tensor and array entries are real numbers ([R]): the
    arithmetic of the sources is read as exact arithmetic, rounding is not
    part of the model.  The integer flags carried by tensors (the [type]
    tag and the padding mask, whose entries are 0 or 1) are integers ([Z]);
    the float cast of [process_batch_for_training] keeps their values.

    Exceptions.  A Python function that can raise returns a [result]; a
    method of the algorithm object threads the object through the state
    and error monad [M], so that what was mutated before an exception is
    still visible after it, as in Python. *)

From Stdlib Require Import Reals Lra ZArith Lia.
From stdpp Require Import base option list strings gmap.

Open Scope R_scope.

(** ** Python exceptions and results *)

Module Py.

Inductive exn : Type :=
  | KeyError (key : string)
  | ValueError (msg : string)
  | AssertionError
  | IndexError
  | TypeError
  | AttributeError
  | ZeroDivisionError
  | RuntimeError.

Inductive result (A : Type) : Type :=
  | Ok (a : A)
  | Raise (e : exn).
Global Arguments Ok {A} a.
Global Arguments Raise {A} e.

Definition bind {A B} (r : result A) (k : A -> result B) : result B :=
  match r with
  | Ok a => k a
  | Raise e => Raise e
  end.

(** [d[k]] on a dict with string keys. *)
Definition getitem {V} (d : gmap string V) (k : string) : result V :=
  match d !! k with
  | Some v => Ok v
  | None => Raise (KeyError k)
  end.

(** [k in d]. *)
Definition contains {V} (d : gmap string V) (k : string) : bool :=
  bool_decide (is_Some (d !! k)).

(** [l[i]] on a sequence, with Python's negative indices. *)
Definition index {A} (l : list A) (i : Z) : result A :=
  let j := if (i <? 0)%Z then (Z.of_nat (length l) + i)%Z else i in
  if (j <? 0)%Z then Raise IndexError
  else match l !! Z.to_nat j with
       | Some x => Ok x
       | None => Raise IndexError
       end.

(** [a % b] on Python integers: the sign of the result is that of [b],
    as with [Z.modulo]; a zero divisor raises. *)
Definition mod_ (a b : Z) : result Z :=
  if (b =? 0)%Z then Raise ZeroDivisionError else Ok (a mod b)%Z.

(** A list comprehension whose body can raise: stops at the first
    exception. *)
Fixpoint for_each {A B} (f : A -> result B) (l : list A) : result (list B) :=
  match l with
  | [] => Ok []
  | x :: l' => bind (f x) (fun y => bind (for_each f l') (fun ys => Ok (y :: ys)))
  end.

Definition assert (b : bool) : result unit :=
  if b then Ok tt else Raise AssertionError.

Definition is_Ok {A} (r : result A) : bool :=
  match r with
  | Ok _ => true
  | Raise _ => false
  end.

Definition of_option {A} (e : exn) (o : option A) : result A :=
  match o with
  | Some a => Ok a
  | None => Raise e
  end.

End Py.
Import Py.

Notation "'let?' x ':=' r 'in' k" := (Py.bind r (fun x => k))
  (at level 10, x name, r at level 100, k at level 200,
   format "'[v' 'let?'  x  ':='  r  'in' '/' k ']'").

(** ** simarUtils.py *)

Module simarUtils.

(** [array.min()] and [array.max()] of a numpy array, given by its
    entries; numpy raises ValueError on an empty array. *)
Definition array_min (array : list R) : result R :=
  match array with
  | [] => Raise (ValueError "zero-size array to reduction operation minimum which has no identity")
  | x :: xs => Ok (fold_left Rmin xs x)
  end.

Definition array_max (array : list R) : result R :=
  match array with
  | [] => Raise (ValueError "zero-size array to reduction operation maximum which has no identity")
  | x :: xs => Ok (fold_left Rmax xs x)
  end.

(** [general_norm(array, min_val, max_val, arr_min=None, arr_max=None)].
    [None] stands for an omitted bound.  A zero width [arr_max - arr_min]
    gives inf or nan in numpy; the model has the real quotient there and
    no theorem below uses it. *)
Definition general_norm (array : list R) (min_val max_val : R)
    (arr_min arr_max : option R) : result (list R) :=
  bind (match arr_min with Some m => Ok m | None => array_min array end) (fun arr_min =>
  bind (match arr_max with Some m => Ok m | None => array_max array end) (fun arr_max =>
  Ok (map (fun a => (max_val - min_val) * ((a - arr_min) / (arr_max - arr_min)) + min_val)
          array))).

(** [general_unnorm(array, orig_min, orig_max, min_val, max_val)]. *)
Definition general_unnorm (array : list R) (orig_min orig_max min_val max_val : R)
    : list R :=
  map (fun a => ((a - min_val) / (max_val - min_val)) * (orig_max - orig_min) + orig_min)
      array.

(** [intrinsics @ v] for a matrix given by its rows and a vector: numpy
    raises ValueError when a row and the vector differ in length. *)
Definition matvec (m : list (list R)) (v : list R) : result (list R) :=
  for_each (fun row =>
    if Nat.eqb (length row) (length v)
    then Ok (fold_right Rplus 0 (zip_with Rmult row v))
    else Raise (ValueError "matmul: Input operand 1 has a mismatch in its core dimension 0"))
    m.

(** [cam_frame_to_cam_pixels(ee_pose_cam, intrinsics)]: [ee_pose_cam] is
    the vector [x, y, z], [intrinsics] a matrix of 3 rows and 4 columns.
    A zero [px_val[2]] gives inf or nan in numpy; the model has the real
    quotient there and no theorem below uses it. *)
Definition cam_frame_to_cam_pixels (ee_pose_cam : list R) (intrinsics : list (list R))
    : result (list R) :=
  let ee_pose_cam := ee_pose_cam ++ [1] in
  bind (matvec intrinsics ee_pose_cam) (fun px_val =>
  bind (index px_val 2) (fun px_val_2 =>
  Ok (map (fun p => p / px_val_2) px_val))).

End simarUtils.


(** ** Tensors as nested lists

    A tensor of rank n is a list nested n deep, outermost axis first; the
    sources only build rectangular ones. *)

Module Tensor.

Definition Rsum (l : list R) : R := fold_right Rplus 0 l.

(** [t.mean()] over the entries [l] of [t].  The mean of no entry at all
    is nan in PyTorch and numpy; the model has the quotient by [INR 0]
    there and no theorem below uses it. *)
Definition mean (l : list R) : R := Rsum l / INR (length l).

(** An elementwise binary operation along one axis, with the
    broadcasting rule of PyTorch and numpy: the two sizes agree, or one
    of them is 1 and its only entry is repeated.  [None] is the
    RuntimeError (ValueError in numpy) of sizes that do not match. *)
Definition broadcast {A B C} (f : A -> B -> option C)
    (xs : list A) (ys : list B) : option (list C) :=
  if Nat.eqb (length xs) (length ys)
  then mapM (fun p => f (fst p) (snd p)) (zip xs ys)
  else match xs, ys with
       | [x], _ => mapM (f x) ys
       | _, [y] => mapM (fun x => f x y) xs
       | _, _ => None
       end.

Definition broadcast1 {A B C} (f : A -> B -> C) :=
  broadcast (fun x y => Some (f x y)).
Definition broadcast2 {A B C} (f : A -> B -> C) :=
  broadcast (broadcast1 f).
Definition broadcast3 {A B C} (f : A -> B -> C) :=
  broadcast (broadcast2 f).

(** [t.mean(0)] of a matrix given by its rows: the mean of each column. *)
Definition mean_axis0 (rows : list (list R)) : list R :=
  match rows with
  | [] => []
  | r :: rs => map (fun s => s / INR (length rows)) (fold_left (zip_with Rplus) rs r)
  end.

(** [torch.cat(ts, axis=1)] of matrices given by their rows.  An empty
    list of tensors and a mismatch of the first axis are RuntimeErrors
    (for the empty list, some versions of PyTorch raise ValueError). *)
Fixpoint cat_axis1 {A} (ts : list (list (list A))) : option (list (list A)) :=
  match ts with
  | [] => None
  | [t] => Some t
  | t :: ts' =>
      match cat_axis1 ts' with
      | Some r => if Nat.eqb (length t) (length r) then Some (zip_with app t r) else None
      | None => None
      end
  end.

(** [torch.cat(ts, axis=1)] of tensors that were each unsqueezed at axis
    1: the result keeps one entry per tensor along the new axis, given
    here as the list itself.  An empty list of tensors is a
    RuntimeError. *)
Definition cat_unsqueezed {A} (ts : list A) : option (list A) :=
  match ts with
  | [] => None
  | _ :: _ => Some ts
  end.

Definition zeros (rows cols : nat) : list (list R) := replicate rows (replicate cols 0).

Definition flatten3 {A} (t : list (list (list A))) : list A := concat (concat t).

End Tensor.

(** ** val_utils.py *)

Module val_utils.
Import Tensor.

(** The accumulator [{"paired_mse": [], "final_mse": []}]. *)
Record Metrics := {
  paired_mse : list (list R);
  final_mse : list (list R)
}.

Definition square (x : R) : R := x * x.

(** [add_metrics(metrics, actions, pred_values)], both arrays of shape
    (steps, axes), given by their rows.  The function appends to the two
    lists of [metrics] and returns it. *)
Definition add_metrics (metrics : Metrics) (actions pred_values : list (list R))
    : result Metrics :=
  let? diff := of_option (ValueError "operands could not be broadcast together")
                 (broadcast2 Rminus pred_values actions) in
  let paired := mean_axis0 (map (map (fun d => square (d * 100))) diff) in
  let? pred_last := index pred_values (-1) in
  let? actions_last := index actions (-1) in
  let? diff_last := of_option (ValueError "operands could not be broadcast together")
                      (broadcast1 Rminus pred_last actions_last) in
  let final := map (fun d => square (d * 100)) diff_last in
  Ok {| paired_mse := paired_mse metrics ++ [paired];
        final_mse := final_mse metrics ++ [final] |}.

(** *** The video buffer of [evaluate_high_level_policy]

    Lines 73 to 76 and 132 to 149 of val_utils.py, and lines 216 to 219
    and 262 to 270 of eval.py: the loops store the frame [im] of each
    sample in a buffer of [T] frames and write the buffer to a file when
    it is full.  A frame stands for an image of the shape of a frame of
    the buffer; the frames are those of the samples whose loop body runs
    to its end, in order. *)

Section video_buffer.
Context {Frame : Type}.

(** The variables [count], [vids_written] and [video] of the loop, and
    the videos written so far: the number in the name of each file with
    the frames handed to [write_video], in the order of the writes. *)
Record VideoBuffer := {
  count : nat;
  vids_written : nat;
  video : list Frame;
  written : list (nat * list Frame)
}.

(** A frame of [torch.zeros] and the length [T] of the buffer. *)
Variable zero_frame : Frame.
Variable T : nat.

(** [torch.zeros((T, 480, 640, 3))]. *)
Definition new_video : list Frame := replicate T zero_frame.

Definition video_init : VideoBuffer :=
  {| count := 0; vids_written := 0; video := new_video; written := [] |}.

(** [write_video(..., video[1:count], fps=30)] under the name numbered
    [vids_written]; [video_dir] is not None where the code tests it. *)
Definition write_video (st : VideoBuffer) : list (nat * list Frame) :=
  written st ++ [(vids_written st, drop 1 (take (count st) (video st)))].

(** The body of the loop for one frame [im]: the buffer is written and
    started afresh when it is full, then the frame is stored.
    [video[count] = im] is an IndexError past the end of the buffer. *)
Definition add_frame (st : VideoBuffer) (im : Frame) : result VideoBuffer :=
  let st := if (count st =? T)%nat
            then {| count := 0; vids_written := S (vids_written st);
                    video := new_video; written := write_video st |}
            else st in
  if (count st <? length (video st))%nat
  then Ok {| count := S (count st); vids_written := vids_written st;
             video := <[count st := im]> (video st); written := written st |}
  else Raise IndexError.

Fixpoint add_frames (st : VideoBuffer) (frames : list Frame) : result VideoBuffer :=
  match frames with
  | [] => Ok st
  | im :: frames' => let? st := add_frame st im in add_frames st frames'
  end.

End video_buffer.

(** The videos [evaluate_high_level_policy] writes, for the frames [im]
    of the samples in order: the loop, then the write that follows it. *)
Definition evaluate_high_level_policy_videos {Frame} (zero_frame : Frame)
    (frames : list Frame) : result (list (nat * list Frame)) :=
  let T := 700%nat in
  let? st := add_frames zero_frame T (video_init zero_frame T) frames in
  Ok (write_video st).

(** *** The summary of [evaluate_high_level_policy] *)

(** [np.stack(arrays, axis=0)] of vectors: ValueError without an array,
    and for arrays that differ in length. *)
Definition stack (arrays : list (list R)) : result (list (list R)) :=
  match arrays with
  | [] => Raise (ValueError "need at least one array to stack")
  | a :: rest =>
      if forallb (fun b => Nat.eqb (length b) (length a)) rest then Ok arrays
      else Raise (ValueError "all input arrays must have the same shape")
  end.

(** ["joints" in ac_key]. *)
Definition joints_in (ac_key : string) : bool :=
  match String.index 0 "joints" ac_key with
  | Some _ => true
  | None => false
  end.

(** Lines 150 to 176 of [evaluate_high_level_policy]: the summary of the
    metrics, the dict [to_return] given by its items in order.  [type]
    is the text that the f-strings put for the argument [type]. *)
Definition evaluate_high_level_policy_summary (type ac_key : string) (metrics : Metrics)
    : result (list (string * R)) :=
  let? concat := stack (paired_mse metrics) in
  let paired := mean_axis0 concat in
  let? concat := stack (final_mse metrics) in
  let final := mean_axis0 concat in
  if joints_in ac_key
  then Ok [(String.append type "_paired_mse_avg", mean paired);
           (String.append type "_final_mse_avg", mean final)]
  else
    let? paired_x := index paired 0 in
    let? paired_y := index paired 1 in
    let? paired_z := index paired 2 in
    let paired_avg := mean paired in
    let? final_x := index final 0 in
    let? final_y := index final 1 in
    let? final_z := index final 2 in
    let final_avg := mean final in
    Ok [(String.append type "_paired_mse x", paired_x);
        (String.append type "_paired_mse y", paired_y);
        (String.append type "_paired_mse z", paired_z);
        (String.append type "_paired_mse_avg", paired_avg);
        (String.append type "_final_mse x", final_x);
        (String.append type "_final_mse y", final_y);
        (String.append type "_final_mse z", final_z);
        (String.append type "_final_mse_avg", final_avg)].

End val_utils.

(** ** eval.py *)

Module eval_script.
Import val_utils.

(** [evaluate_high_level_policy] of eval.py: the same loop on a buffer
    of 400 frames; no write follows the loop. *)
Definition evaluate_high_level_policy_videos {Frame} (zero_frame : Frame)
    (frames : list Frame) : result (list (nat * list Frame)) :=
  let T := 400%nat in
  let? st := add_frames zero_frame T (video_init zero_frame T) frames in
  Ok (written st).

End eval_script.

(** ** act.py: class ACT *)

Inductive Modality : Type := robot | hand.

(** A latent tensor [mu] or [logvar]: of rank 2, [batch, latent], or of
    rank 4, [batch, latent, 1, 1], which [kl_divergence] views as rank 2. *)
Inductive Latent : Type :=
  | Latent2 (t : list (list R))
  | Latent4 (t : list (list (list (list R)))).

Module ACT.
Import Tensor.

Section defs.

(** A batch of images [batch, channel, height, width]; the sources only
    hand it to torchvision transforms and to the policy network. *)
Context {Img : Type}.

(** The entries of [batch["obs"]]: a low-dimensional observation
    [batch, features], a camera image batch, or the padding mask
    [batch, time] (its trailing unit axis, which the code squeezes, is
    left out) with entries 1 (real) and 0 (padded).  Reading an entry of
    another kind than the code expects is answered with RuntimeError. *)
Inductive ObsValue : Type :=
  | LowDim (t : list (list R))
  | Rgb (t : Img)
  | PadMask (t : list (list Z)).

(** A processed batch: the dict with keys "obs", "actions" (optional) and
    "type"; a missing key is [None]. *)
Record Batch := {
  obs : gmap string ObsValue;
  actions : option (list (list (list R)));
  type_ : option (list Z)
}.

(** The arguments of one call of [self.nets["policy"]]:
    [(qpos, images, env_state, [modality,] actions=None, is_pad=None)].
    [images] has one entry per camera, in order (the camera axis of the
    concatenated tensor). *)
Record PolicyInput := {
  qpos : list (list R);
  images : list Img;
  env_state : list (list R);
  modality_arg : option Modality;
  actions_arg : option (list (list (list R)));
  is_pad_arg : option (list (list bool))
}.

(** What the policy returns: [a_hat, is_pad_hat, (mu, logvar)]. *)
Record PolicyOutput := {
  a_hat : list (list (list R));
  is_pad_hat : list (list R);
  mu : option Latent;
  logvar : option Latent
}.

(** The attributes of the algorithm object that the methods below read or
    write.  [policy_calls] is not an attribute of the Python object: it
    records, in order, the arguments of every call of the policy
    network, so that "the model is (not) invoked" can be stated. *)
Record Self := {
  camera_keys : list string;
  proprio_keys : list string;
  proprio_keys_hand : list string;
  chunk_size : Z;
  query_frequency : Z;
  kl_weight : R;
  nets_policy : PolicyInput -> PolicyOutput;
  nets_training : bool;
  normalize : Img -> Img;
  color_jitter : Img -> Img;
  _step_counter : Z;
  a_hat_store : option (list (list (list R)));
  policy_calls : list PolicyInput
}.

Definition set_step_counter (n : Z) (self : Self) : Self :=
  {| camera_keys := camera_keys self; proprio_keys := proprio_keys self;
     proprio_keys_hand := proprio_keys_hand self; chunk_size := chunk_size self;
     query_frequency := query_frequency self; kl_weight := kl_weight self;
     nets_policy := nets_policy self; nets_training := nets_training self;
     normalize := normalize self; color_jitter := color_jitter self;
     _step_counter := n; a_hat_store := a_hat_store self;
     policy_calls := policy_calls self |}.

Definition set_a_hat_store (a : option (list (list (list R)))) (self : Self) : Self :=
  {| camera_keys := camera_keys self; proprio_keys := proprio_keys self;
     proprio_keys_hand := proprio_keys_hand self; chunk_size := chunk_size self;
     query_frequency := query_frequency self; kl_weight := kl_weight self;
     nets_policy := nets_policy self; nets_training := nets_training self;
     normalize := normalize self; color_jitter := color_jitter self;
     _step_counter := _step_counter self; a_hat_store := a;
     policy_calls := policy_calls self |}.

Definition log_policy_call (inp : PolicyInput) (self : Self) : Self :=
  {| camera_keys := camera_keys self; proprio_keys := proprio_keys self;
     proprio_keys_hand := proprio_keys_hand self; chunk_size := chunk_size self;
     query_frequency := query_frequency self; kl_weight := kl_weight self;
     nets_policy := nets_policy self; nets_training := nets_training self;
     normalize := normalize self; color_jitter := color_jitter self;
     _step_counter := _step_counter self; a_hat_store := a_hat_store self;
     policy_calls := policy_calls self ++ [inp] |}.

Definition set_actions (a : list (list (list R))) (batch : Batch) : Batch :=
  {| obs := obs batch; actions := Some a; type_ := type_ batch |}.

(** *** Methods: state and exceptions *)

Definition M (A : Type) : Type := Self -> result A * Self.

Definition ret {A} (a : A) : M A := fun self => (Ok a, self).

Definition bindM {A B} (m : M A) (k : A -> M B) : M B :=
  fun self =>
    match m self with
    | (Ok a, self') => k a self'
    | (Raise e, self') => (Raise e, self')
    end.

Definition lift {A} (r : result A) : M A := fun self => (r, self).

Definition get_self : M Self := fun self => (Ok self, self).

Definition modify (f : Self -> Self) : M unit := fun self => (Ok tt, f self).

(** [self.nets["policy"](...)]. *)
Definition call_policy (inp : PolicyInput) : M PolicyOutput :=
  fun self => (Ok (nets_policy self inp), log_policy_call inp self).

End defs.

Notation "'let*' x ':=' m 'in' k" := (bindM m (fun x => k))
  (at level 10, x name, m at level 100, k at level 200,
   format "'[v' 'let*'  x  ':='  m  'in' '/' k ']'").

Section methods.
Context {Img : Type}.
Local Abbreviation Self := (@Self Img).
Local Abbreviation Batch := (@Batch Img).
Local Abbreviation M := (@M Img).
Local Abbreviation ObsValue := (@ObsValue Img).
Local Abbreviation PolicyInput := (@PolicyInput Img).

(** The attributes [_create_networks] sets, from the configuration
    values it reads and the network and transforms it builds. *)
Definition _create_networks (seq_length : Z) (rgb low_dim low_dim_hand : list string)
    (config_kl_weight : R) (model : PolicyInput -> PolicyOutput)
    (normalize_transform jitter_transform : Img -> Img) : Self :=
  {| camera_keys := rgb; proprio_keys := low_dim; proprio_keys_hand := low_dim_hand;
     chunk_size := seq_length;
     query_frequency := seq_length;
     kl_weight := config_kl_weight;
     nets_policy := model; nets_training := true;
     normalize := normalize_transform; color_jitter := jitter_transform;
     _step_counter := 0; a_hat_store := None;
     policy_calls := [] |}.

(** [_modality_check(self, batch)].  [(t == v).all()] is [forallb]: true
    on a tensor with no entry. *)
Definition _modality_check (batch : Batch) : result Modality :=
  let? type := of_option (KeyError "type") (type_ batch) in
  if forallb (fun t => (t =? 0)%Z) type then Ok robot
  else if forallb (fun t => (t =? 1)%Z) type then Ok hand
  else Raise (ValueError
    "Got mixed modalities, current implementation expects either robot or hand data only.").

Definition as_low_dim (v : ObsValue) : result (list (list R)) :=
  match v with LowDim t => Ok t | _ => Raise RuntimeError end.
Definition as_rgb (v : ObsValue) : result Img :=
  match v with Rgb t => Ok t | _ => Raise RuntimeError end.
Definition as_pad_mask (v : ObsValue) : result (list (list Z)) :=
  match v with PadMask t => Ok t | _ => Raise RuntimeError end.

(** The tuple [qpos, images, env_state, actions, is_pad]. *)
Record ActData := {
  ad_qpos : list (list R);
  ad_images : list Img;
  ad_env_state : list (list R);
  ad_actions : list (list (list R));
  ad_is_pad : list (list bool)
}.

(** [_robomimic_to_act_data(self, batch, cam_keys, proprio_keys)].  The
    assertion [T == self.chunk_size] is made on every row of [is_pad]; a
    mask without a sample has no row and passes, whatever the T of its
    shape is in the code. *)
Definition _robomimic_to_act_data (self : Self) (batch : Batch)
    (cam_keys proprio_keys : list string) : result ActData :=
  let? proprio := for_each (getitem (obs batch)) proprio_keys in
  let? proprio := for_each as_low_dim proprio in
  let? qpos := of_option RuntimeError (cat_axis1 proprio) in
  let? images := for_each (fun cam_name =>
                   let? image := getitem (obs batch) cam_name in
                   let? image := as_rgb image in
                   let image := color_jitter self image in
                   let image := normalize self image in
                   Ok image) cam_keys in
  let? images := of_option RuntimeError (cat_unsqueezed images) in
  let env_state := zeros (length qpos) 10 in
  let? actions := of_option (KeyError "actions") (actions batch) in
  let? pad_mask := getitem (obs batch) "pad_mask" in
  let? pad_mask := as_pad_mask pad_mask in
  let is_pad := map (map (fun m => (m =? 0)%Z)) pad_mask in
  let? _ := assert (forallb (fun row => (Z.of_nat (length row) =? chunk_size self)%Z) is_pad) in
  Ok {| ad_qpos := qpos; ad_images := images; ad_env_state := env_state;
        ad_actions := actions; ad_is_pad := is_pad |}.

(** [mu.size(0)]. *)
Definition size0 (t : Latent) : nat :=
  match t with
  | Latent2 t => length t
  | Latent4 t => length t
  end.

(** [t.view(t.size(0), t.size(1))] when [t] has rank 4, [t] otherwise:
    the view exists when the two trailing axes have one entry in all. *)
Definition view2 (t : Latent) : result (list (list R)) :=
  match t with
  | Latent2 t => Ok t
  | Latent4 t =>
      of_option RuntimeError
        (mapM (mapM (fun c => match c with [[x]] => Some x | _ => None end)) t)
  end.

(** [kl_divergence(self, mu, logvar)]: returns
    [total_kld, dimension_wise_kld, mean_kld]. *)
Definition kl_divergence (mu logvar : Latent)
    : result (list R * list R * list R) :=
  let batch_size := size0 mu in
  let? _ := assert (negb (batch_size =? 0)%nat) in
  let? mu := view2 mu in
  let? logvar := view2 logvar in
  let? klds := of_option RuntimeError
                 (broadcast2 (fun lv m => -0.5 * (1 + lv - m ^ 2 - exp lv)) logvar mu) in
  let total_kld := [mean (map Rsum klds)] in
  let dimension_wise_kld := mean_axis0 klds in
  let mean_kld := [mean (map mean klds)] in
  Ok (total_kld, dimension_wise_kld, mean_kld).

(** The [predictions] of a training pass. *)
Record Predictions := {
  p_actions : list (list (list R));
  p_kl_loss : R;
  p_reconstruction_loss : R
}.

(** [(all_l1 * ~is_pad.unsqueeze(-1)).mean()] with
    [all_l1 = F.l1_loss(actions, a_hat, reduction='none')]. *)
Definition masked_l1 (actions a_hat : list (list (list R)))
    (is_pad : list (list bool)) : result R :=
  let? all_l1 := of_option RuntimeError
                   (broadcast3 (fun a p => Rabs (a - p)) actions a_hat) in
  let not_pad := map (map (fun p => [negb p])) is_pad in
  let? masked := of_option RuntimeError
                   (broadcast3 (fun l (keep : bool) => l * (if keep then 1 else 0))
                      all_l1 not_pad) in
  Ok (mean (flatten3 masked)).

(** [ACT._forward_training(self, batch)]. *)
Definition _forward_training (batch : Batch) : M Predictions :=
  let* self := get_self in
  let* d := lift (_robomimic_to_act_data self batch (camera_keys self) (proprio_keys self)) in
  let* out := call_policy {| qpos := ad_qpos d; images := ad_images d;
                             env_state := ad_env_state d; modality_arg := None;
                             actions_arg := Some (ad_actions d);
                             is_pad_arg := Some (ad_is_pad d) |} in
  let* mu := lift (of_option AttributeError (mu out)) in
  let* logvar := lift (of_option AttributeError (logvar out)) in
  let* klds := lift (kl_divergence mu logvar) in
  let total_kld := fst (fst klds) in
  let* l1 := lift (masked_l1 (ad_actions d) (a_hat out) (ad_is_pad d)) in
  let* kl := lift (index total_kld 0) in
  ret {| p_actions := ad_actions d; p_kl_loss := kl; p_reconstruction_loss := l1 |}.

(** Lines 244 to 256 of [get_action]: the arguments of the policy built
    from the observation. *)
Definition get_action_inputs (self : Self) (obs_dict : gmap string ObsValue)
    : result PolicyInput :=
  let? proprio := for_each (getitem obs_dict) (proprio_keys self) in
  let? proprio := for_each as_low_dim proprio in
  let? qpos := of_option RuntimeError (cat_axis1 proprio) in
  let? images := for_each (fun cam_name =>
                   let? image := getitem obs_dict cam_name in
                   let? image := as_rgb image in
                   let image := normalize self image in
                   Ok image) (camera_keys self) in
  let? images := of_option RuntimeError (cat_unsqueezed images) in
  let env_state := zeros (length qpos) 10 in
  Ok {| qpos := qpos; images := images; env_state := env_state;
        modality_arg := None; actions_arg := None; is_pad_arg := None |}.

(** [a_hat_store[:, i, :]]. *)
Definition timestep (store : list (list (list R))) (i : Z) : result (list (list R)) :=
  for_each (fun trajectory => index trajectory i) store.

(** [get_action(self, obs_dict, goal_dict=None)]. *)
Definition get_action (obs_dict : gmap string ObsValue) : M (list (list R)) :=
  let* self := get_self in
  let* _ := lift (assert (negb (nets_training self))) in
  let* inp := lift (get_action_inputs self obs_dict) in
  let* r := lift (mod_ (_step_counter self) (query_frequency self)) in
  let* _ := (if (r =? 0)%Z
             then let* out := call_policy inp in
                  modify (set_a_hat_store (Some (a_hat out)))
             else ret tt) in
  let* self := get_self in
  let* r := lift (mod_ (_step_counter self) (query_frequency self)) in
  let* store := lift (of_option TypeError (a_hat_store self)) in
  let* action := lift (timestep store r) in
  let* _ := modify (fun self => set_step_counter (_step_counter self + 1) self) in
  ret action.

(** [set_eval(self)], of the base class: [self.nets.eval()]. *)
Definition set_eval : M unit :=
  modify (fun self =>
    {| camera_keys := camera_keys self; proprio_keys := proprio_keys self;
       proprio_keys_hand := proprio_keys_hand self; chunk_size := chunk_size self;
       query_frequency := query_frequency self; kl_weight := kl_weight self;
       nets_policy := nets_policy self; nets_training := false;
       normalize := normalize self; color_jitter := color_jitter self;
       _step_counter := _step_counter self; a_hat_store := a_hat_store self;
       policy_calls := policy_calls self |}).

(** [reset(self)]. *)
Definition reset : M unit := modify (set_step_counter 0).

(** The [losses] of [_compute_losses]. *)
Record Losses := {
  recons_loss : R;
  kl_loss : R;
  action_loss : R
}.

(** [_compute_losses(self, predictions, batch)]. *)
Definition _compute_losses (self : Self) (predictions : Predictions) (batch : Batch)
    : Losses :=
  let kl_loss := p_kl_loss predictions in
  let recons_loss := p_reconstruction_loss predictions in
  let action_loss := recons_loss + kl_weight self * kl_loss in
  {| recons_loss := recons_loss; kl_loss := kl_loss; action_loss := action_loss |}.

(** A rollout: [get_action] on each observation in turn. *)
Fixpoint rollout (observations : list (gmap string ObsValue)) : M (list (list (list R))) :=
  match observations with
  | [] => ret []
  | o :: rest =>
      let* a := get_action o in
      let* r := rollout rest in
      ret (a :: r)
  end.

(** [ACT.forward_eval(self, batch)]: returns [predictions["actions"]]. *)
Definition forward_eval (batch : Batch) : M (list (list (list R))) :=
  let* self := get_self in
  let* d := lift (_robomimic_to_act_data self batch (camera_keys self) (proprio_keys self)) in
  let* out := call_policy {| qpos := ad_qpos d; images := ad_images d;
                             env_state := ad_env_state d; modality_arg := None;
                             actions_arg := None;
                             is_pad_arg := Some (ad_is_pad d) |} in
  ret (a_hat out).

(** An entry of [batch["obs"]] as the data loader gives it, with its time
    axis: a low-dimensional observation [batch, time, features], or the
    image batches of the timesteps, in order. *)
Inductive RawObsValue : Type :=
  | RawLowDim (t : list (list (list R)))
  | RawRgb (frames : list Img).

(** A batch of the data loader.  [raw_obs] is [batch["obs"]];
    [raw_pad_mask] is its entry "pad_mask", kept apart because it is of
    another kind (an entry of [raw_obs] under that key, or under "type",
    is dropped by the code and read by nothing).  [raw_entries] holds the
    action tensors of the batch under their keys, which are the entries
    of the batch other than "obs", "goal_obs" and "type", and [raw_type]
    is [batch["type"]].  The entry "goal_obs", which the code copies and
    nothing here reads, is left out. *)
Record RawBatch := {
  raw_obs : gmap string RawObsValue;
  raw_pad_mask : option (list (list Z));
  raw_entries : gmap string (list (list (list R)));
  raw_type : option (list Z)
}.

(** [v[:, 0, :]]: the first timestep; IndexError without a timestep (a
    tensor without sample is given by the empty list, and taken to have
    timesteps). *)
Definition first_timestep (v : RawObsValue) : result ObsValue :=
  match v with
  | RawLowDim t => let? t0 := timestep t 0 in Ok (LowDim t0)
  | RawRgb frames => let? frame := index frames 0 in Ok (Rgb frame)
  end.

(** [process_batch_for_training(self, batch, ac_key)], for a key
    [ac_key] other than "obs", "goal_obs" and "type", under which a
    batch holds no action tensor; the move to the device and the cast to
    float leave the values as they are. *)
Definition process_batch_for_training (batch : RawBatch) (ac_key : string)
    : result Batch :=
  let kept := filter (fun kv => fst kv <> "pad_mask" /\ fst kv <> "type") (raw_obs batch) in
  let sliced := first_timestep <$> kept in
  let? _ := (if decide (map_Forall (fun _ r => is_Ok r = true) sliced)
             then Ok tt else Raise IndexError) in
  let input_obs := omap (fun r => match r with Ok v => Some v | Raise _ => None end)
                     sliced in
  let? pad_mask := of_option (KeyError "pad_mask") (raw_pad_mask batch) in
  let input_obs := <["pad_mask" := PadMask pad_mask]> input_obs in
  let input_actions := raw_entries batch !! ac_key in
  let? type := of_option (KeyError "type") (raw_type batch) in
  Ok {| obs := input_obs; actions := input_actions; type_ := Some type |}.

End methods.
End ACT.

(** ** act.py: class ACTSP(ACT) *)

#[global] Instance Modality_eq_dec : EqDecision Modality.
Proof. solve_decision. Defined.

Module ACTSP.
Import Tensor.
Import ACT.

Section methods.
Context {Img : Type}.
Local Abbreviation Self := (@Self Img).
Local Abbreviation Batch := (@Batch Img).
Local Abbreviation M := (@M Img).

(** [batch["actions"] = batch["actions"][:, :, :3]]. *)
Definition slice_actions (batch : Batch) : result Batch :=
  let? actions := of_option (KeyError "actions") (actions batch) in
  Ok (set_actions (map (map (take 3)) actions) batch).

(** Lines 356 to 372 of [ACTSP._forward_training], after the modality,
    the keys and the batch are settled. *)
Definition _forward_training_with (modality : Modality)
    (cam_keys proprio_keys : list string) (batch : Batch) : M Predictions :=
  let* self := get_self in
  let* d := lift (_robomimic_to_act_data self batch cam_keys proprio_keys) in
  let* out := call_policy {| qpos := ad_qpos d; images := ad_images d;
                             env_state := ad_env_state d;
                             modality_arg := Some modality;
                             actions_arg := Some (ad_actions d);
                             is_pad_arg := Some (ad_is_pad d) |} in
  let* mu := lift (of_option AttributeError (mu out)) in
  let* logvar := lift (of_option AttributeError (logvar out)) in
  let* klds := lift (kl_divergence mu logvar) in
  let total_kld := fst (fst klds) in
  let* l1 := lift (masked_l1 (ad_actions d) (a_hat out) (ad_is_pad d)) in
  let* kl := lift (index total_kld 0) in
  ret {| p_actions := ad_actions d; p_kl_loss := kl; p_reconstruction_loss := l1 |}.

(** [ACTSP._forward_training(self, batch)]: returns the predictions and
    the batch, whose "actions" entry the method may have replaced. *)
Definition _forward_training (batch : Batch) : M (Batch * Predictions) :=
  let* self := get_self in
  let* modality := lift (_modality_check batch) in
  let* batch := lift (if decide (modality = hand) then slice_actions batch else Ok batch) in
  let cam_keys := if decide (modality = robot) then camera_keys self
                  else take 1 (camera_keys self) in
  let proprio_keys := if decide (modality = hand) then proprio_keys_hand self
                      else proprio_keys self in
  let* predictions := _forward_training_with modality cam_keys proprio_keys batch in
  ret (batch, predictions).

(** Lines 396 to 403 of [ACTSP.forward_eval]. *)
Definition forward_eval_with (modality : Modality)
    (cam_keys proprio_keys : list string) (batch : Batch) : M (list (list (list R))) :=
  let* self := get_self in
  let* d := lift (_robomimic_to_act_data self batch cam_keys proprio_keys) in
  let* out := call_policy {| qpos := ad_qpos d; images := ad_images d;
                             env_state := ad_env_state d;
                             modality_arg := Some modality;
                             actions_arg := None;
                             is_pad_arg := Some (ad_is_pad d) |} in
  ret (a_hat out).

(** [ACTSP.forward_eval(self, batch)]: returns [predictions["actions"]]
    and the batch. *)
Definition forward_eval (batch : Batch) : M (Batch * list (list (list R))) :=
  let* self := get_self in
  let* modality := lift (_modality_check batch) in
  let modality := if contains (obs batch) "right_wrist_img" then robot else hand in
  let* batch := lift (if decide (modality = hand) then slice_actions batch else Ok batch) in
  let cam_keys := if decide (modality = robot) then camera_keys self
                  else take 1 (camera_keys self) in
  let proprio_keys := if decide (modality = hand) then proprio_keys_hand self
                      else proprio_keys self in
  let* a_hat := forward_eval_with modality cam_keys proprio_keys batch in
  ret (batch, a_hat).

End methods.
End ACTSP.

(** ** Vocabulary of the statements *)

(** A [type] tag is uniformly [v] when it has an entry and all its
    entries are [v]. *)
Definition uniform_type (v : Z) (tag : list Z) : Prop :=
  tag <> [] /\ Forall (fun t => t = v) tag.

(** A tag is mixed when it is neither all 0 nor all 1: it holds a 0 and a
    1, or a value that is neither.  A mixed tag has an entry. *)
Definition mixed_type (tag : list Z) : Prop :=
  ~ Forall (fun t => t = 0%Z) tag /\ ~ Forall (fun t => t = 1%Z) tag.

(** The error the specification calls InconsistentModalityError: the
    ValueError of [_modality_check]. *)
Definition InconsistentModalityError : exn :=
  ValueError
    "Got mixed modalities, current implementation expects either robot or hand data only.".

(** A latent tensor of batch size [B] and width [D] that is identically
    zero, of rank 2 or of rank 4. *)
Definition zero_latent (B D : nat) (l : Latent) : Prop :=
  l = Latent2 (Tensor.zeros B D) \/ l = Latent4 (replicate B (replicate D [[0]])).

(** The shape [B, T, D] of a tensor of actions. *)
Definition shape3 (B T D : nat) (t : list (list (list R))) : Prop :=
  length t = B /\
  Forall (fun trajectory => length trajectory = T /\
                            Forall (fun v => length v = D) trajectory) t.

(** The policy reproduces the actions [acts] and returns a standard
    normal latent of batch size [B] and width [D]. *)
Definition reproduces {Img} (self : @ACT.Self Img)
    (acts : list (list (list R))) (B D : nat) : Prop :=
  forall inp, ACT.actions_arg inp = Some acts ->
    ACT.a_hat (ACT.nets_policy self inp) = acts /\
    exists m lv, ACT.mu (ACT.nets_policy self inp) = Some m /\
                 ACT.logvar (ACT.nets_policy self inp) = Some lv /\
                 zero_latent B D m /\ zero_latent B D lv.

(** The observations hold, under every proprioceptive key, a
    low-dimensional tensor of batch size [B] and, under every camera key,
    an image batch; there is a key of each kind. *)
Definition has_keys {Img} (B : nat) (o : gmap string (@ACT.ObsValue Img))
    (cam_keys proprio_keys : list string) : Prop :=
  proprio_keys <> [] /\
  Forall (fun k => exists t, o !! k = Some (ACT.LowDim t) /\ length t = B) proprio_keys /\
  cam_keys <> [] /\
  Forall (fun k => exists image, o !! k = Some (ACT.Rgb image)) cam_keys.

(** The object [self] with its three mutable attributes replaced. *)
Definition with_state {Img} (self : @ACT.Self Img) (step_counter : Z)
    (store : option (list (list (list R)))) (calls : list (@ACT.PolicyInput Img))
    : @ACT.Self Img :=
  {| ACT.camera_keys := ACT.camera_keys self; ACT.proprio_keys := ACT.proprio_keys self;
     ACT.proprio_keys_hand := ACT.proprio_keys_hand self;
     ACT.chunk_size := ACT.chunk_size self;
     ACT.query_frequency := ACT.query_frequency self; ACT.kl_weight := ACT.kl_weight self;
     ACT.nets_policy := ACT.nets_policy self; ACT.nets_training := ACT.nets_training self;
     ACT.normalize := ACT.normalize self; ACT.color_jitter := ACT.color_jitter self;
     ACT._step_counter := step_counter; ACT.a_hat_store := store;
     ACT.policy_calls := calls |}.

(** Of the inputs of the calls number [i], [i + 1], ... of a rollout,
    those of the calls whose number is a multiple of [q]. *)
Fixpoint invoked_from {X} (q i : nat) (inps : list X) : list X :=
  match inps with
  | [] => []
  | inp :: rest =>
      (if (i mod q =? 0)%nat then [inp] else []) ++ invoked_from q (S i) rest
  end.

Definition invoked {X} (q : nat) (inps : list X) : list X := invoked_from q 0 inps.

(** The outcome of a pass that returns the batch with its value: what
    the pass leaves in the "obs" and "actions" entries, and the value. *)
Definition outcome {Img A} (r : result (@ACT.Batch Img * A))
    : result (gmap string (@ACT.ObsValue Img) * option (list (list (list R))) * A) :=
  let? x := r in Ok (ACT.obs (fst x), ACT.actions (fst x), snd x).

(** An observation with its time axis has a first timestep: every
    sample of a low-dimensional observation has a timestep, or there is
    an image batch. *)
Definition has_first_timestep {Img} (v : @ACT.RawObsValue Img) : Prop :=
  match v with
  | ACT.RawLowDim t => Forall (fun trajectory => trajectory <> []) t
  | ACT.RawRgb frames => frames <> []
  end.

(** The observations that [process_batch_for_training] keeps all have a
    first timestep. *)
Definition kept_have_first_timestep {Img} (batch : @ACT.RawBatch Img) : Prop :=
  forall k v, ACT.raw_obs batch !! k = Some v -> k <> "pad_mask" -> k <> "type" ->
    has_first_timestep v.

(** A pass from the object [self] with the outcome [out] has left the
    object as it was but for the record of the policy calls, and has
    called the policy once when it returned, once at most when it
    raised. *)
Definition calls_policy_once {Img A} (self : @ACT.Self Img)
    (out : Py.result A * @ACT.Self Img) : Prop :=
  snd out = with_state self (ACT._step_counter self) (ACT.a_hat_store self)
              (ACT.policy_calls (snd out)) /\
  ((exists inp, ACT.policy_calls (snd out) = ACT.policy_calls self ++ [inp]) \/
   (Py.is_Ok (fst out) = false /\ ACT.policy_calls (snd out) = ACT.policy_calls self)).



(** The observations hold, under those of the given keys that they
    have, entries of the kind that the adapter reads: a low-dimensional
    tensor under a proprioceptive key, an image batch under a camera key,
    and under "pad_mask" a padding mask with a sample. *)
Definition expected_kinds {Img} (o : gmap string (@ACT.ObsValue Img))
    (cam_keys proprio_keys : list string) : Prop :=
  (forall k v, k ∈ proprio_keys -> o !! k = Some v -> exists t, v = ACT.LowDim t) /\
  (forall k v, k ∈ cam_keys -> o !! k = Some v -> exists image, v = ACT.Rgb image) /\
  (forall v, o !! "pad_mask" = Some v ->
     exists pad_mask, v = ACT.PadMask pad_mask /\ pad_mask <> []).

(** The mean over the vectors [rows] of their entry [j]. *)
Definition column_mean (j : nat) (rows : list (list R)) : R :=
  Tensor.mean (map (fun row => nth j row 0) rows).

(** The video buffer that holds the frames [g] of the video numbered
    [k], after the videos [files] were written. *)
Definition holding {Frame} (zero_frame : Frame) (T : nat) (g : list Frame) (k : nat)
    (files : list (nat * list Frame)) : val_utils.VideoBuffer :=
  {| val_utils.count := length g; val_utils.vids_written := k;
     val_utils.video := g ++ replicate (T - length g) zero_frame;
     val_utils.written := files |}.

(** Frames that come in groups: every group but the last fills a buffer
    of [T] frames, and the last holds a frame. *)
Fixpoint grouped {Frame} (T : nat) (g : list Frame) (rest : list (list Frame)) : Prop :=
  match rest with
  | [] => (1 <= length g <= T)%nat
  | g' :: rest' => length g = T /\ grouped T g' rest'
  end.

(** ** Concrete objects, on which the statements are run *)

Module Examples.
Import Tensor ACT.

(** A policy that returns the actions it is given (or, when it is given
    none, a chunk of length 5 whose timestep t is [t, t, t]) and a
    standard normal latent of batch size 2 and width 4. *)
Definition policy (inp : @PolicyInput unit) : PolicyOutput :=
  {| a_hat := match actions_arg inp with
              | Some a => a
              | None => replicate (length (qpos inp))
                          [[0; 0; 0]; [1; 1; 1]; [2; 2; 2]; [3; 3; 3]; [4; 4; 4]]
              end;
     is_pad_hat := [];
     mu := Some (Latent2 (zeros 2 4));
     logvar := Some (Latent2 (zeros 2 4)) |}.

Definition algo : @Self unit :=
  _create_networks 5 ["front_img_1"; "right_wrist_img"] ["joint_positions"] ["ee_pose"]
    10 policy (fun image => image) (fun image => image).

Definition obs_robot : gmap string (@ObsValue unit) :=
  <["front_img_1" := Rgb tt]>
  (<["right_wrist_img" := Rgb tt]>
  (<["joint_positions" := LowDim [[0; 0]; [0; 0]]]>
  (<["pad_mask" := PadMask [[1; 1; 1; 1; 1]; [1; 1; 1; 1; 1]]%Z]> ∅))).

Definition obs_hand : gmap string (@ObsValue unit) :=
  <["front_img_1" := Rgb tt]>
  (<["ee_pose" := LowDim [[0; 0; 0]; [0; 0; 0]]]>
  (<["pad_mask" := PadMask [[1; 1; 1; 1; 1]; [1; 1; 1; 1; 1]]%Z]> ∅)).

(** Two samples, chunk length 5, action dimension 3. *)
Definition actions_2_5_3 : list (list (list R)) :=
  [ [[1; 2; 3]; [4; 5; 6]; [7; 8; 9]; [1; 0; 1]; [0; 1; 0]];
    [[3; 2; 1]; [6; 5; 4]; [9; 8; 7]; [0; 1; 0]; [1; 0; 1]] ].

(** Two samples, chunk length 5, action dimension 4. *)
Definition actions_2_5_4 : list (list (list R)) :=
  map (map (fun a => a ++ [7])) actions_2_5_3.

Definition batch_robot (tag : list Z) : @Batch unit :=
  {| obs := obs_robot; actions := Some actions_2_5_3; type_ := Some tag |}.

Definition batch_hand (tag : list Z) : @Batch unit :=
  {| obs := obs_hand; actions := Some actions_2_5_4; type_ := Some tag |}.

(** The object in evaluation mode, after 3 calls of an earlier episode
    that left a chunk in the store. *)
Definition algo_eval : @Self unit :=
  with_state (snd (set_eval algo)) 3 (Some [[[9; 9; 9]]; [[9; 9; 9]]]) [].

(** What [get_action] hands to the policy on [obs_robot]. *)
Definition inp_robot : @PolicyInput unit :=
  {| qpos := [[0; 0]; [0; 0]]; images := [tt; tt]; env_state := zeros 2 10;
     modality_arg := None; actions_arg := None; is_pad_arg := None |}.

(** The object in evaluation mode, 3 calls into a chunk of 5 timesteps. *)
Definition algo_mid_chunk : @Self unit :=
  with_state (snd (set_eval algo)) 3
    (Some (replicate 2 [[0; 0; 0]; [1; 1; 1]; [2; 2; 2]; [3; 3; 3]; [4; 4; 4]])) [].

(** An observation with the keys of [obs_robot] and other joint
    positions. *)
Definition obs_robot_moved : gmap string (@ObsValue unit) :=
  <["joint_positions" := LowDim [[1; 1]; [1; 1]]]> obs_robot.

(** A batch of the data loader: 2 samples with 2 timesteps of
    observations, a padding mask and joint actions. *)
Definition raw_batch : @RawBatch unit :=
  {| raw_obs := <["joint_positions" := RawLowDim [[[0; 0]; [1; 1]]; [[2; 2]; [3; 3]]]]>
                (<["front_img_1" := RawRgb [tt; tt]]> ∅);
     raw_pad_mask := Some [[1; 1]; [1; 0]]%Z;
     raw_entries := <["actions_joints_act" := [[[5]; [6]]; [[7]; [8]]]]> ∅;
     raw_type := Some [0; 0]%Z |}.

End Examples.

(** * Theorems *)

(** ** simarUtils: normalisation round trip *)

Section general_norm_facts.
Import simarUtils.

Lemma general_norm_bounds array min_val max_val lo hi :
  general_norm array min_val max_val (Some lo) (Some hi) =
  Ok (map (fun a => (max_val - min_val) * ((a - lo) / (hi - lo)) + min_val) array).
Proof. reflexivity. Qed.

(** The inverse of [general_norm x a b lo hi] is [general_unnorm _ lo hi a b]:
    the original range comes first, the normalised one second. *)
Lemma general_unnorm_norm array a b lo hi :
  a <> b -> lo <> hi ->
  general_unnorm (map (fun x => (b - a) * ((x - lo) / (hi - lo)) + a) array) lo hi a b
  = array.
Proof.
  intros Hab Hlh. unfold general_unnorm. rewrite map_map.
  induction array as [|x xs IH]; simpl; [reflexivity|].
  rewrite IH. f_equal. field. split; lra.
Qed.

(** C2, as the claim states it, fails: with lo = 0, hi = 1 and the array
    [0] (inside the interval), normalising gives [-1], and
    [general_unnorm [-1] (-1) 1 0 1] is [-3], at distance 3 from the
    input. *)
Lemma C2_counterexample :
  0 < 1 /\ Forall (fun v => 0 <= v <= 1) [0] /\
  general_norm [0] (-1) 1 (Some 0) (Some 1) = Ok [-1] /\
  general_unnorm [-1] (-1) 1 0 1 = [-3] /\
  general_unnorm [-1] (-1) 1 0 1 <> [0] /\
  Rabs (-3 - 0) = 3.
Proof.
  assert (H : general_unnorm [-1] (-1) 1 0 1 = [-3]).
  { unfold general_unnorm; simpl. f_equal. field. }
  split; [lra|]. split; [repeat constructor; lra|].
  split; [|split; [exact H|split]].
  - unfold general_norm; simpl. do 2 f_equal. field.
  - rewrite H. intros E. injection E as E. lra.
  - rewrite Rabs_left; lra.
Qed.

(** C2, amended: for every array x with every element in [lo, hi]
    (lo < hi), [general_norm x (-1) 1 lo hi] followed by
    [general_unnorm _ lo hi (-1) 1] (original range first, normalised
    range second) returns x. *)
Theorem C2_norm_unnorm_roundtrip (x : list R) (lo hi : R) :
  lo < hi ->
  Forall (fun v => lo <= v <= hi) x ->
  exists y, general_norm x (-1) 1 (Some lo) (Some hi) = Ok y /\
            general_unnorm y lo hi (-1) 1 = x.
Proof.
  intros Hlt _. eexists. split; [apply general_norm_bounds|].
  apply general_unnorm_norm; lra.
Qed.

Lemma C2_norm_unnorm_roundtrip_witness :
  2 < 6 /\ Forall (fun v => 2 <= v <= 6) [2; 3; 6] /\
  exists y, general_norm [2; 3; 6] (-1) 1 (Some 2) (Some 6) = Ok y /\
            general_unnorm y 2 6 (-1) 1 = [2; 3; 6].
Proof.
  assert (H1 : 2 < 6) by lra.
  assert (H2 : Forall (fun v => 2 <= v <= 6) [2; 3; 6])
    by (repeat constructor; lra).
  exact (conj H1 (conj H2 (C2_norm_unnorm_roundtrip [2; 3; 6] 2 6 H1 H2))).
Defined.

End general_norm_facts.

(** ** The modality check *)

Section modality_check_facts.
Import ACT.
Context {Img : Type}.
Implicit Types (batch : @Batch Img) (tag : list Z).

Lemma forallb_eqb_Forall (v : Z) tag :
  forallb (fun t => (t =? v)%Z) tag = true <-> Forall (fun t => t = v) tag.
Proof.
  induction tag as [|t tag IH]; simpl.
  - split; [constructor | reflexivity].
  - rewrite andb_true_iff, IH, Z.eqb_eq, Forall_cons. reflexivity.
Qed.

Lemma forallb_eqb_not_Forall (v : Z) tag :
  forallb (fun t => (t =? v)%Z) tag = false <-> ~ Forall (fun t => t = v) tag.
Proof.
  rewrite <- forallb_eqb_Forall. destruct (forallb _ tag); split; congruence.
Qed.

Lemma modality_check_all_0 batch tag :
  type_ batch = Some tag -> Forall (fun t => t = 0%Z) tag ->
  _modality_check batch = Ok robot.
Proof.
  intros Ht H0. unfold _modality_check. rewrite Ht. simpl.
  apply forallb_eqb_Forall in H0. rewrite H0. reflexivity.
Qed.

Lemma uniform_1_not_all_0 tag :
  uniform_type 1 tag -> ~ Forall (fun t => t = 0%Z) tag.
Proof.
  intros [Hne H1] H0. destruct tag as [|t tag]; [congruence|].
  apply Forall_cons in H1 as [-> _]. apply Forall_cons in H0 as [? _]. lia.
Qed.

Lemma modality_check_uniform_0 batch tag :
  type_ batch = Some tag -> uniform_type 0 tag ->
  _modality_check batch = Ok robot.
Proof. intros Ht [_ H0]. eapply modality_check_all_0; eassumption. Qed.

Lemma modality_check_uniform_1 batch tag :
  type_ batch = Some tag -> uniform_type 1 tag ->
  _modality_check batch = Ok hand.
Proof.
  intros Ht Hu. unfold _modality_check. rewrite Ht. simpl.
  pose proof (uniform_1_not_all_0 _ Hu) as Hn0.
  apply forallb_eqb_not_Forall in Hn0. rewrite Hn0.
  destruct Hu as [_ H1]. apply forallb_eqb_Forall in H1. rewrite H1. reflexivity.
Qed.

Lemma modality_check_mixed batch tag :
  type_ batch = Some tag -> mixed_type tag ->
  _modality_check batch = Raise InconsistentModalityError.
Proof.
  intros Ht [Hn0 Hn1]. unfold _modality_check. rewrite Ht. simpl.
  apply forallb_eqb_not_Forall in Hn0, Hn1. rewrite Hn0, Hn1. reflexivity.
Qed.

(** The check answers a modality exactly on the tags that are all 0 or
    all 1. *)
Lemma modality_check_Ok batch m :
  _modality_check batch = Ok m ->
  exists tag, type_ batch = Some tag /\
    (Forall (fun t => t = 0%Z) tag \/ Forall (fun t => t = 1%Z) tag).
Proof.
  unfold _modality_check. destruct (type_ batch) as [tag|]; simpl; [|discriminate].
  intros H. exists tag. split; [reflexivity|].
  destruct (forallb (fun t => (t =? 0)%Z) tag) eqn:E0.
  - left. apply forallb_eqb_Forall, E0.
  - destruct (forallb (fun t => (t =? 1)%Z) tag) eqn:E1; [|discriminate].
    right. apply forallb_eqb_Forall, E1.
Qed.

(** C10: on a batch whose type tensor has no entry the modality check
    returns "robot" and raises nothing: the tests "all equal 0" and "all
    equal 1" both hold vacuously and the robot branch comes first,
    although the tag is neither uniformly 0 nor uniformly 1 (nor
    mixed). *)
Theorem C10_empty_type_is_robot
    (o : gmap string (@ObsValue Img)) (a : option (list (list (list R)))) :
  let batch := {| obs := o; actions := a; type_ := Some [] |} in
  _modality_check batch = Ok robot /\
  forallb (fun t => (t =? 0)%Z) [] = true /\
  forallb (fun t => (t =? 1)%Z) [] = true /\
  ~ uniform_type 0 [] /\ ~ uniform_type 1 [] /\ ~ mixed_type [].
Proof.
  simpl. repeat split; try reflexivity.
  - intros [H _]. congruence.
  - intros [H _]. congruence.
  - intros [H _]. apply H. constructor.
Qed.

End modality_check_facts.

(** ** ACTSP: routing by modality *)

Section routing_facts.
Import Tensor ACT ACTSP.
Context {Img : Type}.
Implicit Types (self : @Self Img) (batch : @Batch Img) (tag : list Z).

(** The arguments of the policy in a training pass of ACTSP. *)
Local Abbreviation training_call modality d :=
  {| qpos := ad_qpos d; images := ad_images d; env_state := ad_env_state d;
     modality_arg := Some modality; actions_arg := Some (ad_actions d);
     is_pad_arg := Some (ad_is_pad d) |}.

Lemma for_each_length {A B} (f : A -> result B) l r :
  for_each f l = Ok r -> length r = length l.
Proof.
  revert r. induction l as [|x l IH]; simpl; intros r H.
  - injection H as <-. reflexivity.
  - destruct (f x); simpl in H; [|discriminate].
    destruct (for_each f l); simpl in H; [|discriminate].
    injection H as <-. simpl. f_equal. apply IH. reflexivity.
Qed.

(** What a successful [_robomimic_to_act_data] hands on: the actions of
    the batch as they are, and one image per camera key. *)
Lemma robomimic_to_act_data_Ok self batch cam_keys proprio_keys d :
  _robomimic_to_act_data self batch cam_keys proprio_keys = Ok d ->
  actions batch = Some (ad_actions d) /\
  length (ad_images d) = length cam_keys /\
  exists pad_mask, obs batch !! "pad_mask" = Some (PadMask pad_mask) /\
    ad_is_pad d = map (map (fun m => (m =? 0)%Z)) pad_mask /\
    Forall (fun row => Z.of_nat (length row) = chunk_size self) pad_mask.
Proof.
  unfold _robomimic_to_act_data. intros H.
  destruct (for_each (getitem (obs batch)) proprio_keys) as [p0|]; simpl in H; [|discriminate].
  destruct (for_each as_low_dim p0) as [p1|]; simpl in H; [|discriminate].
  destruct (cat_axis1 p1) as [q|]; simpl in H; [|discriminate].
  destruct (for_each _ cam_keys) as [ims|] eqn:Eims; simpl in H; [|discriminate].
  destruct ims as [|im ims]; simpl in H; [discriminate|].
  destruct (actions batch) as [a|]; simpl in H; [|discriminate].
  unfold getitem in H.
  destruct (obs batch !! "pad_mask") as [[| |pm]|]; simpl in H; try discriminate.
  destruct (forallb _ _) eqn:Ef; simpl in H; [|discriminate].
  injection H as <-. simpl. split; [reflexivity|].
  split; [apply (for_each_length _ _ _ Eims)|].
  exists pm. split; [reflexivity|]. split; [reflexivity|].
  apply Forall_forall. intros row Hrow.
  rewrite forallb_forall in Ef.
  apply Z.eqb_eq. rewrite <- (Ef (map (fun m => (m =? 0)%Z) row)).
  - rewrite length_map. reflexivity.
  - apply in_map, list_elem_of_In, Hrow.
Qed.

(** A training pass that returns has called the policy once, last, with
    the modality it was given and the data of the batch. *)
Lemma forward_training_with_Ok modality cam_keys proprio_keys batch self p self' :
  _forward_training_with modality cam_keys proprio_keys batch self = (Ok p, self') ->
  exists d, _robomimic_to_act_data self batch cam_keys proprio_keys = Ok d /\
    self' = log_policy_call (training_call modality d) self /\
    p_actions p = ad_actions d.
Proof.
  unfold _forward_training_with, bindM, get_self, lift, call_policy, ret. intros H.
  destruct (_robomimic_to_act_data self batch cam_keys proprio_keys) as [d|];
    [|discriminate].
  exists d. split; [reflexivity|].
  repeat match type of H with
         | context [match ?x with _ => _ end] =>
             match x with
             | context [match _ with _ => _ end] => fail 1
             | _ => destruct x; try discriminate
             end
         end.
  injection H as <- <-. split; reflexivity.
Qed.

(** A training pass that raises before the policy is called leaves the
    object as it was. *)
Lemma forward_training_no_check batch self e :
  _modality_check batch = Raise e ->
  ACTSP._forward_training batch self = (Raise e, self).
Proof.
  intros H. unfold ACTSP._forward_training, bindM, get_self, lift. rewrite H.
  reflexivity.
Qed.

Lemma forward_eval_no_check batch self e :
  _modality_check batch = Raise e ->
  forward_eval batch self = (Raise e, self).
Proof.
  intros H. unfold forward_eval, bindM, get_self, lift. rewrite H. reflexivity.
Qed.

Lemma forward_training_robot batch self :
  _modality_check batch = Ok robot ->
  ACTSP._forward_training batch self =
  (let* predictions :=
     _forward_training_with robot (camera_keys self) (proprio_keys self) batch in
   ret (batch, predictions)) self.
Proof.
  intros H. unfold ACTSP._forward_training, bindM, get_self, lift. rewrite H.
  reflexivity.
Qed.

Lemma forward_training_hand batch self :
  _modality_check batch = Ok hand ->
  ACTSP._forward_training batch self =
  (let* batch := lift (slice_actions batch) in
   let* predictions :=
     _forward_training_with hand (take 1 (camera_keys self)) (proprio_keys_hand self)
       batch in
   ret (batch, predictions)) self.
Proof.
  intros H. unfold ACTSP._forward_training, bindM, get_self, lift. rewrite H.
  reflexivity.
Qed.

Lemma forward_training_robot_Ok batch self batch' p self' :
  _modality_check batch = Ok robot ->
  ACTSP._forward_training batch self = (Ok (batch', p), self') ->
  batch' = batch /\
  actions batch = Some (p_actions p) /\
  exists d,
    _robomimic_to_act_data self batch (camera_keys self) (proprio_keys self) = Ok d /\
    length (ad_images d) = length (camera_keys self) /\
    policy_calls self' = policy_calls self ++ [training_call robot d].
Proof.
  intros Hc. rewrite (forward_training_robot _ _ Hc). unfold bindM, ret.
  destruct (_forward_training_with _ _ _ _ _) as [[p0|e] s0] eqn:E; [|discriminate].
  intros H. injection H as <- <- <-.
  apply forward_training_with_Ok in E as (d & Hd & -> & Hp).
  split; [reflexivity|].
  destruct (robomimic_to_act_data_Ok _ _ _ _ _ Hd) as (Ha & Hi & _).
  split; [congruence|].
  exists d. repeat split; assumption || reflexivity.
Qed.

Lemma slice_actions_Some batch a :
  actions batch = Some a ->
  slice_actions batch = Ok (set_actions (map (map (take 3)) a) batch).
Proof. intros H. unfold slice_actions. rewrite H. reflexivity. Qed.

Lemma forward_training_hand_Ok batch self batch' p self' :
  _modality_check batch = Ok hand ->
  ACTSP._forward_training batch self = (Ok (batch', p), self') ->
  exists a d,
    actions batch = Some a /\
    batch' = set_actions (map (map (take 3)) a) batch /\
    p_actions p = map (map (take 3)) a /\
    _robomimic_to_act_data self batch' (take 1 (camera_keys self))
      (proprio_keys_hand self) = Ok d /\
    length (ad_images d) = length (take 1 (camera_keys self)) /\
    ad_actions d = map (map (take 3)) a /\
    policy_calls self' = policy_calls self ++ [training_call hand d].
Proof.
  intros Hc. rewrite (forward_training_hand _ _ Hc). unfold bindM, ret, lift.
  unfold slice_actions at 1.
  destruct (actions batch) as [a|] eqn:Ea; simpl; [|discriminate].
  destruct (_forward_training_with _ _ _ _ _) as [[p0|e] s0] eqn:E; [|discriminate].
  intros H. injection H as <- <- <-.
  apply forward_training_with_Ok in E as (d & Hd & -> & Hp).
  destruct (robomimic_to_act_data_Ok _ _ _ _ _ Hd) as (Ha & Hi & _).
  simpl in Ha. injection Ha as Ha.
  exists a, d. repeat split; try assumption || reflexivity; congruence.
Qed.

(** A tag is mixed when it has an entry and is uniform neither way. *)
Lemma mixed_type_not_uniform tag :
  mixed_type tag <-> tag <> [] /\ ~ uniform_type 0 tag /\ ~ uniform_type 1 tag.
Proof.
  unfold mixed_type, uniform_type. split.
  - intros [H0 H1]. split; [intros ->; apply H0; constructor|].
    split; intros [_ H]; auto.
  - intros (Hne & H0 & H1). split; intros H; [apply H0 | apply H1]; auto.
Qed.

(** The mixed tags are those that hold both 0 and 1, or a value that is
    neither. *)
Lemma mixed_type_cases tag :
  mixed_type tag <->
  (0%Z ∈ tag /\ 1%Z ∈ tag) \/ (exists v, v ∈ tag /\ v <> 0%Z /\ v <> 1%Z).
Proof.
  unfold mixed_type. rewrite !Forall_forall. split.
  - intros [Hn0 Hn1].
    destruct (decide (Forall (fun t => t = 0%Z \/ t = 1%Z) tag)) as [Hb|Hb].
    + left. rewrite Forall_forall in Hb. split.
      * destruct (decide (0%Z ∈ tag)) as [|Hni]; [assumption|].
        exfalso. apply Hn1. intros x Hx. destruct (Hb x Hx); congruence.
      * destruct (decide (1%Z ∈ tag)) as [|Hni]; [assumption|].
        exfalso. apply Hn0. intros x Hx. destruct (Hb x Hx); congruence.
    + right. apply not_Forall_Exists in Hb; [|intros x; apply _].
      apply Exists_exists in Hb as (v & Hv & Hnv). exists v.
      split; [assumption|]. split; intros ->; apply Hnv; auto.
  - intros [[H0 H1]|(v & Hv & Hv0 & Hv1)]; split; intros H.
    + specialize (H _ H1). discriminate.
    + specialize (H _ H0). discriminate.
    + apply Hv0, H, Hv.
    + apply Hv1, H, Hv.
Qed.

(** C4: on a batch whose type tag is mixed, the modality check raises the
    ValueError that the specification calls InconsistentModalityError;
    the training pass and the evaluation pass of ACTSP raise it too and
    leave the object as it was: the policy is not called. *)
Theorem C4_mixed_type_raises self batch tag :
  type_ batch = Some tag ->
  mixed_type tag ->
  _modality_check batch = Raise InconsistentModalityError /\
  ACTSP._forward_training batch self = (Raise InconsistentModalityError, self) /\
  forward_eval batch self = (Raise InconsistentModalityError, self) /\
  policy_calls (snd (ACTSP._forward_training batch self)) = policy_calls self /\
  policy_calls (snd (forward_eval batch self)) = policy_calls self.
Proof.
  intros Ht Hm. pose proof (modality_check_mixed _ _ Ht Hm) as Hc.
  rewrite (forward_training_no_check _ _ _ Hc), (forward_eval_no_check _ _ _ Hc).
  repeat split; assumption || reflexivity.
Qed.

(** C6: on a batch whose type tag is uniformly 0 the modality check
    answers "robot", and the training pass goes on with the whole list of
    camera keys, the whole list of robot proprioceptive keys and the
    batch as it is: when it returns, the batch is unchanged, the actions
    of the predictions are those of the batch, there is one image per
    camera key, and the policy was called once, with "robot" and the
    actions at full dimension. *)
Theorem C6_uniform_0_routes_robot self batch tag :
  type_ batch = Some tag ->
  uniform_type 0 tag ->
  _modality_check batch = Ok robot /\
  ACTSP._forward_training batch self =
    (let* predictions :=
       _forward_training_with robot (camera_keys self) (proprio_keys self) batch in
     ret (batch, predictions)) self /\
  forall batch' p self',
    ACTSP._forward_training batch self = (Ok (batch', p), self') ->
    batch' = batch /\
    actions batch = Some (p_actions p) /\
    exists d,
      _robomimic_to_act_data self batch (camera_keys self) (proprio_keys self) = Ok d /\
      length (ad_images d) = length (camera_keys self) /\
      policy_calls self' = policy_calls self ++ [training_call robot d].
Proof.
  intros Ht Hu. pose proof (modality_check_uniform_0 _ _ Ht Hu) as Hc.
  split; [assumption|]. split; [apply forward_training_robot, Hc|].
  intros batch' p self'. apply forward_training_robot_Ok, Hc.
Qed.

(** The object that a training call leaves: the policy was called, with
    the data of the batch, when and only when the adapter returned. *)
Lemma forward_training_with_state modality cam_keys proprio_keys batch self :
  snd (_forward_training_with modality cam_keys proprio_keys batch self) =
  match _robomimic_to_act_data self batch cam_keys proprio_keys with
  | Ok d => log_policy_call (training_call modality d) self
  | Raise _ => self
  end.
Proof.
  unfold _forward_training_with, bindM, get_self, lift, call_policy, ret.
  destruct (_robomimic_to_act_data self batch cam_keys proprio_keys) as [d|e];
    [|reflexivity].
  repeat match goal with
         | |- context [of_option ?e ?o] => destruct o; cbn [of_option]
         | |- context [match kl_divergence ?m ?lv with _ => _ end] =>
             destruct (kl_divergence m lv)
         | |- context [match masked_l1 ?a ?b ?c with _ => _ end] =>
             destruct (masked_l1 a b c)
         | |- context [match index ?l ?i with _ => _ end] => destruct (index l i)
         end;
    reflexivity.
Qed.

(** The first 3 components of a vector, entry by entry. *)
Lemma lookup_take_3 (v : list R) (k : nat) :
  take 3 v !! k = if (k <? 3)%nat then v !! k else None.
Proof.
  destruct (Nat.ltb_spec k 3) as [Hk|Hk].
  - apply lookup_take_lt, Hk.
  - apply lookup_take_ge, Hk.
Qed.

(** C5: on a batch whose type tag is uniformly 1 the modality check
    answers "hand", and the training pass replaces the actions of the
    batch by their first 3 components along the last axis, then goes on
    with the first camera key alone and the hand proprioceptive keys:
    when it returns, the actions of the batch and of the predictions are
    the truncated ones (no action vector longer than 3, exactly 3 where
    the original had at least 3), and the policy was called once, with
    "hand" and the truncated actions.  On a batch whose tag is uniformly
    0 the actions keep their full dimension.

    The truncation does not wait for the pass to return.  On a batch
    with actions, the pass is the training call for "hand" on the batch
    whose actions are the truncated ones: every action vector is
    replaced by the vector of its entries 0, 1 and 2, and the pass hands
    back that batch with the predictions; whenever the adapter returns
    on that batch, the policy is called with the truncated actions,
    whatever the loss computation does after the call.  On a batch
    without actions the pass raises KeyError "actions" and the policy is
    not called. *)
Theorem C5_uniform_1_routes_hand self batch tag :
  type_ batch = Some tag ->
  uniform_type 1 tag ->
  _modality_check batch = Ok hand /\
  ACTSP._forward_training batch self =
    (let* batch := lift (slice_actions batch) in
     let* predictions :=
       _forward_training_with hand (take 1 (camera_keys self)) (proprio_keys_hand self)
         batch in
     ret (batch, predictions)) self /\
  (forall batch' p self',
    ACTSP._forward_training batch self = (Ok (batch', p), self') ->
    exists a d,
      actions batch = Some a /\
      batch' = set_actions (map (map (take 3)) a) batch /\
      p_actions p = map (map (take 3)) a /\
      Forall (Forall (fun v => length v <= 3)%nat) (p_actions p) /\
      (Forall (Forall (fun v => 3 <= length v)%nat) a ->
       Forall (Forall (fun v => length v = 3%nat)) (p_actions p)) /\
      _robomimic_to_act_data self batch' (take 1 (camera_keys self))
        (proprio_keys_hand self) = Ok d /\
      length (ad_images d) = length (take 1 (camera_keys self)) /\
      policy_calls self' = policy_calls self ++ [training_call hand d]) /\
  (forall batch0 tag0 batch' p self',
    type_ batch0 = Some tag0 -> uniform_type 0 tag0 ->
    ACTSP._forward_training batch0 self = (Ok (batch', p), self') ->
    batch' = batch0 /\ actions batch0 = Some (p_actions p)) /\
  (forall a, actions batch = Some a ->
    let truncated := map (map (take 3)) a in
    let batch3 := {| obs := obs batch; actions := Some truncated; type_ := type_ batch |} in
    Forall2 (Forall2 (fun v v3 =>
               (length v3 <= 3)%nat /\
               forall k, v3 !! k = if (k <? 3)%nat then v !! k else None)) a truncated /\
    ACTSP._forward_training batch self =
      (let* predictions :=
         _forward_training_with hand (take 1 (camera_keys self)) (proprio_keys_hand self)
           batch3 in
       ret (batch3, predictions)) self /\
    (forall d,
       _robomimic_to_act_data self batch3 (take 1 (camera_keys self))
         (proprio_keys_hand self) = Ok d ->
       ad_actions d = truncated /\
       policy_calls (snd (ACTSP._forward_training batch self))
       = policy_calls self ++ [training_call hand d])) /\
  (actions batch = None ->
    ACTSP._forward_training batch self = (Raise (KeyError "actions"), self)).
Proof.
  intros Ht Hu. pose proof (modality_check_uniform_1 _ _ Ht Hu) as Hc.
  split; [assumption|]. split; [apply forward_training_hand, Hc|].
  split; [|split; [|split]].
  4:{ intros Ha. rewrite (forward_training_hand _ _ Hc).
      unfold bindM, lift, slice_actions. rewrite Ha. reflexivity. }
  3:{ intros a Ha truncated batch3.
      assert (Hrun : ACTSP._forward_training batch self =
                (let* predictions :=
                   _forward_training_with hand (take 1 (camera_keys self))
                     (proprio_keys_hand self) batch3 in
                 ret (batch3, predictions)) self).
      { rewrite (forward_training_hand _ _ Hc). unfold bindM at 1, lift.
        rewrite (slice_actions_Some _ _ Ha). reflexivity. }
      split; [|split; [exact Hrun|]].
      - subst truncated. clear. induction a as [|trajectory a IH]; simpl; constructor;
          [|exact IH].
        induction trajectory as [|v trajectory IHt]; simpl; constructor; [|exact IHt].
        split; [rewrite length_take; lia|]. intros k. apply lookup_take_3.
      - intros d Hd. destruct (robomimic_to_act_data_Ok _ _ _ _ _ Hd) as (Hda & _).
        cbn in Hda. injection Hda as Hda. split; [symmetry; exact Hda|].
        rewrite Hrun. unfold bindM, ret.
        pose proof (forward_training_with_state hand (take 1 (camera_keys self))
                      (proprio_keys_hand self) batch3 self) as Hs.
        rewrite Hd in Hs.
        destruct (_forward_training_with _ _ _ _ _) as [[p|e] s]; cbn [snd] in *;
          rewrite Hs; reflexivity. }
  - intros batch' p self' H.
    destruct (forward_training_hand_Ok _ _ _ _ _ Hc H)
      as (a & d & Ha & Hb & Hp & Hd & Hi & Hda & Hcalls).
    exists a, d. repeat split; try assumption.
    + rewrite Hp. apply Forall_map, Forall_forall. intros traj _.
      apply Forall_map, Forall_forall. intros v _. simpl. rewrite length_take. lia.
    + intros Hge. rewrite Hp. apply Forall_map. eapply Forall_impl; [exact Hge|].
      intros traj Htraj. apply Forall_map. eapply Forall_impl; [exact Htraj|].
      intros v Hv. simpl in *. rewrite length_take. lia.
  - intros batch0 tag0 batch' p self' Ht0 Hu0 H.
    pose proof (modality_check_uniform_0 _ _ Ht0 Hu0) as Hc0.
    destruct (forward_training_robot_Ok _ _ _ _ _ Hc0 H) as (Hb & Ha & _).
    split; assumption.
Qed.

End routing_facts.

(** ** ACTSP: the modality of an evaluation pass *)

Section eval_facts.
Import Tensor ACT ACTSP.
Context {Img : Type}.
Implicit Types (self : @Self Img) (batch : @Batch Img) (tag : list Z).

Local Abbreviation eval_call modality d :=
  {| qpos := ad_qpos d; images := ad_images d; env_state := ad_env_state d;
     modality_arg := Some modality; actions_arg := None;
     is_pad_arg := Some (ad_is_pad d) |}.

(** The modality an evaluation pass goes on with. *)
Local Abbreviation probed batch :=
  (if contains (obs batch) "right_wrist_img" then robot else hand).

Lemma forward_eval_checked batch self m :
  _modality_check batch = Ok m ->
  forward_eval batch self =
  (let* batch' := lift (if decide (probed batch = hand)
                        then slice_actions batch else Ok batch) in
   let* a_hat :=
     forward_eval_with (probed batch)
       (if decide (probed batch = robot) then camera_keys self
        else take 1 (camera_keys self))
       (if decide (probed batch = hand) then proprio_keys_hand self
        else proprio_keys self)
       batch' in
   ret (batch', a_hat)) self.
Proof.
  intros H. unfold forward_eval, bindM, get_self, lift. rewrite H. reflexivity.
Qed.

Lemma forward_eval_with_Ok modality cam_keys proprio_keys batch self a self' :
  forward_eval_with modality cam_keys proprio_keys batch self = (Ok a, self') ->
  exists d, _robomimic_to_act_data self batch cam_keys proprio_keys = Ok d /\
    self' = log_policy_call (eval_call modality d) self.
Proof.
  unfold forward_eval_with, bindM, get_self, lift, call_policy, ret. intros H.
  destruct (_robomimic_to_act_data self batch cam_keys proprio_keys) as [d|];
    [|discriminate].
  exists d. split; [reflexivity|]. injection H as _ <-. reflexivity.
Qed.

(** Past the modality check, an evaluation pass reads the "obs" and
    "actions" entries of the batch only. *)
Lemma forward_eval_type_irrelevant batch batch2 self m m2 :
  obs batch2 = obs batch -> actions batch2 = actions batch ->
  _modality_check batch = Ok m -> _modality_check batch2 = Ok m2 ->
  outcome (fst (forward_eval batch2 self)) = outcome (fst (forward_eval batch self)) /\
  snd (forward_eval batch2 self) = snd (forward_eval batch self).
Proof.
  intros Ho Ha Hc Hc2.
  rewrite (forward_eval_checked _ _ _ Hc), (forward_eval_checked _ _ _ Hc2).
  destruct batch as [o a t], batch2 as [o2 a2 t2]. simpl in Ho, Ha. subst o2 a2.
  unfold bindM, lift, ret, slice_actions, forward_eval_with, bindM, get_self, lift,
    call_policy, ret, _robomimic_to_act_data. simpl.
  destruct (contains o "right_wrist_img"); simpl; [|destruct a; simpl; [|auto]];
    repeat match goal with
           | |- context [Py.bind ?r _] => destruct r; simpl; auto
           end.
Qed.

(** C3, amended: on every batch whose type tag passes the modality check
    (all its entries 0, or all 1), the modality of an evaluation pass of
    ACTSP is the one probed from the camera key "right_wrist_img" (there:
    "robot", not there: "hand"), whatever the tag holds: the probed
    modality settles the keys, the truncation of the actions and the
    argument of the policy, and two batches that differ in their tags
    only, both passing the check, have the same outcome and leave the
    object in the same state. *)
Theorem C3_eval_modality_is_probed self batch m :
  _modality_check batch = Ok m ->
  forward_eval batch self =
    (let* batch' := lift (if decide (probed batch = hand)
                          then slice_actions batch else Ok batch) in
     let* a_hat :=
       forward_eval_with (probed batch)
         (if decide (probed batch = robot) then camera_keys self
          else take 1 (camera_keys self))
         (if decide (probed batch = hand) then proprio_keys_hand self
          else proprio_keys self)
         batch' in
     ret (batch', a_hat)) self /\
  (forall batch' a self',
     forward_eval batch self = (Ok (batch', a), self') ->
     exists d,
       policy_calls self' = policy_calls self ++ [eval_call (probed batch) d] /\
       (obs batch !! "right_wrist_img" <> None ->
        probed batch = robot /\ batch' = batch /\
        _robomimic_to_act_data self batch (camera_keys self) (proprio_keys self)
          = Ok d) /\
       (obs batch !! "right_wrist_img" = None ->
        probed batch = hand /\
        exists acts, actions batch = Some acts /\
          batch' = set_actions (map (map (take 3)) acts) batch /\
          _robomimic_to_act_data self batch' (take 1 (camera_keys self))
            (proprio_keys_hand self) = Ok d)) /\
  (forall batch2 m2,
     obs batch2 = obs batch -> actions batch2 = actions batch ->
     _modality_check batch2 = Ok m2 ->
     outcome (fst (forward_eval batch2 self)) = outcome (fst (forward_eval batch self)) /\
     snd (forward_eval batch2 self) = snd (forward_eval batch self)).
Proof.
  intros Hc. split; [apply (forward_eval_checked _ _ _ Hc)|]. split.
  - intros batch' a self'. rewrite (forward_eval_checked _ _ _ Hc).
    unfold contains, bindM, lift, ret.
    destruct (obs batch !! "right_wrist_img") as [v|] eqn:Ev.
    + rewrite bool_decide_eq_true_2 by eauto. simpl.
      destruct (forward_eval_with _ _ _ _ _) as [[a0|e] s0] eqn:E; [|discriminate].
      intros H. injection H as <- <- <-.
      apply forward_eval_with_Ok in E as (d & Hd & ->).
      exists d. split; [reflexivity|]. split; [|congruence].
      intros _. repeat split; assumption || reflexivity.
    + rewrite bool_decide_eq_false_2 by (intros [? ?]; congruence). simpl.
      unfold slice_actions at 1.
      destruct (actions batch) as [acts|] eqn:Ea; simpl; [|discriminate].
      destruct (forward_eval_with _ _ _ _ _) as [[a0|e] s0] eqn:E; [|discriminate].
      intros H. injection H as <- <- <-.
      apply forward_eval_with_Ok in E as (d & Hd & ->).
      exists d. split; [reflexivity|]. split; [congruence|].
      intros _. split; [reflexivity|]. exists acts.
      repeat split; assumption || reflexivity.
  - intros batch2 m2 Ho Ha Hc2. eapply forward_eval_type_irrelevant; eassumption.
Qed.

End eval_facts.

(** ** The routing on concrete batches *)

Section routing_runs.
Import Tensor ACT ACTSP Examples.

Lemma mixed_type_0_1 : mixed_type [0; 1]%Z.
Proof.
  split; intros H.
  - apply Forall_cons in H as [_ H]. apply Forall_cons in H as [H _]. discriminate.
  - apply Forall_cons in H as [H _]. discriminate.
Qed.

Lemma uniform_type_0_0 : uniform_type 0 [0; 0]%Z.
Proof. split; [discriminate | repeat constructor]. Qed.

Lemma uniform_type_1_1 : uniform_type 1 [1; 1]%Z.
Proof. split; [discriminate | repeat constructor]. Qed.

(** A hand batch with actions of dimension 4: the training pass returns,
    with actions of dimension 3, after one call of the policy, for
    "hand", with one image. *)
Example hand_training_run :
  let r := ACTSP._forward_training (batch_hand [1; 1]%Z) algo in
  (p_actions ∘ snd <$> (match fst r with Ok x => Some x | Raise _ => None end))
    = Some actions_2_5_3 /\
  ((fun c => (modality_arg c, length (images c))) <$> policy_calls (snd r))
    = [(Some hand, 1%nat)].
Proof. split; vm_compute; reflexivity. Qed.

(** A robot batch: the training pass returns, with the actions as they
    are, after one call of the policy, for "robot", with two images. *)
Example robot_training_run :
  let r := ACTSP._forward_training (batch_robot [0; 0]%Z) algo in
  (p_actions ∘ snd <$> (match fst r with Ok x => Some x | Raise _ => None end))
    = Some actions_2_5_3 /\
  ((fun c => (modality_arg c, length (images c))) <$> policy_calls (snd r))
    = [(Some robot, 2%nat)].
Proof. split; vm_compute; reflexivity. Qed.

(** C3, as the claim states it, fails: the type tag does change what an
    evaluation pass does.  The two batches below have the same
    observations, with the camera key "right_wrist_img", and the same
    actions.  With the tag [0; 1] the pass raises at the modality check
    and the policy is not called; with the tag [0; 0] it returns, after
    one call of the policy for "robot". *)
Lemma C3_counterexample :
  contains (obs (batch_robot [0; 1]%Z)) "right_wrist_img" = true /\
  obs (batch_robot [0; 1]%Z) = obs (batch_robot [0; 0]%Z) /\
  actions (batch_robot [0; 1]%Z) = actions (batch_robot [0; 0]%Z) /\
  forward_eval (batch_robot [0; 1]%Z) algo = (Raise InconsistentModalityError, algo) /\
  is_Ok (fst (forward_eval (batch_robot [0; 0]%Z) algo)) = true /\
  (modality_arg <$> policy_calls (snd (forward_eval (batch_robot [0; 0]%Z) algo)))
    = [Some robot].
Proof. repeat split; vm_compute; reflexivity. Qed.

Lemma C3_eval_modality_is_probed_witness :
  _modality_check (batch_hand [0; 0]%Z) = Ok robot /\
  forall batch' a self',
    forward_eval (batch_hand [0; 0]%Z) algo = (Ok (batch', a), self') ->
    exists d,
      (policy_calls self' = policy_calls algo ++
         [ {| qpos := ad_qpos d; images := ad_images d; env_state := ad_env_state d;
              modality_arg := Some hand; actions_arg := None;
              is_pad_arg := Some (ad_is_pad d) |} ]).
Proof.
  assert (H : _modality_check (batch_hand [0; 0]%Z) = Ok robot) by reflexivity.
  split; [exact H|].
  intros batch' a self' Hrun.
  destruct (proj1 (proj2 (C3_eval_modality_is_probed algo _ _ H)) _ _ _ Hrun)
    as (d & Hcalls & _).
  exists d. exact Hcalls.
Defined.

Lemma C4_mixed_type_raises_witness :
  type_ (batch_robot [0; 1]%Z) = Some [0; 1]%Z /\ mixed_type [0; 1]%Z /\
  ACTSP._forward_training (batch_robot [0; 1]%Z) algo
    = (Raise InconsistentModalityError, algo).
Proof.
  assert (H1 : type_ (batch_robot [0; 1]%Z) = Some [0; 1]%Z) by reflexivity.
  pose proof mixed_type_0_1 as H2.
  exact (conj H1 (conj H2
    (proj1 (proj2 (C4_mixed_type_raises algo (batch_robot [0; 1]%Z) _ H1 H2))))).
Defined.

Lemma C5_uniform_1_routes_hand_witness :
  type_ (batch_hand [1; 1]%Z) = Some [1; 1]%Z /\ uniform_type 1 [1; 1]%Z /\
  _modality_check (batch_hand [1; 1]%Z) = Ok hand /\
  actions (batch_hand [1; 1]%Z)
  = Some [ [[1; 2; 3; 7]; [4; 5; 6; 7]; [7; 8; 9; 7]; [1; 0; 1; 7]; [0; 1; 0; 7]];
           [[3; 2; 1; 7]; [6; 5; 4; 7]; [9; 8; 7; 7]; [0; 1; 0; 7]; [1; 0; 1; 7]] ] /\
  exists batch' p self',
    ACTSP._forward_training (batch_hand [1; 1]%Z) algo = (Ok (batch', p), self') /\
    obs batch' = obs_hand /\
    actions batch'
    = Some [ [[1; 2; 3]; [4; 5; 6]; [7; 8; 9]; [1; 0; 1]; [0; 1; 0]];
             [[3; 2; 1]; [6; 5; 4]; [9; 8; 7]; [0; 1; 0]; [1; 0; 1]] ] /\
    p_actions p
    = [ [[1; 2; 3]; [4; 5; 6]; [7; 8; 9]; [1; 0; 1]; [0; 1; 0]];
        [[3; 2; 1]; [6; 5; 4]; [9; 8; 7]; [0; 1; 0]; [1; 0; 1]] ] /\
    ((fun c => (modality_arg c, actions_arg c, length (images c))) <$> policy_calls self')
    = [(Some hand,
        Some [ [[1; 2; 3]; [4; 5; 6]; [7; 8; 9]; [1; 0; 1]; [0; 1; 0]];
               [[3; 2; 1]; [6; 5; 4]; [9; 8; 7]; [0; 1; 0]; [1; 0; 1]] ],
        1%nat)].
Proof.
  assert (H1 : type_ (batch_hand [1; 1]%Z) = Some [1; 1]%Z) by reflexivity.
  pose proof uniform_type_1_1 as H2.
  destruct (C5_uniform_1_routes_hand algo (batch_hand [1; 1]%Z) _ H1 H2)
    as (Hc & _ & Hret & _ & Htrunc & _).
  split; [exact H1|]. split; [exact H2|]. split; [exact Hc|]. split; [reflexivity|].
  destruct (ACTSP._forward_training (batch_hand [1; 1]%Z) algo) as [[[batch' p]|e] self']
    eqn:Hrun.
  - destruct (Hret batch' p self' eq_refl)
      as (a & d & Ha & -> & Hp & _ & _ & Hd & Hi & Hcalls).
    injection Ha as <-.
    destruct (Htrunc _ eq_refl) as (_ & _ & Hcall).
    destruct (Hcall d Hd) as (Hda & _).
    exists (set_actions (map (map (take 3)) actions_2_5_4) (batch_hand [1; 1]%Z)), p, self'.
    split; [reflexivity|]. split; [reflexivity|]. split; [reflexivity|].
    split; [exact Hp|].
    rewrite Hcalls. cbn [policy_calls algo _create_networks app fmap list_fmap
                          modality_arg actions_arg images].
    rewrite Hi, Hda. reflexivity.
  - exfalso. pose proof hand_training_run as [Hok _]. cbv zeta in Hok.
    rewrite Hrun in Hok. discriminate Hok.
Defined.

Lemma C6_uniform_0_routes_robot_witness :
  type_ (batch_robot [0; 0]%Z) = Some [0; 0]%Z /\ uniform_type 0 [0; 0]%Z /\
  _modality_check (batch_robot [0; 0]%Z) = Ok robot.
Proof.
  assert (H1 : type_ (batch_robot [0; 0]%Z) = Some [0; 0]%Z) by reflexivity.
  pose proof uniform_type_0_0 as H2.
  exact (conj H1 (conj H2
    (proj1 (C6_uniform_0_routes_robot algo (batch_robot [0; 0]%Z) _ H1 H2)))).
Defined.

End routing_runs.

(** ** Tensors *)


Section tensor_facts.
Import Tensor.

Lemma mapM_total {A B} (g : A -> B) (l : list A) :
  mapM (fun x => Some (g x)) l = Some (map g l).
Proof. apply mapM_Some. induction l; constructor; auto. Qed.

Lemma mapM_replicate {A B} (f : A -> option B) n x y :
  f x = Some y -> mapM f (replicate n x) = Some (replicate n y).
Proof.
  intros H. apply mapM_Some. induction n; simpl; constructor; auto.
Qed.

Lemma map_replicate {A B} (f : A -> B) n x :
  map f (replicate n x) = replicate n (f x).
Proof. induction n; simpl; congruence. Qed.

Lemma broadcast_same_length {A B C} (f : A -> B -> option C) xs ys :
  length xs = length ys ->
  broadcast f xs ys = mapM (fun p => f (fst p) (snd p)) (zip xs ys).
Proof. intros H. unfold broadcast. rewrite H, Nat.eqb_refl. reflexivity. Qed.

Lemma broadcast_replicate {A B C} (f : A -> B -> option C) n a b c :
  f a b = Some c ->
  broadcast f (replicate n a) (replicate n b) = Some (replicate n c).
Proof.
  intros H. rewrite broadcast_same_length by (rewrite !length_replicate; reflexivity).
  rewrite zip_with_replicate. apply mapM_replicate. exact H.
Qed.

(** An operation applied to a tensor and itself. *)
Lemma broadcast_diag {A C} (f : A -> A -> option C) (g : A -> C) xs :
  (forall x, x ∈ xs -> f x x = Some (g x)) ->
  broadcast f xs xs = Some (map g xs).
Proof.
  intros H. rewrite broadcast_same_length by reflexivity.
  apply mapM_Some. induction xs as [|x xs IH]; simpl; constructor.
  - apply H. left.
  - apply IH. intros y Hy. apply H. right. exact Hy.
Qed.

(** What holds of every entry of one operand and is kept by the
    operation holds of every entry of the result. *)
Lemma broadcast_Forall {A B C} (f : A -> B -> option C)
    (P : A -> Prop) (Q : C -> Prop) xs ys zs :
  (forall x y z, P x -> f x y = Some z -> Q z) ->
  Forall P xs -> broadcast f xs ys = Some zs -> Forall Q zs.
Proof.
  intros Hf HP. unfold broadcast.
  assert (Hzip : forall l, Forall (fun p => P (fst p)) l -> forall zs',
            mapM (fun p => f (fst p) (snd p)) l = Some zs' -> Forall Q zs').
  { intros l Hl zs' Hm. apply mapM_Some in Hm.
    induction Hm as [|p z l zs' Hpz _ IH]; [constructor|].
    apply Forall_cons in Hl as [Hp Hl]. constructor; [eapply Hf; eassumption|].
    apply IH, Hl. }
  assert (Hl : forall x, P x -> forall zs', mapM (f x) ys = Some zs' -> Forall Q zs').
  { intros x Hx zs' Hm. apply mapM_Some in Hm.
    induction Hm; constructor; eauto. }
  assert (Hr : forall y l, Forall P l -> forall zs',
            mapM (fun x => f x y) l = Some zs' -> Forall Q zs').
  { intros y l Hl' zs' Hm. apply mapM_Some in Hm.
    induction Hm as [|x z l zs' Hz _ IH]; [constructor|].
    apply Forall_cons in Hl' as [Hx Hl']. constructor; eauto. }
  destruct (Nat.eqb (length xs) (length ys)).
  - apply Hzip. apply Forall_forall. intros [x y] Hxy.
    apply elem_of_zip_l in Hxy. rewrite Forall_forall in HP. apply HP, Hxy.
  - destruct xs as [|x [|x' xs]]; destruct ys as [|y [|y' ys]];
      first [ discriminate
            | apply Hl; apply Forall_cons in HP as [Hx _]; exact Hx
            | apply Hr; exact HP ].
Qed.

(** The operation goes through when the first axes agree and it goes
    through on every pair of entries. *)
Lemma broadcast_is_Some {A B C} (f : A -> B -> option C) xs ys :
  Forall2 (fun x y => is_Some (f x y)) xs ys -> is_Some (broadcast f xs ys).
Proof.
  intros H. rewrite broadcast_same_length by (eapply Forall2_length, H).
  apply mapM_is_Some. induction H; simpl; constructor; auto.
Qed.

(** Against a single entry the operation always goes through. *)
Lemma broadcast1_singleton {A B C} (f : A -> B -> C) xs y :
  is_Some (broadcast1 f xs [y]).
Proof.
  unfold broadcast1, broadcast.
  destruct (Nat.eqb (length xs) (length [y])); [rewrite (mapM_total (fun p => f (fst p) (snd p))); eauto|].
  destruct xs as [|x [|x' xs]]; rewrite mapM_total; eauto.
Qed.

Lemma Rsum_zero l : Forall (fun x => x = 0) l -> Rsum l = 0.
Proof.
  induction 1 as [|x l Hx _ IH]; simpl; [reflexivity|]. rewrite Hx, IH. lra.
Qed.

Lemma mean_zero l : Forall (fun x => x = 0) l -> mean l = 0.
Proof. intros H. unfold mean. rewrite (Rsum_zero _ H). unfold Rdiv. lra. Qed.

Lemma flatten3_Forall {A} (P : A -> Prop) (t : list (list (list A))) :
  Forall (Forall (Forall P)) t -> Forall P (flatten3 t).
Proof.
  intros H. unfold flatten3. apply Forall_concat, Forall_concat. exact H.
Qed.

End tensor_facts.

(** ** The batch adapter *)

Section adapter_facts.
Import Tensor ACT ACTSP.
Context {Img : Type}.
Implicit Types (self : @Self Img) (batch : @Batch Img) (o : gmap string (@ObsValue Img)).

Lemma cat_axis1_Some {A} (ts : list (list (list A))) n :
  ts <> [] -> Forall (fun t => length t = n) ts ->
  exists q, cat_axis1 ts = Some q /\ length q = n.
Proof.
  intros Hne H. induction H as [|t ts Ht Hts IH]; [contradiction|].
  destruct ts as [|t' ts]; [exists t; split; [reflexivity|exact Ht]|].
  destruct IH as (q & Hq & Hlen); [discriminate|].
  change (cat_axis1 (t :: t' :: ts)) with
    (match cat_axis1 (t' :: ts) with
     | Some r => if Nat.eqb (length t) (length r) then Some (zip_with app t r) else None
     | None => None
     end).
  rewrite Hq, Ht, Hlen, Nat.eqb_refl. eexists. split; [reflexivity|].
  rewrite length_zip_with. lia.
Qed.

Lemma proprio_Some o proprio_keys B :
  proprio_keys <> [] ->
  Forall (fun k => exists t, o !! k = Some (LowDim t) /\ length t = B) proprio_keys ->
  exists q,
    (let? proprio := for_each (getitem o) proprio_keys in
     let? proprio := for_each as_low_dim proprio in
     of_option RuntimeError (cat_axis1 proprio)) = Ok q /\ length q = B.
Proof.
  intros Hne H.
  assert (Hts : exists ts,
    (let? proprio := for_each (getitem o) proprio_keys in for_each as_low_dim proprio)
      = Ok ts /\
    length ts = length proprio_keys /\ Forall (fun t => length t = B) ts).
  { clear Hne. induction H as [|k ks (t & Hk & Ht) _ (ts & Hts & Hlen & Hall)].
    - exists []. repeat split; constructor.
    - exists (t :: ts). simpl. unfold getitem at 1. rewrite Hk. simpl.
      destruct (for_each (getitem o) ks) as [vs|]; simpl in *; [|discriminate].
      rewrite Hts. simpl. repeat split; [congruence|constructor; assumption]. }
  destruct Hts as (ts & Hts & Hlen & Hall).
  destruct (cat_axis1_Some ts B) as (q & Hq & HqB); [|exact Hall|].
  { intros ->. destruct proprio_keys; [contradiction|discriminate]. }
  exists q. split; [|exact HqB].
  destruct (for_each (getitem o) proprio_keys) as [vs|]; simpl in *; [|discriminate].
  rewrite Hts. simpl. rewrite Hq. reflexivity.
Qed.

Lemma images_Some o cam_keys (g : Img -> Img) :
  Forall (fun k => exists image, o !! k = Some (Rgb image)) cam_keys ->
  exists ims,
    for_each (fun cam_name =>
      let? image := getitem o cam_name in
      let? image := as_rgb image in
      Ok (g image)) cam_keys = Ok ims /\
    length ims = length cam_keys.
Proof.
  induction 1 as [|k ks (image & Hk) _ (ims & Hims & Hlen)].
  - exists []. split; reflexivity.
  - exists (g image :: ims). simpl. unfold getitem at 1. rewrite Hk. simpl.
    rewrite Hims. simpl. split; congruence.
Qed.

Lemma robomimic_to_act_data_is_Ok self batch cam_keys proprio_keys acts B T :
  has_keys B (obs batch) cam_keys proprio_keys ->
  actions batch = Some acts ->
  obs batch !! "pad_mask" = Some (PadMask (replicate B (replicate T 1%Z))) ->
  chunk_size self = Z.of_nat T ->
  is_Ok (_robomimic_to_act_data self batch cam_keys proprio_keys) = true.
Proof.
  intros (Hpne & Hp & Hcne & Hc) Ha Hm Hchunk. unfold _robomimic_to_act_data.
  destruct (proprio_Some _ _ _ Hpne Hp) as (q & Hq & _).
  destruct (for_each (getitem (obs batch)) proprio_keys) as [vs|]; simpl in *;
    [|discriminate].
  destruct (for_each as_low_dim vs) as [ts|]; simpl in *; [|discriminate].
  destruct (cat_axis1 ts); simpl in *; [|discriminate].
  destruct (images_Some _ _ (fun image => normalize self (color_jitter self image)) Hc)
    as (ims & Hims & Hlen).
  rewrite Hims. simpl.
  destruct ims as [|im ims]; [destruct cam_keys; [contradiction|discriminate]|].
  simpl.
  rewrite Ha. simpl. unfold getitem. rewrite Hm. simpl.
  rewrite !map_replicate, Hchunk.
  replace (forallb _ _) with true; [reflexivity|].
  symmetry. apply forallb_forall. intros row Hrow.
  apply list_elem_of_In, elem_of_replicate in Hrow as [-> _].
  rewrite length_replicate. apply Z.eqb_refl.
Qed.

Lemma get_action_inputs_is_Ok self o B :
  has_keys B o (camera_keys self) (proprio_keys self) ->
  is_Ok (get_action_inputs self o) = true.
Proof.
  intros (Hpne & Hp & Hcne & Hc). unfold get_action_inputs.
  destruct (proprio_Some _ _ _ Hpne Hp) as (q & Hq & _).
  destruct (for_each (getitem o) (proprio_keys self)) as [vs|]; simpl in *;
    [|discriminate].
  destruct (for_each as_low_dim vs) as [ts|]; simpl in *; [|discriminate].
  destruct (cat_axis1 ts); simpl in *; [|discriminate].
  destruct (images_Some _ _ (normalize self) Hc) as (ims & Hims & Hlen).
  rewrite Hims. simpl.
  destruct ims as [|im ims]; [|reflexivity].
  destruct (camera_keys self); [contradiction|discriminate].
Qed.

End adapter_facts.

(** ** Losses *)

Section loss_facts.
Import Tensor ACT.

Lemma view2_zero B D l : zero_latent B D l -> view2 l = Ok (zeros B D).
Proof.
  intros [-> | ->]; simpl; [reflexivity|].
  erewrite mapM_replicate; [reflexivity|].
  apply mapM_replicate. reflexivity.
Qed.

Lemma size0_zero B D l : zero_latent B D l -> size0 l = B.
Proof. intros [-> | ->]; simpl; apply length_replicate. Qed.

(** The closed form at mu = 0, logvar = 0. *)
Lemma kl_term_zero : -0.5 * (1 + 0 - 0 ^ 2 - exp 0) = 0.
Proof. rewrite exp_0. simpl. lra. Qed.

Lemma kl_divergence_zero B D mu logvar :
  B <> 0%nat -> zero_latent B D mu -> zero_latent B D logvar ->
  exists dimension_wise_kld mean_kld,
    kl_divergence mu logvar = Ok ([0], dimension_wise_kld, mean_kld).
Proof.
  intros HB Hmu Hlv. unfold kl_divergence.
  rewrite (size0_zero _ _ _ Hmu), (view2_zero _ _ _ Hmu), (view2_zero _ _ _ Hlv).
  destruct (Nat.eqb_spec B 0) as [|_]; [contradiction|]. simpl.
  unfold broadcast2, zeros.
  erewrite broadcast_replicate;
    [|apply broadcast_replicate; exact (f_equal Some kl_term_zero)].
  simpl. do 2 eexists. do 2 f_equal. f_equal. f_equal.
  apply mean_zero. apply Forall_map, Forall_replicate.
  apply Rsum_zero, Forall_replicate. reflexivity.
Qed.

Lemma masked_l1_exact (acts : list (list (list R))) (is_pad : list (list bool)) :
  Forall2 (fun trajectory row => length trajectory = length row) acts is_pad ->
  masked_l1 acts acts is_pad = Ok 0.
Proof.
  intros Hshape. unfold masked_l1, broadcast3, broadcast2.
  rewrite (broadcast_diag _ (map (map (fun a => Rabs (a - a))))).
  2:{ intros trajectory _. apply broadcast_diag. intros v _.
      unfold broadcast1. apply broadcast_diag. reflexivity. }
  simpl.
  set (all_l1 := map _ acts). set (not_pad := map _ is_pad).
  assert (Hzero : Forall (Forall (Forall (fun x => x = 0))) all_l1).
  { apply Forall_map, Forall_forall. intros trajectory _.
    apply Forall_map, Forall_forall. intros v _.
    apply Forall_map, Forall_forall. intros a _. simpl.
    rewrite Rminus_diag. apply Rabs_R0. }
  assert (Hsome : is_Some (broadcast (broadcast (broadcast1
            (fun l (keep : bool) => l * (if keep then 1 else 0)))) all_l1 not_pad)).
  { apply broadcast_is_Some. subst all_l1 not_pad.
    clear Hzero.
    induction Hshape as [|trajectory row acts' is_pad' Hlen _ IH]; simpl;
      [constructor|constructor; [|exact IH]].
    apply broadcast_is_Some. clear -Hlen.
    revert row Hlen. induction trajectory as [|v trajectory IH];
      intros [|p row] Hlen; simpl in *; try discriminate; constructor.
    - apply broadcast1_singleton.
    - apply IH. lia. }
  destruct Hsome as [masked Hmasked]. rewrite Hmasked. simpl. f_equal.
  apply mean_zero, flatten3_Forall.
  revert Hmasked. apply broadcast_Forall with (P := Forall (Forall (fun x => x = 0)));
    [|exact Hzero].
  intros trajectory row z Htraj. apply broadcast_Forall with (P := Forall (fun x => x = 0));
    [|exact Htraj].
  intros v m z' Hv. unfold broadcast1.
  apply broadcast_Forall with (P := fun x => x = 0); [|exact Hv].
  intros x keep y -> Hy. injection Hy as <-. lra.
Qed.

End loss_facts.

(** ** The training step *)

Section training_step_facts.
Import Tensor ACT ACTSP.
Context {Img : Type}.
Implicit Types (self : @Self Img) (batch : @Batch Img).



Lemma adapted_no_padding self batch cam_keys proprio_keys d acts B T :
  _robomimic_to_act_data self batch cam_keys proprio_keys = Ok d ->
  actions batch = Some acts ->
  obs batch !! "pad_mask" = Some (PadMask (replicate B (replicate T 1%Z))) ->
  ad_actions d = acts /\ ad_is_pad d = replicate B (replicate T false).
Proof.
  intros Hd Ha Hm.
  destruct (robomimic_to_act_data_Ok _ _ _ _ _ Hd) as (Ha' & _ & pm & Hpm & Hpad & _).
  split; [congruence|].
  rewrite Hpad. rewrite Hm in Hpm. injection Hpm as <-.
  rewrite !map_replicate. reflexivity.
Qed.

Lemma shape3_rows B T D acts :
  shape3 B T D acts ->
  Forall2 (fun trajectory (row : list bool) => length trajectory = length row)
    acts (replicate B (replicate T false)).
Proof.
  intros [<- H]. induction H as [|trajectory acts [Hlen _] _ IH]; simpl; constructor.
  - rewrite length_replicate. exact Hlen.
  - exact IH.
Qed.

(** The run of a training pass on such a batch, for the two classes. *)
Ltac zero_training_pass Hok Ha Hm Hpol HB Hshape :=
  unfold bindM, get_self, lift, call_policy, ret;
  match type of Hok with
  | is_Ok ?r = true =>
      let d := fresh "d" in
      let Hd := fresh "Hd" in
      destruct r as [d|] eqn:Hd; [|discriminate];
      let Hda := fresh "Hda" in
      let Hdp := fresh "Hdp" in
      destruct (adapted_no_padding _ _ _ _ _ _ _ _ Hd Ha Hm) as [Hda Hdp];
      match goal with
      | |- context [nets_policy _ ?inp] =>
          let Hhat := fresh "Hhat" in
          let Hmu := fresh "Hmu" in
          let Hlv := fresh "Hlv" in
          let Hzm := fresh "Hzm" in
          let Hzl := fresh "Hzl" in
          destruct (Hpol inp) as (Hhat & ? & ? & Hmu & Hlv & Hzm & Hzl);
            [simpl; congruence|];
          rewrite Hmu, Hlv; simpl;
          destruct (kl_divergence_zero _ _ _ _ HB Hzm Hzl) as (? & ? & ->); simpl;
          rewrite Hhat, Hda, Hdp, (masked_l1_exact _ _ (shape3_rows _ _ _ _ Hshape));
          simpl; eexists; split; reflexivity
      end
  end.

Lemma forward_training_with_zero modality cam_keys proprio_keys self batch acts B T D L :
  B <> 0%nat ->
  actions batch = Some acts -> shape3 B T D acts ->
  obs batch !! "pad_mask" = Some (PadMask (replicate B (replicate T 1%Z))) ->
  has_keys B (obs batch) cam_keys proprio_keys ->
  chunk_size self = Z.of_nat T ->
  reproduces self acts B L ->
  exists self',
    _forward_training_with modality cam_keys proprio_keys batch self =
      (Ok {| p_actions := acts; p_kl_loss := 0; p_reconstruction_loss := 0 |}, self') /\
    kl_weight self' = kl_weight self.
Proof.
  intros HB Ha Hshape Hm Hkeys Hchunk Hpol.
  pose proof (robomimic_to_act_data_is_Ok _ _ _ _ _ _ _ Hkeys Ha Hm Hchunk) as Hok.
  unfold _forward_training_with.
  zero_training_pass Hok Ha Hm Hpol HB Hshape.
Qed.

Lemma forward_training_zero self batch acts B T D L :
  B <> 0%nat ->
  actions batch = Some acts -> shape3 B T D acts ->
  obs batch !! "pad_mask" = Some (PadMask (replicate B (replicate T 1%Z))) ->
  has_keys B (obs batch) (camera_keys self) (proprio_keys self) ->
  chunk_size self = Z.of_nat T ->
  reproduces self acts B L ->
  exists self',
    ACT._forward_training batch self =
      (Ok {| p_actions := acts; p_kl_loss := 0; p_reconstruction_loss := 0 |}, self') /\
    kl_weight self' = kl_weight self.
Proof.
  intros HB Ha Hshape Hm Hkeys Hchunk Hpol.
  pose proof (robomimic_to_act_data_is_Ok _ _ _ _ _ _ _ Hkeys Ha Hm Hchunk) as Hok.
  unfold ACT._forward_training.
  zero_training_pass Hok Ha Hm Hpol HB Hshape.
Qed.

(** C8: on a batch of 2 samples with chunk length 5 and action dimension
    3, all of type 0, without padded timestep, whose keys are those the
    object reads, and with a policy that returns the ground truth actions
    and a zero mu and logvar, the training pass of ACT returns, with
    reconstruction loss 0 and KL loss 0, and [_compute_losses] makes of
    them the action loss 0 (reconstruction loss + KL weight x KL loss).
    The training pass of ACTSP, which goes the robot way on this batch,
    does the same. *)
Theorem C8_training_step_zero_losses self batch acts L :
  chunk_size self = 5%Z ->
  type_ batch = Some [0; 0]%Z ->
  actions batch = Some acts ->
  shape3 2 5 3 acts ->
  obs batch !! "pad_mask" = Some (PadMask (replicate 2 (replicate 5 1%Z))) ->
  has_keys 2 (obs batch) (camera_keys self) (proprio_keys self) ->
  reproduces self acts 2 L ->
  exists p self' self'',
    ACT._forward_training batch self = (Ok p, self') /\
    ACTSP._forward_training batch self = (Ok (batch, p), self'') /\
    p_actions p = acts /\
    p_reconstruction_loss p = 0 /\
    p_kl_loss p = 0 /\
    recons_loss (_compute_losses self' p batch) = 0 /\
    kl_loss (_compute_losses self' p batch) = 0 /\
    action_loss (_compute_losses self' p batch) = 0 /\
    action_loss (_compute_losses self' p batch) =
      p_reconstruction_loss p + kl_weight self * p_kl_loss p /\
    _compute_losses self'' p batch = _compute_losses self' p batch.
Proof.
  intros Hchunk Ht Ha Hshape Hm Hkeys Hpol.
  assert (HB : 2%nat <> 0%nat) by discriminate.
  destruct (forward_training_zero self batch acts 2 5 3 L HB Ha Hshape Hm Hkeys Hchunk Hpol)
    as (self' & Hrun & Hw).
  destruct (forward_training_with_zero robot _ _ self batch acts 2 5 3 L
              HB Ha Hshape Hm Hkeys Hchunk Hpol) as (self'' & Hrun' & Hw').
  eexists _, self', self''. split; [exact Hrun|]. split.
  - rewrite (forward_training_robot batch self).
    + unfold bindM. rewrite Hrun'. reflexivity.
    + eapply modality_check_all_0; [exact Ht|]. repeat constructor.
  - unfold _compute_losses. simpl. rewrite Hw, Hw'.
    repeat split; try reflexivity; lra.
Qed.

End training_step_facts.

(** ** The training step on a concrete batch *)

Section training_step_runs.
Import Tensor ACT ACTSP Examples.

Lemma shape3_actions_2_5_3 : shape3 2 5 3 actions_2_5_3.
Proof. split; [reflexivity|]. repeat constructor. Qed.

Lemma has_keys_robot :
  has_keys 2 obs_robot ["front_img_1"; "right_wrist_img"] ["joint_positions"].
Proof.
  split; [discriminate|]. split; [|split; [discriminate|]].
  - repeat constructor. exists [[0; 0]; [0; 0]]. split; reflexivity.
  - repeat constructor; exists tt; reflexivity.
Qed.

Lemma reproduces_policy : reproduces algo actions_2_5_3 2 4.
Proof.
  intros inp H. simpl. unfold policy. rewrite H. split; [reflexivity|].
  eexists _, _. repeat split; left; reflexivity.
Qed.

Lemma C8_training_step_zero_losses_witness :
  chunk_size algo = 5%Z /\
  type_ (batch_robot [0; 0]%Z) = Some [0; 0]%Z /\
  actions (batch_robot [0; 0]%Z) = Some actions_2_5_3 /\
  shape3 2 5 3 actions_2_5_3 /\
  obs (batch_robot [0; 0]%Z) !! "pad_mask"
    = Some (PadMask (replicate 2 (replicate 5 1%Z))) /\
  has_keys 2 (obs (batch_robot [0; 0]%Z)) (camera_keys algo) (proprio_keys algo) /\
  reproduces algo actions_2_5_3 2 4 /\
  exists p self' self'',
    ACT._forward_training (batch_robot [0; 0]%Z) algo = (Ok p, self') /\
    ACTSP._forward_training (batch_robot [0; 0]%Z) algo
      = (Ok (batch_robot [0; 0]%Z, p), self'') /\
    p_reconstruction_loss p = 0 /\
    p_kl_loss p = 0 /\
    action_loss (_compute_losses self' p (batch_robot [0; 0]%Z)) = 0.
Proof.
  assert (H1 : chunk_size algo = 5%Z) by reflexivity.
  assert (H2 : type_ (batch_robot [0; 0]%Z) = Some [0; 0]%Z) by reflexivity.
  assert (H3 : actions (batch_robot [0; 0]%Z) = Some actions_2_5_3) by reflexivity.
  pose proof shape3_actions_2_5_3 as H4.
  assert (H5 : obs (batch_robot [0; 0]%Z) !! "pad_mask"
               = Some (PadMask (replicate 2 (replicate 5 1%Z)))) by reflexivity.
  pose proof has_keys_robot as H6.
  pose proof reproduces_policy as H7.
  repeat (split; [assumption|]).
  destruct (C8_training_step_zero_losses algo (batch_robot [0; 0]%Z) actions_2_5_3 4
              H1 H2 H3 H4 H5 H6 H7)
    as (p & self' & self'' & Hrun & Hrun' & _ & Hr & Hk & _ & _ & Ha & _).
  exists p, self', self''. repeat split; assumption.
Defined.

End training_step_runs.

(** ** The KL divergence of a standard normal latent *)

Section kl_facts.
Import Tensor ACT.

(** C7, as the claim states it, fails at batch size 0: mu and logvar
    with no row are identically zero, and [kl_divergence] raises
    AssertionError on them. *)
Lemma C7_counterexample :
  zero_latent 0 4 (Latent2 []) /\
  kl_divergence (Latent2 []) (Latent2 []) = Raise AssertionError.
Proof. split; [left|]; reflexivity. Qed.

(** C7, amended: for mu and logvar identically zero, of any batch size
    other than 0 and any latent dimension (0 too), of rank 2 or of rank
    4, [kl_divergence] returns, and the batch-mean total (the per-sample
    sums over the dimensions, averaged over the batch) is exactly 0, as
    is the entry [total_kld[0]] that the training pass reads. *)
Theorem C7_kl_standard_normal_is_zero (B D : nat) (mu logvar : Latent) :
  B <> 0%nat ->
  zero_latent B D mu ->
  zero_latent B D logvar ->
  exists total_kld dimension_wise_kld mean_kld,
    kl_divergence mu logvar = Ok (total_kld, dimension_wise_kld, mean_kld) /\
    total_kld = [0] /\
    index total_kld 0 = Ok 0.
Proof.
  intros HB Hmu Hlv.
  destruct (kl_divergence_zero B D mu logvar HB Hmu Hlv) as (dw & mk & H).
  exists [0], dw, mk. repeat split; assumption || reflexivity.
Qed.

Lemma C7_kl_standard_normal_is_zero_witness :
  3%nat <> 0%nat /\
  zero_latent 3 2 (Latent2 [[0; 0]; [0; 0]; [0; 0]]) /\
  zero_latent 3 2 (Latent4 [[[[0]]; [[0]]]; [[[0]]; [[0]]]; [[[0]]; [[0]]]]) /\
  exists total_kld dimension_wise_kld mean_kld,
    kl_divergence (Latent2 [[0; 0]; [0; 0]; [0; 0]])
                  (Latent4 [[[[0]]; [[0]]]; [[[0]]; [[0]]]; [[[0]]; [[0]]]])
      = Ok (total_kld, dimension_wise_kld, mean_kld) /\
    total_kld = [0] /\
    index total_kld 0 = Ok 0.
Proof.
  assert (H1 : 3%nat <> 0%nat) by discriminate.
  assert (H2 : zero_latent 3 2 (Latent2 [[0; 0]; [0; 0]; [0; 0]]))
    by (left; reflexivity).
  assert (H3 : zero_latent 3 2 (Latent4 [[[[0]]; [[0]]]; [[[0]]; [[0]]]; [[[0]]; [[0]]]]))
    by (right; reflexivity).
  exact (conj H1 (conj H2 (conj H3
    (C7_kl_standard_normal_is_zero 3 2 _ _ H1 H2 H3)))).
Defined.

End kl_facts.

(** ** val_utils: the metric accumulator *)

Section add_metrics_facts.
Import Tensor val_utils.

Ltac list_eq tac :=
  repeat match goal with
         | |- _ :: _ = _ :: _ => apply (f_equal2 cons)
         | |- [] = [] => reflexivity
         | |- @eq R _ _ => tac
         end.

(** [l[-1]] is the last entry. *)
Lemma index_last {A} (l : list A) x : index (l ++ [x]) (-1) = Ok x.
Proof.
  unfold index. change (-1 <? 0)%Z with true. cbv iota.
  rewrite length_app. simpl length.
  replace (Z.of_nat (length l + 1) + -1)%Z with (Z.of_nat (length l)) by lia.
  destruct (Z.ltb_spec (Z.of_nat (length l)) 0); [lia|].
  rewrite Nat2Z.id, list_lookup_middle by reflexivity. reflexivity.
Qed.

(** Without a step, [pred_values[-1]] raises and nothing is appended. *)
Example add_metrics_no_step metrics :
  add_metrics metrics [] [] = Raise IndexError.
Proof. reflexivity. Qed.

(** C9: with a ground truth of 10 steps [0, 0, 0] and predictions of 10
    steps [1, 0, 0], [add_metrics] appends the vector [10000, 0, 0] to
    "paired_mse" (the errors times 100, squared, averaged over the 10
    steps) and the same vector to "final_mse" (the error of the last
    step times 100, squared). *)
Theorem C9_add_metrics_offset (metrics : Metrics) :
  add_metrics metrics (replicate 10 [0; 0; 0]) (replicate 10 [1; 0; 0]) =
  Ok {| paired_mse := paired_mse metrics ++ [[10000; 0; 0]];
        final_mse := final_mse metrics ++ [[10000; 0; 0]] |}.
Proof.
  unfold add_metrics.
  change (replicate 10 [1; 0; 0]) with (replicate 9 [1; 0; 0] ++ [[1; 0; 0]]) at 2.
  change (replicate 10 [0; 0; 0]) with (replicate 9 [0; 0; 0] ++ [[0; 0; 0]]) at 2.
  rewrite !index_last.
  cbn -[Rminus Rmult Rplus Rdiv INR].
  unfold square. f_equal. f_equal; f_equal; list_eq ltac:(simpl; lra).
Qed.

End add_metrics_facts.

(** ** ACT: the chunked inference cache *)

Section get_action_facts.
Import Tensor ACT.
Context {Img : Type}.
Implicit Types (self : @Self Img) (o : gmap string (@ObsValue Img)).

Lemma reset_state self :
  reset self = (Ok tt, with_state self 0 (a_hat_store self) (policy_calls self)).
Proof. reflexivity. Qed.

(** One call of [get_action], in evaluation mode, with a query frequency
    other than 0 and an observation that holds the keys: the policy is
    called when and only when the step counter is a multiple of the query
    frequency, and its chunk is stored; the action is the timestep of
    the stored chunk at the counter modulo the frequency, and the
    counter moves by one. *)
Lemma get_action_step self c store calls o inp :
  nets_training self = false ->
  query_frequency self <> 0%Z ->
  get_action_inputs self o = Ok inp ->
  let r := (c mod query_frequency self)%Z in
  let store' := if (r =? 0)%Z then Some (a_hat (nets_policy self inp)) else store in
  let calls' := if (r =? 0)%Z then calls ++ [inp] else calls in
  get_action o (with_state self c store calls) =
  match store' with
  | None => (Raise TypeError, with_state self c store' calls')
  | Some chunk =>
      match timestep chunk r with
      | Ok action => (Ok action, with_state self (c + 1) store' calls')
      | Raise e => (Raise e, with_state self c store' calls')
      end
  end.
Proof.
  intros Htr Hq Hinp. simpl.
  unfold get_action, bindM, get_self, lift, ret, modify, call_policy.
  cbn [nets_training with_state]. rewrite Htr. cbn [negb assert].
  change (get_action_inputs (with_state self c store calls) o)
    with (get_action_inputs self o).
  rewrite Hinp. cbn [_step_counter query_frequency with_state].
  unfold mod_. apply Z.eqb_neq in Hq. rewrite Hq.
  destruct (c mod query_frequency self =? 0)%Z.
  - cbn. rewrite Hq. cbn. destruct (timestep _ _); reflexivity.
  - cbn. rewrite Hq. cbn. destruct store as [chunk|]; cbn; [|reflexivity].
    destruct (timestep _ _); reflexivity.
Qed.

Lemma rollout_snoc observations o self :
  rollout (observations ++ [o]) self =
  (let* acts := rollout observations in
   let* a := get_action o in
   ret (acts ++ [a])) self.
Proof.
  revert self. induction observations as [|o' observations IH]; intros self.
  - cbn. unfold bindM, ret. destruct (get_action o self) as [[a|e] s]; reflexivity.
  - cbn [app rollout]. unfold bindM, ret in *.
    destruct (get_action o' self) as [[a|e] s]; [|reflexivity].
    rewrite IH.
    destruct (rollout observations s) as [[acts|e] s']; [|reflexivity].
    destruct (get_action o s') as [[a'|e] s'']; reflexivity.
Qed.

Lemma invoked_from_snoc {X} q i (l : list X) x :
  invoked_from q i (l ++ [x]) =
  invoked_from q i l ++ (if ((i + length l) mod q =? 0)%nat then [x] else []).
Proof.
  revert i. induction l as [|y l IH]; intros i; simpl.
  - rewrite Nat.add_0_r, app_nil_r. reflexivity.
  - rewrite IH, <- app_assoc, Nat.add_succ_r. reflexivity.
Qed.

(** The calls of the policy are those of the calls number 0, q, 2q, ...:
    the k-th is that of call number k * q. *)
Lemma invoked_from_lookup {X} (q : nat) (inps : list X) (i k : nat) :
  (0 < q)%nat ->
  invoked_from q i inps !! k = inps !! ((q - i mod q) mod q + k * q)%nat.
Proof.
  intros Hq. revert i k. induction inps as [|inp rest IH]; intros i k; [reflexivity|].
  cbn [invoked_from].
  pose proof (Nat.mod_upper_bound i q ltac:(lia)) as Hi.
  pose proof (Nat.mod_upper_bound (S i) q ltac:(lia)) as HSi.
  assert (HS : (S i mod q = if (S (i mod q) =? q)%nat then 0 else S (i mod q))%nat).
  { pose proof (Nat.div_mod i q ltac:(lia)) as Hdm.
    destruct (Nat.eqb_spec (S (i mod q)) q) as [E|E].
    - symmetry. apply (Nat.mod_unique (S i) q (S (i / q))); lia.
    - symmetry. apply (Nat.mod_unique (S i) q (i / q)); lia. }
  assert (Hd : forall r, (r < q)%nat -> ((q - r) mod q = if (r =? 0)%nat then 0 else q - r)%nat).
  { intros r Hr. destruct (Nat.eqb_spec r 0) as [->|Hr0].
    - rewrite Nat.sub_0_r. apply Nat.Div0.mod_same.
    - apply Nat.mod_small. lia. }
  rewrite (Hd _ Hi).
  destruct (Nat.eqb_spec (i mod q) 0) as [E0|E0]; cbn [app].
  - destruct k as [|k]; [reflexivity|].
    replace (0 + S k * q)%nat with (S (q - 1 + k * q)) by lia.
    cbn [lookup list_lookup]. rewrite IH, (Hd _ HSi), HS, E0.
    destruct (Nat.eqb_spec 1 q) as [E1|E1].
    + subst q. reflexivity.
    + replace (1 =? 0)%nat with false by reflexivity. reflexivity.
  - replace (q - i mod q + k * q)%nat with (S (q - S (i mod q) + k * q)) by lia.
    cbn [lookup list_lookup]. rewrite IH, (Hd _ HSi), HS.
    destruct (Nat.eqb_spec (S (i mod q)) q) as [E1|E1].
    + rewrite E1, Nat.sub_diag. reflexivity.
    + replace (S (i mod q) =? 0)%nat with false by reflexivity. reflexivity.
Qed.

Lemma invoked_lookup {X} (q : nat) (inps : list X) (k : nat) :
  (0 < q)%nat -> invoked q inps !! k = inps !! (k * q)%nat.
Proof.
  intros Hq. unfold invoked. rewrite (invoked_from_lookup q inps 0 k Hq).
  rewrite Nat.Div0.mod_0_l, Nat.sub_0_r, Nat.Div0.mod_same. reflexivity.
Qed.

Lemma index_nat {A} (l : list A) (r : nat) x :
  l !! r = Some x -> index l (Z.of_nat r) = Ok x.
Proof.
  intros H. unfold index.
  destruct (Z.ltb_spec (Z.of_nat r) 0); [lia|].
  destruct (Z.ltb_spec (Z.of_nat r) 0); [lia|].
  rewrite Nat2Z.id, H. reflexivity.
Qed.

(** A chunk with at least [q] timesteps has a timestep at every index
    below [q]. *)
Lemma timestep_is_Ok chunk (q r : nat) :
  (r < q)%nat -> Forall (fun trajectory => (q <= length trajectory)%nat) chunk ->
  exists a, timestep chunk (Z.of_nat r) = Ok a.
Proof.
  intros Hr H. unfold timestep.
  induction H as [|trajectory chunk Hlen _ (a & IH)]; [exists []; reflexivity|].
  destruct (lookup_lt_is_Some_2 trajectory r) as [v Hv]; [lia|].
  exists (v :: a). simpl. rewrite (index_nat _ _ _ Hv). simpl. rewrite IH. reflexivity.
Qed.

(** Between two multiples of [q] the last multiple stays. *)
Lemma last_multiple_stays (q n : nat) :
  (0 < q)%nat -> (S n mod q)%nat <> 0%nat ->
  (S n - S n mod q = n - n mod q)%nat.
Proof.
  intros Hq Hr.
  pose proof (Nat.div_mod (S n) q ltac:(lia)) as Hdm.
  pose proof (Nat.mod_upper_bound (S n) q ltac:(lia)) as Hlt.
  assert (Hn : (n mod q = S n mod q - 1)%nat).
  { symmetry. apply (Nat.mod_unique n q (S n / q)); lia. }
  rewrite Hn. lia.
Qed.

(** The rollout that follows a reset, call by call. *)
Lemma rollout_after_reset self (q : nat) observations inps :
  nets_training self = false ->
  query_frequency self = Z.of_nat q -> (0 < q)%nat ->
  Forall2 (fun o inp => get_action_inputs self o = Ok inp) observations inps ->
  Forall (fun inp => Forall (fun trajectory => (q <= length trajectory)%nat)
                       (a_hat (nets_policy self inp))) inps ->
  exists acts store,
    rollout observations (with_state self 0 (a_hat_store self) (policy_calls self)) =
      (Ok acts, with_state self (Z.of_nat (length observations)) store
                  (policy_calls self ++ invoked q inps)) /\
    length acts = length observations /\
    (forall n, length observations = S n ->
       exists inp, inps !! (n - n mod q)%nat = Some inp /\
                   store = Some (a_hat (nets_policy self inp))) /\
    (forall i, (i < length observations)%nat ->
       exists inp a,
         inps !! (i - i mod q)%nat = Some inp /\
         timestep (a_hat (nets_policy self inp)) (Z.of_nat (i mod q)) = Ok a /\
         acts !! i = Some a).
Proof.
  intros Htr Hqf Hq. revert inps.
  induction observations as [|o observations IH] using rev_ind; intros inps HF2 Hlong.
  - apply Forall2_nil_inv_l in HF2 as ->.
    exists [], (a_hat_store self). cbn. unfold ret, invoked. simpl.
    rewrite app_nil_r. repeat split; [discriminate | lia].
  - apply Forall2_app_inv_l in HF2 as (inps1 & inps2 & HF1 & HF2 & ->).
    apply Forall2_cons_inv_l in HF2 as (inp & inps3 & Hinp & HF3 & ->).
    apply Forall2_nil_inv_l in HF3 as ->.
    apply Forall_app in Hlong as [Hlong1 Hlong2].
    apply Forall_cons in Hlong2 as [Hlong_inp _].
    destruct (IH inps1 HF1 Hlong1) as (acts & store & Hrun & Hlen & Hstore & Hacts).
    pose proof (Forall2_length _ _ _ HF1) as Hlen1.
    rewrite length_app. simpl length.
    set (n := length observations) in *.
    assert (Hq0 : query_frequency self <> 0%Z) by lia.
    pose proof (get_action_step self (Z.of_nat n) store
                  (policy_calls self ++ invoked q inps1) o inp Htr Hq0 Hinp) as Hstep.
    cbv zeta in Hstep. rewrite Hqf, <- Nat2Z.inj_mod in Hstep.
    rewrite rollout_snoc. unfold bindM, ret. rewrite Hrun.
    replace (Z.of_nat (n + 1)) with (Z.of_nat n + 1)%Z by lia.
    unfold invoked in *. rewrite invoked_from_snoc, Nat.add_0_l, <- Hlen1, app_assoc.
    destruct (Nat.eqb_spec (n mod q) 0) as [Hr|Hr].
    + (* the counter is a multiple of the frequency: the policy is called *)
      rewrite Hr in Hstep. change (Z.of_nat 0) with 0%Z in *. cbn [Z.eqb] in Hstep.
      destruct (timestep_is_Ok _ q 0%nat Hq Hlong_inp) as (a & Ha).
      change (Z.of_nat 0) with 0%Z in *. rewrite Ha in Hstep. rewrite Hstep.
      exists (acts ++ [a]), (Some (a_hat (nets_policy self inp))).
      split; [reflexivity|]. split; [rewrite length_app; simpl; lia|]. split.
      * intros n' Hn'. assert (n' = n) as -> by lia. exists inp.
        rewrite Hr, Nat.sub_0_r, Hlen1, list_lookup_middle by reflexivity.
        split; reflexivity.
      * intros i Hi. destruct (Nat.eq_dec i n) as [->|Hne].
        -- exists inp, a. rewrite Hr, Nat.sub_0_r.
           split; [apply list_lookup_middle; exact Hlen1|].
           split; [exact Ha|]. apply list_lookup_middle. symmetry. exact Hlen.
        -- destruct (Hacts i ltac:(lia)) as (inp0 & a0 & Hl & Ht & Hl').
           exists inp0, a0. rewrite lookup_app_l by (rewrite <- Hlen1; lia).
           rewrite lookup_app_l by lia. repeat split; assumption.
    + (* otherwise the stored chunk is read *)
      assert (Hrz : (Z.of_nat (n mod q) =? 0)%Z = false) by (apply Z.eqb_neq; lia).
      rewrite Hrz in Hstep.
      destruct n as [|n'] eqn:En; [rewrite Nat.Div0.mod_0_l in Hr; contradiction|].
      destruct (Hstore n' eq_refl) as (inp0 & Hinp0 & ->).
      assert (Hlong0 : Forall (fun trajectory => (q <= length trajectory)%nat)
                         (a_hat (nets_policy self inp0))).
      { rewrite Forall_forall in Hlong1. apply Hlong1.
        eapply list_elem_of_lookup_2, Hinp0. }
      assert (Hq' : q <> 0%nat) by lia.
      destruct (timestep_is_Ok _ q (S n' mod q) (Nat.mod_upper_bound (S n') q Hq') Hlong0)
        as (a & Ha).
      rewrite Ha in Hstep. rewrite Hstep, app_nil_r.
      exists (acts ++ [a]), (Some (a_hat (nets_policy self inp0))).
      split; [reflexivity|]. split; [rewrite length_app; simpl; lia|].
      assert (Hsame : (inps1 ++ [inp]) !! (S n' - S n' mod q)%nat = Some inp0).
      { rewrite (last_multiple_stays q n' Hq Hr).
        rewrite lookup_app_l by (eapply lookup_lt_Some, Hinp0). exact Hinp0. }
      split.
      * intros n'' Hn''. assert (n'' = S n') as -> by lia. exists inp0.
        split; [exact Hsame | reflexivity].
      * intros i Hi. destruct (Nat.eq_dec i (S n')) as [->|Hne].
        -- exists inp0, a. split; [exact Hsame|]. split; [exact Ha|].
           apply list_lookup_middle. symmetry. exact Hlen.
        -- destruct (Hacts i ltac:(lia)) as (inp1 & a1 & Hl & Ht & Hl').
           exists inp1, a1. rewrite lookup_app_l by (rewrite <- Hlen1; lia).
           rewrite lookup_app_l by lia. repeat split; assumption.
Qed.

(** The first call after a reset, whatever the counter and the store
    were: the policy is called and the action is timestep 0 of its
    chunk. *)
Lemma get_action_after_reset self o inp :
  nets_training self = false ->
  query_frequency self <> 0%Z ->
  get_action_inputs self o = Ok inp ->
  (let* _ := reset in get_action o) self =
  match timestep (a_hat (nets_policy self inp)) 0 with
  | Ok action =>
      (Ok action, with_state self 1 (Some (a_hat (nets_policy self inp)))
                    (policy_calls self ++ [inp]))
  | Raise e =>
      (Raise e, with_state self 0 (Some (a_hat (nets_policy self inp)))
                  (policy_calls self ++ [inp]))
  end.
Proof.
  intros Htr Hq Hinp. unfold bindM. rewrite reset_state.
  rewrite (get_action_step self 0 _ _ o inp Htr Hq Hinp).
  rewrite Z.mod_0_l by exact Hq. reflexivity.
Qed.

(** [l[i]] at an index that is not negative is the lookup. *)
Lemma index_lookup {A} (l : list A) (r : nat) :
  index l (Z.of_nat r) = of_option IndexError (l !! r).
Proof.
  unfold index.
  destruct (Z.ltb_spec (Z.of_nat r) 0); [lia|].
  destruct (Z.ltb_spec (Z.of_nat r) 0); [lia|].
  rewrite Nat2Z.id. destruct (l !! r); reflexivity.
Qed.

(** [store[:, r, :]], sample by sample: the row of a sample is entry [r]
    of the trajectory of the sample. *)
Lemma timestep_lookups chunk (r : nat) action :
  timestep chunk (Z.of_nat r) = Ok action <->
  Forall2 (fun trajectory row => trajectory !! r = Some row) chunk action.
Proof.
  unfold timestep. revert action.
  induction chunk as [|trajectory chunk IH]; intros action; cbn [for_each].
  - split.
    + intros H. injection H as <-. constructor.
    + intros H. apply Forall2_nil_inv_l in H as ->. reflexivity.
  - rewrite index_lookup. split.
    + intros H. destruct (trajectory !! r) as [row|] eqn:Hrow; [|discriminate].
      cbn [of_option bind] in H.
      destruct (for_each _ chunk) as [rows|] eqn:Hrows; [|discriminate].
      cbn [bind] in H. injection H as <-.
      constructor; [exact Hrow|]. apply IH. reflexivity.
    + intros H. apply Forall2_cons_inv_l in H as (row & rows & Hrow & Hrows & ->).
      rewrite Hrow. cbn [of_option bind].
      rewrite (proj2 (IH rows) Hrows). reflexivity.
Qed.

(** C1: in evaluation mode, with a query frequency q > 0, observations
    that hold the keys and chunks of at least q timesteps:
    - any call of [get_action] calls the policy when and only when the
      step counter modulo q is 0, and then stores the whole predicted
      chunk; it returns the timestep of the stored chunk at index
      (counter mod q) and adds one to the counter;
    - after [reset], whatever the counter and the store were, the next
      call is a call at step 0;
    - the timestep r of a chunk is there when every trajectory of the
      chunk has an entry r, and it holds, sample by sample, that entry
      of the trajectory of the sample;
    - a rollout of n calls after [reset] returns n actions and leaves the
      counter at n; the policy was called on the calls number 0, q, 2q,
      ... and on no other; call number i returns timestep (i mod q) of the
      chunk predicted at call number i - (i mod q), that is, for every
      sample, entry (i mod q) of the trajectory predicted for the sample,
      so that q calls in a row read one chunk, predicted once. *)
Theorem C1_chunked_inference_cache self (q : nat) observations inps :
  nets_training self = false ->
  query_frequency self = Z.of_nat q ->
  (0 < q)%nat ->
  Forall2 (fun o inp => get_action_inputs self o = Ok inp) observations inps ->
  Forall (fun inp => Forall (fun trajectory => (q <= length trajectory)%nat)
                       (a_hat (nets_policy self inp))) inps ->
  (forall c store calls o inp,
     get_action_inputs self o = Ok inp ->
     let r := (c mod Z.of_nat q)%Z in
     let store' := if (r =? 0)%Z then Some (a_hat (nets_policy self inp)) else store in
     let calls' := if (r =? 0)%Z then calls ++ [inp] else calls in
     get_action o (with_state self c store calls) =
     match store' with
     | None => (Raise TypeError, with_state self c store' calls')
     | Some chunk =>
         match timestep chunk r with
         | Ok action => (Ok action, with_state self (c + 1) store' calls')
         | Raise e => (Raise e, with_state self c store' calls')
         end
     end) /\
  (forall o inp,
     get_action_inputs self o = Ok inp ->
     (let* _ := reset in get_action o) self =
     match timestep (a_hat (nets_policy self inp)) 0 with
     | Ok action =>
         (Ok action, with_state self 1 (Some (a_hat (nets_policy self inp)))
                       (policy_calls self ++ [inp]))
     | Raise e =>
         (Raise e, with_state self 0 (Some (a_hat (nets_policy self inp)))
                     (policy_calls self ++ [inp]))
     end) /\
  (forall chunk (r : nat) action,
     timestep chunk (Z.of_nat r) = Ok action <->
     Forall2 (fun trajectory row => trajectory !! r = Some row) chunk action) /\
  exists acts self',
    (let* _ := reset in rollout observations) self = (Ok acts, self') /\
    _step_counter self' = Z.of_nat (length observations) /\
    policy_calls self' = policy_calls self ++ invoked q inps /\
    (forall k, invoked q inps !! k = inps !! (k * q)%nat) /\
    length acts = length observations /\
    (forall i, (i < length observations)%nat ->
       exists inp a,
         inps !! (i - i mod q)%nat = Some inp /\
         timestep (a_hat (nets_policy self inp)) (Z.of_nat (i mod q)) = Ok a /\
         acts !! i = Some a /\
         Forall2 (fun trajectory row => trajectory !! (i mod q)%nat = Some row)
           (a_hat (nets_policy self inp)) a).
Proof.
  intros Htr Hqf Hq HF2 Hlong.
  assert (Hq0 : query_frequency self <> 0%Z) by lia.
  split; [|split; [|split]].
  - intros c store calls o inp Hinp. rewrite <- Hqf.
    apply (get_action_step self c store calls o inp Htr Hq0 Hinp).
  - intros o inp Hinp. apply (get_action_after_reset self o inp Htr Hq0 Hinp).
  - apply timestep_lookups.
  - destruct (rollout_after_reset self q observations inps Htr Hqf Hq HF2 Hlong)
      as (acts & store & Hrun & Hlen & _ & Hacts).
    exists acts. eexists. unfold bindM. rewrite reset_state, Hrun.
    split; [reflexivity|]. split; [reflexivity|]. split; [reflexivity|].
    split; [intros k; apply invoked_lookup, Hq|]. split; [exact Hlen|].
    intros i Hi. destruct (Hacts i Hi) as (inp & a & Hinp & Ha & Hai).
    exists inp, a. split; [exact Hinp|]. split; [exact Ha|]. split; [exact Hai|].
    apply timestep_lookups, Ha.
Qed.

End get_action_facts.

(** ** A rollout on concrete observations *)

Section rollout_runs.
Import Tensor ACT Examples.

(** With q = 3 and 8 calls, the calls number 0, 3 and 6 are those of the
    policy. *)
Example invoked_3_of_8 : invoked 3 (seq 0 8) = [0; 3; 6]%nat.
Proof. reflexivity. Qed.

Lemma inputs_robot : get_action_inputs algo_eval obs_robot = Ok inp_robot.
Proof. vm_compute. reflexivity. Qed.

Lemma chunk_robot :
  Forall (fun trajectory => (5 <= length trajectory)%nat)
    (a_hat (nets_policy algo_eval inp_robot)).
Proof. repeat constructor. Qed.

(** Seven calls after a reset, on an object whose counter was 3 and
    whose store held another chunk: the actions are the timesteps 0, 1,
    2, 3, 4, 0, 1 of the predicted chunk, and the policy is called twice,
    at the calls number 0 and 5. *)
Example rollout_7_calls :
  let r := (let* _ := reset in rollout (replicate 7 obs_robot)) algo_eval in
  fst r = Ok (map (fun t => [[t; t; t]; [t; t; t]]) [0; 1; 2; 3; 4; 0; 1]) /\
  policy_calls (snd r) = [inp_robot; inp_robot] /\
  _step_counter (snd r) = 7%Z.
Proof. repeat split; vm_compute; reflexivity. Qed.

(** The chunk that the policy predicts on [inp_robot]: a timestep of
    it holds, for each of the two samples, the entry of the trajectory. *)
Lemma chunk_robot_timestep (r : nat) (t : list R) (a : list (list R)) :
  [[0; 0; 0]; [1; 1; 1]; [2; 2; 2]; [3; 3; 3]; [4; 4; 4]] !! r = Some t ->
  Forall2 (fun trajectory row => trajectory !! r = Some row)
    (a_hat (nets_policy algo_eval inp_robot)) a ->
  a = [t; t].
Proof.
  intros Ht H.
  change (a_hat (nets_policy algo_eval inp_robot))
    with [[[0; 0; 0]; [1; 1; 1]; [2; 2; 2]; [3; 3; 3]; [4; 4; 4]];
          [[0; 0; 0]; [1; 1; 1]; [2; 2; 2]; [3; 3; 3]; [4; 4; 4]]] in H.
  apply Forall2_cons_inv_l in H as (row0 & rows & H0 & H & ->).
  apply Forall2_cons_inv_l in H as (row1 & rows' & H1 & H & ->).
  apply Forall2_nil_inv_l in H as ->.
  rewrite Ht in H0, H1. injection H0 as <-. injection H1 as <-. reflexivity.
Qed.

Lemma C1_chunked_inference_cache_witness :
  nets_training algo_eval = false /\
  query_frequency algo_eval = Z.of_nat 5 /\
  (0 < 5)%nat /\
  Forall2 (fun o inp => get_action_inputs algo_eval o = Ok inp)
    (replicate 7 obs_robot) (replicate 7 inp_robot) /\
  Forall (fun inp => Forall (fun trajectory => (5 <= length trajectory)%nat)
                       (a_hat (nets_policy algo_eval inp))) (replicate 7 inp_robot) /\
  exists acts self',
    (let* _ := reset in rollout (replicate 7 obs_robot)) algo_eval = (Ok acts, self') /\
    _step_counter self' = 7%Z /\
    policy_calls self' = [inp_robot; inp_robot] /\
    length acts = 7%nat /\
    acts = [ [[0; 0; 0]; [0; 0; 0]]; [[1; 1; 1]; [1; 1; 1]]; [[2; 2; 2]; [2; 2; 2]];
             [[3; 3; 3]; [3; 3; 3]]; [[4; 4; 4]; [4; 4; 4]];
             [[0; 0; 0]; [0; 0; 0]]; [[1; 1; 1]; [1; 1; 1]] ].
Proof.
  assert (H1 : nets_training algo_eval = false) by reflexivity.
  assert (H2 : query_frequency algo_eval = Z.of_nat 5) by reflexivity.
  assert (H3 : (0 < 5)%nat) by lia.
  assert (H4 : Forall2 (fun o inp => get_action_inputs algo_eval o = Ok inp)
                 (replicate 7 obs_robot) (replicate 7 inp_robot))
    by (repeat constructor; apply inputs_robot).
  assert (H5 : Forall (fun inp => Forall (fun trajectory => (5 <= length trajectory)%nat)
                         (a_hat (nets_policy algo_eval inp))) (replicate 7 inp_robot))
    by (repeat constructor).
  repeat (split; [assumption|]).
  destruct (C1_chunked_inference_cache algo_eval 5 _ _ H1 H2 H3 H4 H5)
    as (_ & _ & _ & acts & self' & Hrun & Hc & Hcalls & _ & Hlen & Hacts).
  exists acts, self'.
  split; [exact Hrun|]. split; [exact Hc|]. split; [exact Hcalls|].
  split; [exact Hlen|].
  assert (Hrow : forall i t,
            (i < 7)%nat ->
            [[0; 0; 0]; [1; 1; 1]; [2; 2; 2]; [3; 3; 3]; [4; 4; 4]] !! (i mod 5)%nat
              = Some t ->
            acts !! i = Some [t; t]).
  { intros i t Hi Ht.
    destruct (Hacts i Hi) as (inp & a & Hinp & _ & Ha & Hrows).
    apply lookup_replicate in Hinp as [-> _].
    rewrite (chunk_robot_timestep _ _ _ Ht Hrows) in Ha. exact Ha. }
  apply list_eq. intros i.
  destruct (Nat.lt_ge_cases i 7) as [Hi|Hi].
  - do 7 (destruct i as [|i]; [apply Hrow; [lia|reflexivity]|]).
    lia.
  - rewrite !lookup_ge_None_2; [reflexivity|simpl; lia|rewrite Hlen; simpl; lia].
Defined.

End rollout_runs.

(** * More of the sources *)

(** ** simarUtils: more on the normalisation *)

Section general_norm_more.
Import simarUtils.

Lemma general_norm_entry a b lo hi v :
  lo < hi -> a <= b -> lo <= v <= hi ->
  a <= (b - a) * ((v - lo) / (hi - lo)) + a <= b.
Proof.
  intros Hlh Hab [Hl Hh].
  assert (H0 : 0 <= (v - lo) / (hi - lo)).
  { apply Rmult_le_pos; [lra|]. left. apply Rinv_0_lt_compat. lra. }
  assert (H1 : (v - lo) / (hi - lo) <= 1).
  { apply Rmult_le_reg_r with (hi - lo); [lra|].
    unfold Rdiv. rewrite Rmult_assoc, Rinv_l by lra. lra. }
  split; nra.
Qed.

(** X1: with lo < hi and min_val <= max_val, [general_norm] sends an
    array with entries in [lo, hi] to an array of the same length with
    entries in [min_val, max_val]; it sends lo to min_val and hi to
    max_val. *)
Theorem X1_general_norm_range (x : list R) (min_val max_val lo hi : R) :
  lo < hi -> min_val <= max_val ->
  Forall (fun v => lo <= v <= hi) x ->
  exists y,
    general_norm x min_val max_val (Some lo) (Some hi) = Ok y /\
    length y = length x /\
    Forall (fun v => min_val <= v <= max_val) y /\
    general_norm [lo; hi] min_val max_val (Some lo) (Some hi) = Ok [min_val; max_val].
Proof.
  intros Hlh Hab Hx. eexists. split; [reflexivity|]. split; [apply length_map|].
  split.
  - apply Forall_map. eapply Forall_impl; [exact Hx|].
    intros v Hv. simpl. apply general_norm_entry; assumption.
  - unfold general_norm. simpl. do 2 f_equal; [|f_equal]; field; lra.
Qed.

Lemma X1_general_norm_range_witness :
  2 < 6 /\ -1 <= 1 /\ Forall (fun v => 2 <= v <= 6) [2; 3; 6] /\
  exists y,
    general_norm [2; 3; 6] (-1) 1 (Some 2) (Some 6) = Ok y /\
    length y = 3%nat /\
    Forall (fun v => -1 <= v <= 1) y.
Proof.
  assert (H1 : 2 < 6) by lra.
  assert (H2 : -1 <= 1) by lra.
  assert (H3 : Forall (fun v => 2 <= v <= 6) [2; 3; 6]) by (repeat constructor; lra).
  repeat (split; [assumption|]).
  destruct (X1_general_norm_range [2; 3; 6] (-1) 1 2 6 H1 H2 H3) as (y & Hy & Hl & Hr & _).
  exists y. repeat split; assumption.
Defined.

(** X2: [general_norm] undoes [general_unnorm]: for every array y,
    mapping it from the range (min_val, max_val) to (lo, hi) and
    normalising back returns y. *)
Theorem X2_unnorm_norm_roundtrip (y : list R) (min_val max_val lo hi : R) :
  min_val <> max_val -> lo <> hi ->
  general_norm (general_unnorm y lo hi min_val max_val) min_val max_val (Some lo) (Some hi)
  = Ok y.
Proof.
  intros Hab Hlh. unfold general_norm, general_unnorm. simpl. f_equal.
  rewrite map_map. induction y as [|v y IH]; simpl; [reflexivity|].
  rewrite IH. f_equal. field. split; lra.
Qed.

Lemma X2_unnorm_norm_roundtrip_witness :
  -1 <> 1 /\ 2 <> 6 /\
  general_norm (general_unnorm [-1; 0; 1] 2 6 (-1) 1) (-1) 1 (Some 2) (Some 6)
  = Ok [-1; 0; 1].
Proof.
  assert (H1 : -1 <> 1) by lra.
  assert (H2 : 2 <> 6) by lra.
  exact (conj H1 (conj H2 (X2_unnorm_norm_roundtrip [-1; 0; 1] (-1) 1 2 6 H1 H2))).
Defined.

Lemma fold_Rmin_le l x :
  fold_left Rmin l x <= x /\ Forall (fun v => fold_left Rmin l x <= v) l.
Proof.
  revert x. induction l as [|v l IH]; intros x; simpl.
  - split; [lra|constructor].
  - destruct (IH (Rmin x v)) as [H1 H2].
    pose proof (Rmin_l x v). pose proof (Rmin_r x v).
    split; [lra|]. constructor; [lra|exact H2].
Qed.

Lemma fold_Rmax_ge l x :
  x <= fold_left Rmax l x /\ Forall (fun v => v <= fold_left Rmax l x) l.
Proof.
  revert x. induction l as [|v l IH]; intros x; simpl.
  - split; [lra|constructor].
  - destruct (IH (Rmax x v)) as [H1 H2].
    pose proof (Rmax_l x v). pose proof (Rmax_r x v).
    split; [lra|]. constructor; [lra|exact H2].
Qed.

Lemma fold_Rmin_in l x : fold_left Rmin l x ∈ x :: l.
Proof.
  revert x. induction l as [|v l IH]; intros x; simpl; [left|].
  specialize (IH (Rmin x v)). apply elem_of_cons in IH as [->|IH].
  - unfold Rmin. destruct (Rle_dec x v); [left|right; left].
  - right. right. exact IH.
Qed.

Lemma fold_Rmax_in l x : fold_left Rmax l x ∈ x :: l.
Proof.
  revert x. induction l as [|v l IH]; intros x; simpl; [left|].
  specialize (IH (Rmax x v)). apply elem_of_cons in IH as [->|IH].
  - unfold Rmax. destruct (Rle_dec x v); [right; left|left].
  - right. right. exact IH.
Qed.

(** X3: with the bounds omitted, [general_norm] takes them from the
    array: on an array that holds two different values, and with
    min_val <= max_val, every entry of the result lies in
    [min_val, max_val], and min_val and max_val are both reached. *)
Theorem X3_general_norm_own_bounds (array : list R) (min_val max_val u v : R) :
  u ∈ array -> v ∈ array -> u < v -> min_val <= max_val ->
  exists y,
    general_norm array min_val max_val None None = Ok y /\
    length y = length array /\
    Forall (fun w => min_val <= w <= max_val) y /\
    min_val ∈ y /\ max_val ∈ y.
Proof.
  intros Hu Hv Huv Hab. destruct array as [|x xs]; [inversion Hu|].
  unfold general_norm, array_min, array_max. cbn [bind].
  set (lo := fold_left Rmin xs x). set (hi := fold_left Rmax xs x).
  pose proof (fold_Rmin_le xs x) as [Hlo1 Hlo2].
  pose proof (fold_Rmax_ge xs x) as [Hhi1 Hhi2].
  fold lo in Hlo1, Hlo2. fold hi in Hhi1, Hhi2.
  assert (Hall : Forall (fun w => lo <= w <= hi) (x :: xs)).
  { constructor; [lra|]. apply Forall_forall. intros w Hw.
    rewrite Forall_forall in Hlo2, Hhi2. split; auto. }
  assert (Hlh : lo < hi).
  { rewrite Forall_forall in Hall. destruct (Hall u Hu), (Hall v Hv). lra. }
  eexists. split; [reflexivity|]. split; [apply length_map|]. split; [|split].
  - apply Forall_map. eapply Forall_impl; [exact Hall|].
    intros w Hw. simpl. apply general_norm_entry; assumption.
  - apply list_elem_of_In, in_map_iff. exists lo. split.
    + field. lra.
    + apply list_elem_of_In. apply fold_Rmin_in.
  - apply list_elem_of_In, in_map_iff. exists hi. split.
    + field. lra.
    + apply list_elem_of_In. apply fold_Rmax_in.
Qed.

Lemma X3_general_norm_own_bounds_witness :
  2 ∈ [3; 2; 6] /\ 6 ∈ [3; 2; 6] /\ 2 < 6 /\ -1 <= 1 /\
  exists y,
    general_norm [3; 2; 6] (-1) 1 None None = Ok y /\
    Forall (fun w => -1 <= w <= 1) y /\ -1 ∈ y /\ 1 ∈ y.
Proof.
  assert (H1 : 2 ∈ [3; 2; 6]) by (right; left).
  assert (H2 : 6 ∈ [3; 2; 6]) by (right; right; left).
  assert (H3 : 2 < 6) by lra.
  assert (H4 : -1 <= 1) by lra.
  repeat (split; [assumption|]).
  destruct (X3_general_norm_own_bounds [3; 2; 6] (-1) 1 2 6 H1 H2 H3 H4)
    as (y & Hy & _ & Hr & Hmin & Hmax).
  exists y. repeat split; assumption.
Defined.

(** X4: [general_norm] raises exactly when the array is empty and a
    bound is omitted (the ValueError of numpy's min or max of an empty
    array); with both bounds given, an empty array gives an empty
    array. *)
Theorem X4_general_norm_raises (array : list R) (min_val max_val : R)
    (arr_min arr_max : option R) :
  (is_Ok (general_norm array min_val max_val arr_min arr_max) = false <->
   array = [] /\ (arr_min = None \/ arr_max = None)) /\
  (forall lo hi, general_norm [] min_val max_val (Some lo) (Some hi) = Ok []) /\
  (array = [] -> arr_min = None \/ arr_max = None ->
   exists msg, general_norm array min_val max_val arr_min arr_max = Raise (ValueError msg)).
Proof.
  split; [|split].
  - unfold general_norm, array_min, array_max.
    destruct array as [|x xs], arr_min as [lo|], arr_max as [hi|]; simpl;
      split; try discriminate; try (intros [? [?|?]]; discriminate); auto.
  - reflexivity.
  - intros -> H. unfold general_norm, array_min, array_max.
    destruct arr_min as [lo|], arr_max as [hi|]; simpl; eauto.
    destruct H; discriminate.
Qed.

End general_norm_more.

(** ** simarUtils: projection to pixels *)

Section projection_facts.
Import simarUtils.

Local Abbreviation dot row v := (fold_right Rplus 0 (zip_with Rmult row v)).

Lemma matvec_Ok m v :
  Forall (fun row => length row = length v) m ->
  matvec m v = Ok (map (fun row => dot row v) m).
Proof.
  intros H. unfold matvec. induction H as [|row m Hrow _ IH]; [reflexivity|].
  cbn [for_each]. rewrite Hrow, Nat.eqb_refl. cbn [bind]. rewrite IH. reflexivity.
Qed.

Lemma matvec_is_Ok m v :
  is_Ok (matvec m v) = true <-> Forall (fun row => length row = length v) m.
Proof.
  split; [|intros H; rewrite (matvec_Ok _ _ H); reflexivity].
  unfold matvec. induction m as [|row m IH]; [constructor|].
  cbn [for_each]. destruct (Nat.eqb_spec (length row) (length v)) as [E|E];
    [|discriminate].
  cbn [bind]. destruct (for_each _ m) eqn:Em; [|discriminate].
  intros _. constructor; [exact E|]. apply IH. reflexivity.
Qed.

Lemma matvec_raises m v :
  ~ Forall (fun row => length row = length v) m ->
  exists msg, matvec m v = Raise (ValueError msg).
Proof.
  unfold matvec. induction m as [|row m IH]; intros H;
    [exfalso; apply H; constructor|].
  cbn [for_each]. destruct (Nat.eqb_spec (length row) (length v)) as [E|E].
  - cbn [bind]. destruct IH as [msg IH].
    + intros Hm. apply H. constructor; assumption.
    + rewrite IH. simpl. eauto.
  - simpl. eauto.
Qed.

Lemma index_2 {A} (l : list A) : index l 2 = of_option IndexError (l !! 2%nat).
Proof. reflexivity. Qed.

(** X5: for the pinhole intrinsics with focal lengths fx, fy and centre
    (cx, cy), and a point in front of the camera plane (z other than 0),
    the pixel is (fx x / z + cx, fy y / z + cy), with third coordinate
    1. *)
Theorem X5_pinhole_projection (fx fy cx cy x y z : R) :
  z <> 0 ->
  cam_frame_to_cam_pixels [x; y; z]
    [[fx; 0; cx; 0]; [0; fy; cy; 0]; [0; 0; 1; 0]]
  = Ok [fx * x / z + cx; fy * y / z + cy; 1].
Proof.
  intros Hz. unfold cam_frame_to_cam_pixels. rewrite matvec_Ok by (repeat constructor).
  cbn -[Rplus Rmult Rdiv index]. rewrite index_2. cbn -[Rplus Rmult Rdiv].
  f_equal. repeat (apply (f_equal2 cons)); try reflexivity; field; lra.
Qed.

Lemma X5_pinhole_projection_witness :
  2 <> 0 /\
  cam_frame_to_cam_pixels [1; 3; 2]
    [[616; 0; 313.4; 0]; [0; 615.7; 236.7; 0]; [0; 0; 1; 0]]
  = Ok [616 * 1 / 2 + 313.4; 615.7 * 3 / 2 + 236.7; 1].
Proof.
  assert (H : 2 <> 0) by lra.
  exact (conj H (X5_pinhole_projection 616 615.7 313.4 236.7 1 3 2 H)).
Defined.

(** The row of a matrix whose last column is zero, against a point
    scaled by s. *)
Lemma dot_scaled (row p : list R) (s : R) :
  length row = length p ->
  dot (row ++ [0]) (map (Rmult s) p ++ [1]) = s * dot (row ++ [0]) (p ++ [1]).
Proof.
  revert p. induction row as [|r row IH]; intros [|x p] Hlen; try discriminate.
  - simpl. lra.
  - simpl in *. rewrite IH by lia. lra.
Qed.

(** X6: when the third entry of [intrinsics @ (x, y, z, 1)] is not zero,
    the third pixel coordinate is 1; and when moreover the last column
    of the intrinsics is zero, the pixel of a point does not change when
    the point is scaled by s other than 0: it depends on the direction of
    the point only. *)
Theorem X6_projection_homogeneous (rows : list (list R)) (p : list R) (s w : R) :
  Forall (fun row => length row = length p) rows ->
  (map (fun row => dot (row ++ [0]) (p ++ [1])) rows) !! 2%nat = Some w ->
  w <> 0 -> s <> 0 ->
  exists px,
    cam_frame_to_cam_pixels p (map (fun row => row ++ [0]) rows) = Ok px /\
    px !! 2%nat = Some 1 /\
    cam_frame_to_cam_pixels (map (Rmult s) p) (map (fun row => row ++ [0]) rows) = Ok px.
Proof.
  intros Hrows Hw Hw0 Hs. unfold cam_frame_to_cam_pixels.
  rewrite !matvec_Ok.
  2,3: apply Forall_map; eapply Forall_impl; [exact Hrows|];
       intros row Hrow; cbv beta in *; rewrite !length_app, ?length_map; simpl; lia.
  cbn [bind]. rewrite !index_2, !map_map.
  assert (Hs2 : map (fun row => dot (row ++ [0]) (map (Rmult s) p ++ [1])) rows
                = map (fun row => s * dot (row ++ [0]) (p ++ [1])) rows).
  { apply map_ext_Forall. eapply Forall_impl; [exact Hrows|].
    intros row Hrow. simpl. apply dot_scaled, Hrow. }
  rewrite Hs2, Hw. cbn [of_option bind].
  assert (Hsw : (map (fun row => s * dot (row ++ [0]) (p ++ [1])) rows) !! 2%nat
                = Some (s * w)).
  { clear -Hw. revert Hw. generalize 2%nat. induction rows as [|r rows IH];
      intros [|n] H; simpl in *; try discriminate.
    - injection H as <-. reflexivity.
    - apply IH, H. }
  rewrite Hsw. cbn [of_option bind].
  eexists. split; [reflexivity|]. split.
  - clear -Hw Hw0. revert Hw. generalize 2%nat. induction rows as [|r rows IH];
      intros [|n] H; simpl in *; try discriminate.
    + injection H as ->. f_equal. field. exact Hw0.
    + apply IH, H.
  - f_equal. rewrite !map_map. apply map_ext. intros row. field. split; assumption.
Qed.

Lemma X6_projection_homogeneous_witness :
  Forall (fun row => length row = length [1; 3; 2])
    [[616; 0; 313.4]; [0; 615.7; 236.7]; [0; 0; 1]] /\
  2 <> 0 /\ 5 <> 0 /\
  exists px,
    cam_frame_to_cam_pixels [1; 3; 2]
      [[616; 0; 313.4; 0]; [0; 615.7; 236.7; 0]; [0; 0; 1; 0]] = Ok px /\
    px !! 2%nat = Some 1 /\
    cam_frame_to_cam_pixels [5 * 1; 5 * 3; 5 * 2]
      [[616; 0; 313.4; 0]; [0; 615.7; 236.7; 0]; [0; 0; 1; 0]] = Ok px.
Proof.
  assert (H1 : Forall (fun row => length row = length [1; 3; 2])
                 [[616; 0; 313.4]; [0; 615.7; 236.7]; [0; 0; 1]])
    by (repeat constructor).
  assert (H2 : (map (fun row => dot (row ++ [0]) ([1; 3; 2] ++ [1]))
                  [[616; 0; 313.4]; [0; 615.7; 236.7]; [0; 0; 1]]) !! 2%nat
               = Some 2).
  { simpl. f_equal. lra. }
  assert (H3 : 2 <> 0) by lra.
  assert (H4 : 5 <> 0) by lra.
  exact (conj H1 (conj H3 (conj H4
    (X6_projection_homogeneous _ [1; 3; 2] 5 2 H1 H2 H3 H4)))).
Defined.

(** X7: [cam_frame_to_cam_pixels] returns exactly when every row of the
    intrinsics has one entry more than the point and there are at least
    3 rows; a row of another length raises ValueError (the matrix
    product), fewer than 3 rows raise IndexError ([px_val[2]]). *)
Theorem X7_projection_raises (p : list R) (intrinsics : list (list R)) :
  (is_Ok (cam_frame_to_cam_pixels p intrinsics) = true <->
   Forall (fun row => length row = S (length p)) intrinsics /\
   (3 <= length intrinsics)%nat) /\
  (Forall (fun row => length row = S (length p)) intrinsics ->
   (length intrinsics < 3)%nat ->
   cam_frame_to_cam_pixels p intrinsics = Raise IndexError) /\
  (~ Forall (fun row => length row = S (length p)) intrinsics ->
   exists msg, cam_frame_to_cam_pixels p intrinsics = Raise (ValueError msg)).
Proof.
  assert (Hlen : length (p ++ [1]) = S (length p))
    by (rewrite length_app; simpl; lia).
  assert (Hrows : Forall (fun row => length row = S (length p)) intrinsics ->
            cam_frame_to_cam_pixels p intrinsics =
            bind (of_option IndexError
                    ((map (fun row => dot row (p ++ [1])) intrinsics) !! 2%nat))
                 (fun w => Ok (map (fun q => q / w)
                                 (map (fun row => dot row (p ++ [1])) intrinsics)))).
  { intros H. unfold cam_frame_to_cam_pixels. rewrite matvec_Ok; [reflexivity|].
    rewrite Hlen. exact H. }
  assert (Hbad : ~ Forall (fun row => length row = S (length p)) intrinsics ->
            exists msg, cam_frame_to_cam_pixels p intrinsics = Raise (ValueError msg)).
  { intros H. unfold cam_frame_to_cam_pixels.
    destruct (matvec_raises intrinsics (p ++ [1])) as [msg ->];
      [rewrite Hlen; exact H|]. simpl. eauto. }
  split; [|split].
  - split.
    + intros H.
      destruct (decide (Forall (fun row => length row = S (length p)) intrinsics))
        as [Hf|Hf]; [|destruct (Hbad Hf) as [msg Hm]; rewrite Hm in H; discriminate].
      split; [exact Hf|]. rewrite (Hrows Hf) in H.
      destruct (_ !! 2%nat) eqn:E; [|discriminate].
      apply lookup_lt_Some in E. rewrite length_map in E. lia.
    + intros [Hf H3]. rewrite (Hrows Hf).
      destruct (lookup_lt_is_Some_2 (map (fun row => dot row (p ++ [1])) intrinsics) 2)
        as [w Hw]; [rewrite length_map; lia|].
      rewrite Hw. reflexivity.
  - intros Hf H3. rewrite (Hrows Hf).
    rewrite (lookup_ge_None_2 _ 2) by (rewrite length_map; lia). reflexivity.
  - exact Hbad.
Qed.

End projection_facts.

(** ** val_utils: more on the metric accumulator *)

Section add_metrics_more.
Import Tensor val_utils.

Lemma index_last_ne {A} (l : list A) :
  l <> [] -> exists l' x, l = l' ++ [x] /\ index l (-1) = Ok x.
Proof.
  intros H. destruct (exists_last H) as (l' & x & ->).
  exists l', x. split; [reflexivity|apply index_last].
Qed.

Lemma index_nil {A} (i : Z) : index (@nil A) i = Raise IndexError.
Proof.
  unfold index. simpl. destruct (i <? 0)%Z eqn:E.
  - rewrite Z.add_0_l, E. reflexivity.
  - rewrite E. reflexivity.
Qed.

(** The column sums of [n] more copies of a row. *)
Lemma fold_zip_replicate (n : nat) (v acc : list R) :
  length acc = length v ->
  fold_left (zip_with Rplus) (replicate n v) acc
  = zip_with (fun a x => a + INR n * x) acc v.
Proof.
  revert acc. induction n as [|n IH]; intros acc Hlen.
  - simpl. revert v Hlen. induction acc as [|a acc IHa]; intros [|x v] Hlen;
      try discriminate; [reflexivity|].
    simpl. rewrite <- IHa by (simpl in Hlen; lia). f_equal. lra.
  - cbn [replicate fold_left]. rewrite IH by (rewrite length_zip_with; lia).
    clear IH. revert v Hlen. induction acc as [|a acc IHa]; intros [|x v] Hlen;
      try discriminate; [reflexivity|].
    cbn [zip_with]. rewrite IHa by (simpl in Hlen; lia). f_equal.
    rewrite S_INR. lra.
Qed.

Lemma mean_axis0_replicate (n : nat) (v : list R) :
  mean_axis0 (replicate (S n) v) = v.
Proof.
  cbn [replicate mean_axis0]. rewrite fold_zip_replicate by reflexivity.
  rewrite length_cons, length_replicate.
  assert (H : INR (S n) <> 0) by (apply not_0_INR; discriminate).
  rewrite S_INR in *. induction v as [|x v IH]; [reflexivity|].
  cbn [zip_with map]. rewrite IH. f_equal. field. exact H.
Qed.

Lemma zip_offset (a off : list R) :
  length a = length off ->
  zip_with Rminus (zip_with Rplus a off) a = off.
Proof.
  revert off. induction a as [|x a IH]; intros [|o off] Hlen; try discriminate;
    [reflexivity|].
  simpl. rewrite IH by (simpl in Hlen; lia). f_equal. lra.
Qed.

Lemma broadcast1_same_length {A B C} (f : A -> B -> C) xs ys :
  length xs = length ys -> broadcast1 f xs ys = Some (zip_with f xs ys).
Proof.
  intros H. unfold broadcast1. rewrite broadcast_same_length by exact H.
  rewrite (mapM_total (fun p => f (fst p) (snd p))). f_equal.
  clear H. revert ys. induction xs as [|x xs IH]; intros [|y ys]; simpl;
    try reflexivity. f_equal. apply IH.
Qed.

(** X8: when every predicted step is the true step plus one and the same
    offset, [add_metrics] appends to "paired_mse" and to "final_mse" the
    same vector: the squares of 100 times the offset, whatever the
    trajectory and its number of steps (at least one). *)
Theorem X8_add_metrics_constant_offset (metrics : Metrics)
    (actions : list (list R)) (offset : list R) :
  actions <> [] ->
  Forall (fun step => length step = length offset) actions ->
  add_metrics metrics actions (map (fun step => zip_with Rplus step offset) actions)
  = Ok {| paired_mse := paired_mse metrics ++ [map (fun d => square (d * 100)) offset];
          final_mse := final_mse metrics ++ [map (fun d => square (d * 100)) offset] |}.
Proof.
  intros Hne Hlen. unfold add_metrics.
  assert (Hdiff : broadcast2 Rminus (map (fun step => zip_with Rplus step offset) actions)
                    actions = Some (replicate (length actions) offset)).
  { unfold broadcast2. rewrite broadcast_same_length by apply length_map.
    apply mapM_Some. clear Hne.
    induction Hlen as [|step actions Hstep _ IH]; simpl; constructor; [|exact IH].
    simpl. rewrite broadcast1_same_length, zip_offset; [reflexivity|exact Hstep|].
    rewrite length_zip_with. lia. }
  rewrite Hdiff. cbn [of_option bind].
  destruct (index_last_ne actions Hne) as (actions' & step & -> & Hlast).
  rewrite Hlast, map_app. cbn [map]. rewrite index_last. cbn [bind].
  apply Forall_app in Hlen as [_ Hstep]. apply Forall_cons in Hstep as [Hstep _].
  rewrite broadcast1_same_length, zip_offset by
    (try exact Hstep; rewrite length_zip_with; lia).
  cbn [of_option bind]. rewrite !map_replicate.
  rewrite length_app, Nat.add_comm. cbn [length Nat.add].
  rewrite mean_axis0_replicate. reflexivity.
Qed.

Lemma X8_add_metrics_constant_offset_witness :
  [[1; 2]; [3; 4]; [5; 6]] <> [] /\
  Forall (fun step => length step = length [1; 0]) [[1; 2]; [3; 4]; [5; 6]] /\
  add_metrics {| paired_mse := []; final_mse := [] |} [[1; 2]; [3; 4]; [5; 6]]
    (map (fun step => zip_with Rplus step [1; 0]) [[1; 2]; [3; 4]; [5; 6]])
  = Ok {| paired_mse := [map (fun d => square (d * 100)) [1; 0]];
          final_mse := [map (fun d => square (d * 100)) [1; 0]] |}.
Proof.
  assert (H1 : [[1; 2]; [3; 4]; [5; 6]] <> []) by discriminate.
  assert (H2 : Forall (fun step => length step = length [1; 0]) [[1; 2]; [3; 4]; [5; 6]])
    by (repeat constructor).
  exact (conj H1 (conj H2
    (X8_add_metrics_constant_offset {| paired_mse := []; final_mse := [] |} _ _ H1 H2))).
Defined.

Lemma fold_zip_nonneg (rows : list (list R)) (acc : list R) :
  Forall (Forall (fun x => 0 <= x)) rows -> Forall (fun x => 0 <= x) acc ->
  Forall (fun x => 0 <= x) (fold_left (zip_with Rplus) rows acc).
Proof.
  intros Hrows. revert acc. induction Hrows as [|row rows Hrow _ IH]; intros acc Hacc;
    [exact Hacc|].
  simpl. apply IH. clear IH. revert row Hrow.
  induction Hacc as [|a acc Ha _ IHa]; intros [|x row] Hrow; simpl; constructor.
  - apply Forall_cons in Hrow as [Hx _]. lra.
  - apply IHa. apply Forall_cons in Hrow as [_ Hrow]. exact Hrow.
Qed.

Lemma mean_axis0_nonneg (rows : list (list R)) :
  Forall (Forall (fun x => 0 <= x)) rows -> Forall (fun x => 0 <= x) (mean_axis0 rows).
Proof.
  intros H. destruct H as [|row rows Hrow Hrows]; [constructor|].
  unfold mean_axis0. apply Forall_map.
  eapply Forall_impl; [apply fold_zip_nonneg; eassumption|].
  intros x Hx. cbv beta in *. apply Rmult_le_pos; [exact Hx|].
  left. apply Rinv_0_lt_compat, lt_0_INR. simpl. lia.
Qed.

Lemma square_nonneg d : 0 <= square (d * 100).
Proof. unfold square. nra. Qed.

(** X9: when [add_metrics] returns, each of the two lists has grown by
    exactly one vector, put at its end, the vectors it held are
    untouched, and no entry of the two new vectors is negative. *)
Theorem X9_add_metrics_appends (metrics metrics' : Metrics)
    (actions pred_values : list (list R)) :
  add_metrics metrics actions pred_values = Ok metrics' ->
  exists paired final,
    paired_mse metrics' = paired_mse metrics ++ [paired] /\
    final_mse metrics' = final_mse metrics ++ [final] /\
    Forall (fun x => 0 <= x) paired /\
    Forall (fun x => 0 <= x) final.
Proof.
  unfold add_metrics. intros H.
  destruct (broadcast2 Rminus pred_values actions) as [diff|]; [|discriminate].
  cbn [of_option bind] in H.
  destruct (index pred_values (-1)) as [pl|]; [|discriminate].
  destruct (index actions (-1)) as [al|]; [|discriminate].
  cbn [bind] in H.
  destruct (broadcast1 Rminus pl al) as [dl|]; [|discriminate].
  cbn [of_option bind] in H. injection H as <-. cbn.
  do 2 eexists. split; [reflexivity|]. split; [reflexivity|]. split.
  - apply mean_axis0_nonneg. apply Forall_map, Forall_forall. intros row _.
    apply Forall_map, Forall_forall. intros d _. apply square_nonneg.
  - apply Forall_map, Forall_forall. intros d _. apply square_nonneg.
Qed.

Lemma X9_add_metrics_appends_witness :
  add_metrics {| paired_mse := [[7]]; final_mse := [[8]] |} [[0]] [[1]]
  = Ok {| paired_mse := [[7]; [square ((1 - 0) * 100) / INR 1]];
          final_mse := [[8]; [square ((1 - 0) * 100)]] |} /\
  exists paired final,
    [[7]; [square ((1 - 0) * 100) / INR 1]] = [[7]] ++ [paired] /\
    [[8]; [square ((1 - 0) * 100)]] = [[8]] ++ [final] /\
    Forall (fun x => 0 <= x) paired /\
    Forall (fun x => 0 <= x) final.
Proof.
  assert (H : add_metrics {| paired_mse := [[7]]; final_mse := [[8]] |} [[0]] [[1]]
              = Ok {| paired_mse := [[7]; [square ((1 - 0) * 100) / INR 1]];
                      final_mse := [[8]; [square ((1 - 0) * 100)]] |})
    by reflexivity.
  exact (conj H (X9_add_metrics_appends _ _ _ _ H)).
Defined.

(** X10: [add_metrics] never returns when one of the two trajectories
    has no step: it raises (IndexError at [pred_values[-1]] or
    [actions[-1]], or ValueError at the subtraction when the other
    trajectory has 2 steps or more), and nothing is appended. *)
Theorem X10_add_metrics_no_step (metrics : Metrics) (actions pred_values : list (list R)) :
  (actions = [] \/ pred_values = [] ->
   is_Ok (add_metrics metrics actions pred_values) = false) /\
  add_metrics metrics [] [] = Raise IndexError /\
  (forall step, add_metrics metrics [step] [] = Raise IndexError) /\
  (forall step, add_metrics metrics [] [step] = Raise IndexError).
Proof.
  split; [|split; [|split]].
  - unfold add_metrics. intros [-> | ->].
    + destruct (broadcast2 Rminus pred_values []); [|reflexivity].
      cbn [of_option bind]. destruct (index pred_values (-1)); [|reflexivity].
      cbn [bind]. rewrite index_nil. reflexivity.
    + destruct (broadcast2 Rminus [] actions); [|reflexivity].
      cbn [of_option bind]. rewrite index_nil. reflexivity.
  - reflexivity.
  - intros step. reflexivity.
  - intros step. unfold add_metrics. cbn -[index]. rewrite index_nil.
    change [step] with ([] ++ [step]) at 1. rewrite index_last. reflexivity.
Qed.

End add_metrics_more.

(** ** More on the losses *)

Section loss_more.
Import Tensor ACT.





Lemma Rsum_nonneg l : Forall (fun x => 0 <= x) l -> 0 <= Rsum l.
Proof. induction 1 as [|x l Hx _ IH]; simpl; lra. Qed.

Lemma mean_nonneg l : Forall (fun x => 0 <= x) l -> 0 <= mean l.
Proof.
  intros H. unfold mean, Rdiv. destruct l as [|x l].
  - simpl. lra.
  - apply Rmult_le_pos; [apply Rsum_nonneg, H|].
    left. apply Rinv_0_lt_compat, lt_0_INR. simpl. lia.
Qed.

(** A term of the closed form is never negative. *)
Lemma kl_term_nonneg lv m : 0 <= -0.5 * (1 + lv - m ^ 2 - exp lv).
Proof. pose proof (exp_ineq1_le lv). pose proof (pow2_ge_0 m). lra. Qed.

(** What [kl_divergence] computes once the latents are viewed at rank 2. *)
Lemma kl_divergence_Ok mu logvar total dw mk :
  kl_divergence mu logvar = Ok (total, dw, mk) ->
  exists m lv klds,
    size0 mu <> 0%nat /\ view2 mu = Ok m /\ view2 logvar = Ok lv /\
    broadcast2 (fun lv m => -0.5 * (1 + lv - m ^ 2 - exp lv)) lv m = Some klds /\
    total = [mean (map Rsum klds)] /\ dw = mean_axis0 klds /\
    mk = [mean (map mean klds)].
Proof.
  unfold kl_divergence. intros H.
  destruct (Nat.eqb_spec (size0 mu) 0) as [E|E]; [discriminate|]. cbn [negb assert bind] in H.
  destruct (view2 mu) as [m|]; [|discriminate].
  destruct (view2 logvar) as [lv|]; [|discriminate]. cbn [bind] in H.
  destruct (broadcast2 _ lv m) as [klds|] eqn:Ek; [|discriminate].
  cbn [of_option bind] in H. injection H as <- <- <-.
  exists m, lv, klds. repeat split; assumption || reflexivity.
Qed.

Lemma klds_nonneg lv m klds :
  broadcast2 (fun lv m => -0.5 * (1 + lv - m ^ 2 - exp lv)) lv m = Some klds ->
  Forall (Forall (fun x => 0 <= x)) klds.
Proof.
  unfold broadcast2. apply broadcast_Forall with (P := fun _ => True).
  - intros row row' z _. unfold broadcast1.
    apply broadcast_Forall with (P := fun _ => True).
    + intros x y k _ Hk. injection Hk as <-. apply kl_term_nonneg.
    + apply Forall_forall. auto.
  - apply Forall_forall. auto.
Qed.

(** X11: whenever [kl_divergence] returns, the batch-mean total is a
    tensor of one entry, which is not negative, and no entry of the
    dimension-wise and of the mean divergence is negative either. *)
Theorem X11_kl_divergence_nonneg (mu logvar : Latent) (total dw mk : list R) :
  kl_divergence mu logvar = Ok (total, dw, mk) ->
  exists t,
    total = [t] /\ index total 0 = Ok t /\ 0 <= t /\
    Forall (fun x => 0 <= x) dw /\ Forall (fun x => 0 <= x) mk.
Proof.
  intros H.
  destruct (kl_divergence_Ok _ _ _ _ _ H) as (m & lv & klds & _ & _ & _ & Hk & -> & -> & ->).
  pose proof (klds_nonneg _ _ _ Hk) as Hpos.
  eexists. split; [reflexivity|]. split; [reflexivity|]. split; [|split].
  - apply mean_nonneg, Forall_map. eapply Forall_impl; [exact Hpos|].
    intros row Hrow. apply Rsum_nonneg, Hrow.
  - apply mean_axis0_nonneg, Hpos.
  - constructor; [|constructor]. apply mean_nonneg, Forall_map.
    eapply Forall_impl; [exact Hpos|]. intros row Hrow. apply mean_nonneg, Hrow.
Qed.

Lemma X11_kl_divergence_nonneg_witness :
  exists total dw mk t,
    kl_divergence (Latent2 [[1; 2]]) (Latent2 [[0; 0]]) = Ok (total, dw, mk) /\
    total = [t] /\ 0 <= t.
Proof.
  destruct (X11_kl_divergence_nonneg (Latent2 [[1; 2]]) (Latent2 [[0; 0]]) _ _ _ eq_refl)
    as (t & Ht & _ & Hpos & _).
  do 3 eexists. exists t. split; [reflexivity|]. split; assumption.
Defined.

Lemma zip_with_zeros (D : nat) :
  zip_with Rplus (replicate D 0) (replicate D 0) = replicate D 0.
Proof. rewrite zip_with_replicate. f_equal. lra. Qed.

Lemma mean_axis0_zeros (B D : nat) :
  B <> 0%nat -> mean_axis0 (zeros B D) = replicate D 0.
Proof.
  intros HB. destruct B as [|B]; [contradiction|]. unfold zeros, mean_axis0.
  cbn [replicate].
  assert (Hfold : fold_left (zip_with Rplus) (replicate B (replicate D 0)) (replicate D 0)
                  = replicate D 0).
  { clear. induction B as [|B IH]; [reflexivity|].
    cbn [replicate fold_left]. rewrite zip_with_zeros. exact IH. }
  rewrite Hfold, map_replicate. f_equal. unfold Rdiv. lra.
Qed.

(** X12: at the standard normal latent all that [kl_divergence] returns
    is zero.  For mu and logvar identically zero, of rank 2 or of rank 4,
    with a batch size and a latent dimension other than 0, the batch-mean
    total is [0], the dimension-wise divergence is the zero vector of the
    latent dimension, and the mean divergence is [0]. *)
Theorem X12_kl_standard_normal_all_zero (B D : nat) (mu logvar : Latent) :
  B <> 0%nat -> D <> 0%nat ->
  zero_latent B D mu -> zero_latent B D logvar ->
  kl_divergence mu logvar = Ok ([0], replicate D 0, [0]).
Proof.
  intros HB HD Hmu Hlv. unfold kl_divergence.
  rewrite (size0_zero _ _ _ Hmu), (view2_zero _ _ _ Hmu), (view2_zero _ _ _ Hlv).
  destruct (Nat.eqb_spec B 0) as [|_]; [contradiction|]. cbn [negb assert bind].
  unfold broadcast2. unfold zeros at 1 2.
  erewrite broadcast_replicate;
    [|apply broadcast_replicate; exact (f_equal Some kl_term_zero)].
  cbn [of_option bind]. fold (zeros B D).
  rewrite (mean_axis0_zeros B D HB).
  replace (mean (map Rsum (zeros B D))) with 0.
  2:{ symmetry. apply mean_zero, Forall_map, Forall_replicate.
      apply Rsum_zero, Forall_replicate. reflexivity. }
  replace (mean (map mean (zeros B D))) with 0; [reflexivity|].
  symmetry. apply mean_zero, Forall_map, Forall_replicate.
  apply mean_zero, Forall_replicate. reflexivity.
Qed.

Lemma X12_kl_standard_normal_all_zero_witness :
  2%nat <> 0%nat /\ 3%nat <> 0%nat /\
  zero_latent 2 3 (Latent2 [[0; 0; 0]; [0; 0; 0]]) /\
  zero_latent 2 3 (Latent4 [[[[0]]; [[0]]; [[0]]]; [[[0]]; [[0]]; [[0]]]]) /\
  kl_divergence (Latent2 [[0; 0; 0]; [0; 0; 0]])
                (Latent4 [[[[0]]; [[0]]; [[0]]]; [[[0]]; [[0]]; [[0]]]])
  = Ok ([0], [0; 0; 0], [0]).
Proof.
  assert (H1 : 2%nat <> 0%nat) by discriminate.
  assert (H2 : 3%nat <> 0%nat) by discriminate.
  assert (H3 : zero_latent 2 3 (Latent2 [[0; 0; 0]; [0; 0; 0]])) by (left; reflexivity).
  assert (H4 : zero_latent 2 3 (Latent4 [[[[0]]; [[0]]; [[0]]]; [[[0]]; [[0]]; [[0]]]]))
    by (right; reflexivity).
  exact (conj H1 (conj H2 (conj H3 (conj H4
    (X12_kl_standard_normal_all_zero 2 3 _ _ H1 H2 H3 H4))))).
Defined.

(** X13: a latent of rank 4 with unit trailing axes, [batch, latent, 1, 1],
    gives what its rank 2 view gives, for mu and for logvar; a rank 4
    latent with a cell that is not a single entry cannot be viewed and,
    with a batch that is not empty, the computation raises
    RuntimeError. *)
Theorem X13_kl_rank_4_view (t : list (list R)) (other : Latent)
    (t4 : list (list (list (list R)))) :
  let unsqueezed := Latent4 (map (map (fun x => [[x]])) t) in
  kl_divergence unsqueezed other = kl_divergence (Latent2 t) other /\
  kl_divergence other unsqueezed = kl_divergence other (Latent2 t) /\
  (t4 <> [] ->
   Exists (Exists (fun cell => forall x, cell <> [[x]])) t4 ->
   kl_divergence (Latent4 t4) other = Raise RuntimeError).
Proof.
  assert (Hview : view2 (Latent4 (map (map (fun x => [[x]])) t)) = Ok t).
  { cbn [view2]. replace (mapM _ _) with (Some t); [reflexivity|].
    symmetry. apply mapM_Some. induction t as [|row t IH]; simpl; constructor;
      [|exact IH].
    apply mapM_Some. induction row; simpl; constructor; auto. }
  cbn zeta. split; [|split].
  - unfold kl_divergence. rewrite Hview. cbn [size0 view2]. rewrite length_map.
    reflexivity.
  - unfold kl_divergence. rewrite Hview. reflexivity.
  - intros Hne Hbad. unfold kl_divergence. cbn [size0 view2].
    destruct t4 as [|c t4']; [contradiction|]. cbn [length Nat.eqb negb assert bind].
    replace (mapM _ (c :: t4')) with (@None (list (list R))); [reflexivity|].
    symmetry. apply mapM_None. eapply Exists_impl; [exact Hbad|].
    intros row Hrow. simpl. apply mapM_None. eapply Exists_impl; [exact Hrow|].
    intros cell Hcell. simpl.
    destruct cell as [|[|x [|? ?]] [|? ?]]; try reflexivity.
    exfalso. apply (Hcell x). reflexivity.
Qed.

Lemma masked_l1_Ok actions a_hat is_pad l :
  masked_l1 actions a_hat is_pad = Ok l ->
  exists all_l1 masked,
    broadcast3 (fun a p => Rabs (a - p)) actions a_hat = Some all_l1 /\
    broadcast3 (fun l (keep : bool) => l * (if keep then 1 else 0)) all_l1
      (map (map (fun p => [negb p])) is_pad) = Some masked /\
    l = mean (flatten3 masked).
Proof.
  unfold masked_l1. intros H.
  destruct (broadcast3 _ actions a_hat) as [all_l1|]; [|discriminate].
  cbn [of_option bind] in H.
  destruct (broadcast3 _ all_l1 _) as [masked|] eqn:Em; [|discriminate].
  cbn [of_option bind] in H. injection H as <-.
  exists all_l1, masked. repeat split; assumption || reflexivity.
Qed.







End loss_more.

(** ** The passes and the object *)

Section loss_signs.
Import Tensor ACT.

Lemma kl_total_nonneg mu logvar total dw mk :
  kl_divergence mu logvar = Ok (total, dw, mk) ->
  exists t, total = [t] /\ 0 <= t.
Proof.
  intros H.
  destruct (kl_divergence_Ok _ _ _ _ _ H) as (m & lv & klds & _ & _ & _ & Hk & -> & _).
  eexists. split; [reflexivity|].
  apply mean_nonneg, Forall_map.
  eapply Forall_impl; [exact (klds_nonneg _ _ _ Hk)|].
  intros row Hrow. apply Rsum_nonneg, Hrow.
Qed.

Lemma masked_l1_sign actions a_hat is_pad l :
  masked_l1 actions a_hat is_pad = Ok l -> 0 <= l.
Proof.
  intros H. destruct (masked_l1_Ok _ _ _ _ H) as (all_l1 & masked & Hall & Hmask & ->).
  assert (Hpos : Forall (Forall (Forall (fun x => 0 <= x))) all_l1).
  { revert Hall. unfold broadcast3, broadcast2, broadcast1.
    apply broadcast_Forall with (P := fun _ => True); [|apply Forall_forall; auto].
    intros t1 t2 t3 _. apply broadcast_Forall with (P := fun _ => True);
      [|apply Forall_forall; auto].
    intros v1 v2 v3 _. apply broadcast_Forall with (P := fun _ => True);
      [|apply Forall_forall; auto].
    intros a p z _ Hz. injection Hz as <-. apply Rabs_pos. }
  apply mean_nonneg, flatten3_Forall. revert Hmask.
  unfold broadcast3, broadcast2, broadcast1.
  apply broadcast_Forall with (P := Forall (Forall (fun x => 0 <= x)));
    [|exact Hpos].
  intros t1 t2 t3 Ht. apply broadcast_Forall with (P := Forall (fun x => 0 <= x));
    [|exact Ht].
  intros v1 v2 v3 Hv. apply broadcast_Forall with (P := fun x => 0 <= x); [|exact Hv].
  intros x keep z Hx Hz. injection Hz as <-. destruct keep; lra.
Qed.

End loss_signs.

Section pass_facts.
Import Tensor ACT.
Context {Img : Type}.
Implicit Types (self : @Self Img) (batch : @Batch Img).

(** What a training pass of ACT that returns has computed. *)
Lemma forward_training_Ok batch self p self' :
  ACT._forward_training batch self = (Ok p, self') ->
  exists d out m lv total dw mk,
    _robomimic_to_act_data self batch (camera_keys self) (proprio_keys self) = Ok d /\
    let inp := {| qpos := ad_qpos d; images := ad_images d;
                  env_state := ad_env_state d; modality_arg := None;
                  actions_arg := Some (ad_actions d);
                  is_pad_arg := Some (ad_is_pad d) |} in
    out = nets_policy self inp /\
    self' = log_policy_call inp self /\
    mu out = Some m /\ logvar out = Some lv /\
    kl_divergence m lv = Ok (total, dw, mk) /\
    masked_l1 (ad_actions d) (a_hat out) (ad_is_pad d) = Ok (p_reconstruction_loss p) /\
    index total 0 = Ok (p_kl_loss p) /\
    p_actions p = ad_actions d.
Proof.
  unfold ACT._forward_training, bindM, get_self, lift, call_policy, ret. intros H.
  destruct (_robomimic_to_act_data self batch _ _) as [d|]; [|discriminate].
  destruct (mu (nets_policy self _)) as [m|] eqn:Em; [|discriminate].
  destruct (logvar (nets_policy self _)) as [lv|] eqn:El; [|discriminate].
  cbn [of_option] in H.
  destruct (kl_divergence m lv) as [[[total dw] mk]|] eqn:Ek; [|discriminate].
  destruct (masked_l1 _ _ _) as [l1|] eqn:El1; [|discriminate].
  cbn [fst] in H. destruct (index total 0) as [kl|] eqn:Ei; [|discriminate].
  injection H as <- <-. cbn [p_actions p_kl_loss p_reconstruction_loss].
  exists d. eexists. exists m, lv, total, dw, mk.
  repeat split; try reflexivity; assumption.
Qed.

(** X15: when a training pass of ACT returns, the reconstruction loss
    and the KL loss are not negative; with a KL weight that is not
    negative, the action loss of [_compute_losses] is not below the
    reconstruction loss; the actions of the predictions are those of the
    batch; and the policy was called exactly once, with the actions of
    the batch and without a modality, the step counter and the stored
    chunk being left as they were. *)
Theorem X15_training_losses_nonneg batch self p self' :
  ACT._forward_training batch self = (Ok p, self') ->
  0 <= p_reconstruction_loss p /\
  0 <= p_kl_loss p /\
  (0 <= kl_weight self ->
   p_reconstruction_loss p <= action_loss (_compute_losses self' p batch)) /\
  actions batch = Some (p_actions p) /\
  _step_counter self' = _step_counter self /\
  a_hat_store self' = a_hat_store self /\
  exists inp,
    policy_calls self' = policy_calls self ++ [inp] /\
    actions_arg inp = actions batch /\ modality_arg inp = None.
Proof.
  intros H.
  destruct (forward_training_Ok _ _ _ _ H)
    as (d & out & m & lv & total & dw & mk & Hd & Hrest).
  cbv zeta in Hrest. destruct Hrest as (-> & -> & Hmu & Hlv & Hk & Hl1 & Hi & Hp).
  destruct (kl_total_nonneg _ _ _ _ _ Hk) as (t & -> & Ht).
  injection Hi as Hi.
  destruct (robomimic_to_act_data_Ok _ _ _ _ _ Hd) as (Ha & _).
  assert (Hr : 0 <= p_reconstruction_loss p).
  { eapply masked_l1_sign, Hl1. }
  assert (Hkl : 0 <= p_kl_loss p) by (rewrite <- Hi; exact Ht).
  repeat split; try assumption || reflexivity.
  - intros Hw. unfold _compute_losses. cbn. nra.
  - congruence.
  - eexists. split; [reflexivity|]. split; [cbn; congruence|reflexivity].
Qed.

End pass_facts.

Section pass_runs.
Import Tensor ACT Examples.

Lemma X15_training_losses_nonneg_witness :
  exists p self',
    ACT._forward_training (batch_robot [0; 0]%Z) algo = (Ok p, self') /\
    0 <= p_reconstruction_loss p /\
    0 <= p_kl_loss p /\
    (0 <= kl_weight algo ->
     p_reconstruction_loss p <= action_loss (_compute_losses self' p (batch_robot [0; 0]%Z))) /\
    actions (batch_robot [0; 0]%Z) = Some (p_actions p) /\
    _step_counter self' = _step_counter algo /\
    a_hat_store self' = a_hat_store algo /\
    exists inp,
      policy_calls self' = policy_calls algo ++ [inp] /\
      actions_arg inp = actions (batch_robot [0; 0]%Z) /\ modality_arg inp = None.
Proof.
  destruct (forward_training_zero algo (batch_robot [0; 0]%Z) actions_2_5_3 2 5 3 4)
    as (self' & Hrun & _);
    [discriminate|reflexivity|exact shape3_actions_2_5_3|reflexivity
    |exact has_keys_robot|reflexivity|exact reproduces_policy|].
  eexists _, self'. exact (conj Hrun (X15_training_losses_nonneg _ _ _ _ Hrun)).
Defined.

End pass_runs.

(** ** The adapter of the batches *)

Section adapter_more.
Import Tensor ACT.
Context {Img : Type}.
Implicit Types (self : @Self Img) (batch : @Batch Img) (o : gmap string (@ObsValue Img)).

Lemma for_each_Ok {A B} (f : A -> result B) l ys :
  for_each f l = Ok ys -> Forall2 (fun x y => f x = Ok y) l ys.
Proof.
  revert ys. induction l as [|x l IH]; intros ys H; simpl in H.
  - injection H as <-. constructor.
  - destruct (f x) as [y|] eqn:Ef; simpl in H; [|discriminate].
    destruct (for_each f l) as [ys'|]; simpl in H; [|discriminate].
    injection H as <-. constructor; [exact Ef|apply IH; reflexivity].
Qed.

(** A comprehension raises what its body raises on the first entry on
    which it raises. *)
Lemma for_each_Raise {A B} (f : A -> result B) l e :
  for_each f l = Raise e ->
  exists pre x post, l = pre ++ x :: post /\
    Forall (fun x' => is_Ok (f x') = true) pre /\ f x = Raise e.
Proof.
  induction l as [|x l IH]; intros H; simpl in H; [discriminate|].
  destruct (f x) as [y|e'] eqn:Ef; simpl in H.
  - destruct (for_each f l) as [ys'|e'']; simpl in H; [discriminate|].
    injection H as ->. destruct IH as (pre & x' & post & -> & Hpre & Hx); [reflexivity|].
    exists (x :: pre), x', post. repeat split; [|exact Hx].
    constructor; [rewrite Ef; reflexivity|exact Hpre].
  - injection H as ->. exists [], x, l. repeat split; [constructor|exact Ef].
Qed.

(** Row [b] of a concatenation along axis 1 is the concatenation of the
    rows [b] of the tensors, in order; all of them have the rows of the
    result. *)
Lemma cat_axis1_rows {A} (ts : list (list (list A))) r :
  cat_axis1 ts = Some r ->
  ts <> [] /\
  Forall (fun t => length t = length r) ts /\
  forall b row, r !! b = Some row ->
    exists rows, Forall2 (fun t x => t !! b = Some x) ts rows /\ row = concat rows.
Proof.
  revert r. induction ts as [|t ts IH]; intros r H; [discriminate|].
  split; [discriminate|].
  destruct ts as [|t' ts].
  - injection H as <-. split; [repeat constructor|].
    intros b row Hrow. exists [row]. split; [repeat constructor; exact Hrow|].
    simpl. rewrite app_nil_r. reflexivity.
  - change (cat_axis1 (t :: t' :: ts)) with
      (match cat_axis1 (t' :: ts) with
       | Some r => if Nat.eqb (length t) (length r) then Some (zip_with app t r) else None
       | None => None
       end) in H.
    destruct (cat_axis1 (t' :: ts)) as [r'|]; [|discriminate].
    destruct (Nat.eqb (length t) (length r')) eqn:El; [|discriminate].
    injection H as <-. apply Nat.eqb_eq in El.
    destruct (IH r' eq_refl) as (_ & Hall & Hrows).
    assert (Hlen : length (zip_with app t r') = length r')
      by (rewrite length_zip_with; lia).
    split.
    + constructor; [congruence|].
      eapply Forall_impl; [exact Hall|]. intros; simpl in *; congruence.
    + intros b row Hrow. apply lookup_zip_with_Some in Hrow as (x & y & -> & Hx & Hy).
      destruct (Hrows b y Hy) as (rows & Hr & ->).
      exists (x :: rows). split; [constructor; assumption|reflexivity].
Qed.

Lemma robomimic_to_act_data_inv self batch cam_keys proprio_keys d :
  _robomimic_to_act_data self batch cam_keys proprio_keys = Ok d ->
  exists vs ts pad_mask,
    for_each (getitem (obs batch)) proprio_keys = Ok vs /\
    for_each as_low_dim vs = Ok ts /\
    cat_axis1 ts = Some (ad_qpos d) /\
    for_each (fun cam_name =>
                let? image := getitem (obs batch) cam_name in
                let? image := as_rgb image in
                Ok (normalize self (color_jitter self image))) cam_keys
      = Ok (ad_images d) /\
    ad_images d <> [] /\
    ad_env_state d = zeros (length (ad_qpos d)) 10 /\
    actions batch = Some (ad_actions d) /\
    obs batch !! "pad_mask" = Some (PadMask pad_mask) /\
    ad_is_pad d = map (map (fun m => (m =? 0)%Z)) pad_mask /\
    forallb (fun row => (Z.of_nat (length row) =? chunk_size self)%Z) (ad_is_pad d) = true.
Proof.
  unfold _robomimic_to_act_data. intros H.
  destruct (for_each (getitem (obs batch)) proprio_keys) as [vs|] eqn:Evs; simpl in H; [|discriminate].
  destruct (for_each as_low_dim vs) as [ts|] eqn:Ets; simpl in H; [|discriminate].
  destruct (cat_axis1 ts) as [q|] eqn:Eq; simpl in H; [|discriminate].
  destruct (for_each _ cam_keys) as [ims|] eqn:Eims; simpl in H; [|discriminate].
  destruct ims as [|im ims]; simpl in H; [discriminate|].
  destruct (actions batch) as [a|] eqn:Ea; simpl in H; [|discriminate].
  unfold getitem in H.
  destruct (obs batch !! "pad_mask") as [[| |pm]|] eqn:Epm; simpl in H; try discriminate.
  destruct (forallb _ _) eqn:Ef; simpl in H; [|discriminate].
  injection H as <-. simpl. exists vs, ts, pm.
  split_and!; try reflexivity; try assumption. discriminate.
Qed.

(** X16: what the adapter returns.  Row b of [qpos] is the
    concatenation, in the order of the proprioceptive keys, of the rows b
    of the observations under these keys, which all have the batch size
    of [qpos]; there is one image batch per camera key, in the order of
    the keys, each the observation under the key passed through the
    colour jitter and then through the normalisation; [env_state] is a
    zero matrix of 10 columns with the rows of [qpos]; the actions are
    those of the batch; a timestep is padded exactly when its entry of
    the mask is 0, and every sample has [chunk_size] timesteps. *)
Theorem X16_adapter_data self batch cam_keys proprio_keys d :
  _robomimic_to_act_data self batch cam_keys proprio_keys = Ok d ->
  (exists ts,
     Forall2 (fun k t => obs batch !! k = Some (LowDim t) /\
                         length t = length (ad_qpos d)) proprio_keys ts /\
     forall b row, ad_qpos d !! b = Some row ->
       exists rows, Forall2 (fun t x => t !! b = Some x) ts rows /\ row = concat rows) /\
  Forall2 (fun k image => exists raw, obs batch !! k = Some (Rgb raw) /\
                          image = normalize self (color_jitter self raw))
    cam_keys (ad_images d) /\
  ad_env_state d = replicate (length (ad_qpos d)) (replicate 10 0) /\
  actions batch = Some (ad_actions d) /\
  exists pad_mask,
    obs batch !! "pad_mask" = Some (PadMask pad_mask) /\
    Forall2 (Forall2 (fun m (p : bool) => p = true <-> m = 0%Z)) pad_mask (ad_is_pad d) /\
    Forall (fun row => Z.of_nat (length row) = chunk_size self) (ad_is_pad d).
Proof.
  intros H.
  destruct (robomimic_to_act_data_inv _ _ _ _ _ H)
    as (vs & ts & pm & Hvs & Hts & Hcat & Hims & _ & Henv & Ha & Hpm & Hpad & Hchunk).
  destruct (cat_axis1_rows _ _ Hcat) as (_ & Hlen & Hrows).
  split; [|split; [|split; [exact Henv|split; [exact Ha|]]]].
  - exists ts. split; [|exact Hrows].
    apply for_each_Ok in Hvs. apply for_each_Ok in Hts.
    clear H Hcat Hrows. revert vs ts Hvs Hts Hlen.
    induction proprio_keys as [|k ks IH]; intros vs ts Hvs Hts Hlen.
    + inversion Hvs; subst. inversion Hts; subst. constructor.
    + inversion Hvs as [|? v ? vs' Hk Hvs']; subst.
      inversion Hts as [|? t ? ts' Hv Hts']; subst.
      inversion Hlen as [|? ? Ht Hlen']; subst.
      constructor; [|exact (IH _ _ Hvs' Hts' Hlen')].
      split; [|exact Ht]. unfold getitem in Hk.
      destruct (obs batch !! k) as [v'|]; [|discriminate].
      injection Hk as ->. destruct v; try discriminate. injection Hv as ->. reflexivity.
  - apply for_each_Ok in Hims. eapply Forall2_impl; [exact Hims|].
    intros k image Hk. simpl in Hk. unfold getitem in Hk.
    destruct (obs batch !! k) as [[| raw |]|]; try discriminate.
    injection Hk as <-. exists raw. split; reflexivity.
  - exists pm. split; [exact Hpm|]. split.
    + rewrite Hpad. clear. induction pm as [|row pm IH]; simpl; constructor; [|exact IH].
      induction row as [|m row IHr]; simpl; constructor; [|exact IHr].
      rewrite Z.eqb_eq. reflexivity.
    + apply Forall_forall. intros row Hrow.
      rewrite forallb_forall in Hchunk.
      apply Z.eqb_eq, Hchunk, list_elem_of_In, Hrow.
Qed.

(** X17: on a batch with a proprioceptive key and a camera key at least,
    whose observations are of the kinds that the adapter reads and whose
    padding mask has a sample, the adapter raises nothing but KeyError,
    AssertionError and RuntimeError.  Its KeyError names "actions" when
    the batch has no actions, or else a key that it was asked for (a
    proprioceptive key, a camera key, or "pad_mask") and that the
    observations lack; its AssertionError comes with a padding mask
    holding a sample whose number of timesteps is not [chunk_size]. *)
Theorem X17_adapter_raises self batch cam_keys proprio_keys e :
  proprio_keys <> [] -> cam_keys <> [] ->
  expected_kinds (obs batch) cam_keys proprio_keys ->
  _robomimic_to_act_data self batch cam_keys proprio_keys = Raise e ->
  match e with
  | KeyError k =>
      (k = "actions" /\ actions batch = None) \/
      (k ∈ proprio_keys ++ cam_keys ++ ["pad_mask"] /\ obs batch !! k = None)
  | AssertionError =>
      exists pad_mask row,
        obs batch !! "pad_mask" = Some (PadMask pad_mask) /\
        row ∈ pad_mask /\ Z.of_nat (length row) <> chunk_size self
  | RuntimeError => True
  | _ => False
  end.
Proof.
  intros Hpk Hck (Hkp & Hkc & Hkm). unfold _robomimic_to_act_data. intros H.
  destruct (for_each (getitem (obs batch)) proprio_keys) as [vs|e0] eqn:Evs; simpl in H.
  2:{ injection H as ->. apply for_each_Raise in Evs as (pre & k & post & -> & _ & Hk).
      unfold getitem in Hk. destruct (obs batch !! k) eqn:Ek; [discriminate|].
      injection Hk as <-. right. split; [|exact Ek].
      rewrite !elem_of_app, elem_of_cons. auto. }
  apply for_each_Ok in Evs.
  destruct (for_each as_low_dim vs) as [ts|e0] eqn:Ets; simpl in H.
  2:{ exfalso. apply for_each_Raise in Ets as (pre & v & post & -> & _ & Hv).
      apply Forall2_app_inv_r in Evs as (ks1 & ks2 & _ & Hks2 & ->).
      apply Forall2_cons_inv_r in Hks2 as (k & ks3 & Hk & _ & ->).
      unfold getitem in Hk. destruct (obs batch !! k) as [v'|] eqn:Ek; [|discriminate].
      injection Hk as ->.
      destruct (Hkp k v) as (t & ->); [rewrite elem_of_app, elem_of_cons; auto|exact Ek|].
      discriminate. }
  apply for_each_Ok in Ets.
  destruct (cat_axis1 ts) as [q|] eqn:Ecat; simpl in H.
  2:{ injection H as <-. exact I. }
  destruct (for_each _ cam_keys) as [ims|e0] eqn:Eims; simpl in H.
  2:{ injection H as ->. apply for_each_Raise in Eims as (pre & k & post & -> & _ & Hk).
      unfold getitem in Hk. destruct (obs batch !! k) as [v|] eqn:Ek; simpl in Hk.
      - exfalso. destruct (Hkc k v) as (image & ->);
          [rewrite elem_of_app, elem_of_cons; auto|exact Ek|]. discriminate.
      - injection Hk as <-. right. split; [|exact Ek].
        rewrite !elem_of_app, elem_of_cons. auto. }
  destruct ims as [|im ims]; simpl in H.
  { exfalso. apply for_each_length in Eims. destruct cam_keys; [contradiction|discriminate]. }
  destruct (actions batch) as [a|] eqn:Ea; simpl in H; [|injection H as <-; auto].
  unfold getitem in H.
  destruct (obs batch !! "pad_mask") as [v|] eqn:Epm; simpl in H.
  2:{ injection H as <-. right. split; [|exact Epm].
      rewrite !elem_of_app, list_elem_of_singleton. auto. }
  destruct (Hkm v eq_refl) as (pm & -> & Hpm). simpl in H.
  destruct (forallb _ _) eqn:Ef; simpl in H; [discriminate|]. injection H as <-.
  apply not_true_iff_false in Ef. rewrite forallb_forall in Ef.
  assert (Hex : Exists (fun row => Z.of_nat (length row) <> chunk_size self) pm).
  { apply not_Forall_Exists; [intros row; apply _|]. intros Hall. apply Ef.
    intros row Hrow. apply Z.eqb_eq.
    apply in_map_iff in Hrow as (row' & <- & Hrow').
    rewrite length_map.
    exact (proj1 (Forall_forall _ _) Hall row' (proj2 (list_elem_of_In _ _) Hrow')). }
  apply Exists_exists in Hex as (row & Hrow & Hlen).
  exists pm, row. repeat split; assumption.
Qed.

End adapter_more.

Section adapter_runs.
Import Tensor ACT Examples.

Lemma X16_adapter_data_witness :
  exists d,
    _robomimic_to_act_data algo (batch_robot [0; 0]%Z)
      ["front_img_1"; "right_wrist_img"] ["joint_positions"] = Ok d /\
    (exists ts,
       Forall2 (fun k t => obs (batch_robot [0; 0]%Z) !! k = Some (LowDim t) /\
                           length t = length (ad_qpos d)) ["joint_positions"] ts /\
       forall b row, ad_qpos d !! b = Some row ->
         exists rows, Forall2 (fun t x => t !! b = Some x) ts rows /\ row = concat rows) /\
    Forall2 (fun k image => exists raw, obs (batch_robot [0; 0]%Z) !! k = Some (Rgb raw) /\
                            image = normalize algo (color_jitter algo raw))
      ["front_img_1"; "right_wrist_img"] (ad_images d) /\
    ad_env_state d = replicate (length (ad_qpos d)) (replicate 10 0) /\
    actions (batch_robot [0; 0]%Z) = Some (ad_actions d) /\
    exists pad_mask,
      obs (batch_robot [0; 0]%Z) !! "pad_mask" = Some (PadMask pad_mask) /\
      Forall2 (Forall2 (fun m (p : bool) => p = true <-> m = 0%Z)) pad_mask (ad_is_pad d) /\
      Forall (fun row => Z.of_nat (length row) = chunk_size algo) (ad_is_pad d).
Proof.
  exists {| ad_qpos := [[0; 0]; [0; 0]]; ad_images := [tt; tt];
            ad_env_state := zeros 2 10; ad_actions := actions_2_5_3;
            ad_is_pad := replicate 2 (replicate 5 false) |}.
  assert (H : _robomimic_to_act_data algo (batch_robot [0; 0]%Z)
                ["front_img_1"; "right_wrist_img"] ["joint_positions"]
              = Ok {| ad_qpos := [[0; 0]; [0; 0]]; ad_images := [tt; tt];
                      ad_env_state := zeros 2 10; ad_actions := actions_2_5_3;
                      ad_is_pad := replicate 2 (replicate 5 false) |})
    by reflexivity.
  exact (conj H (X16_adapter_data _ _ _ _ _ H)).
Defined.

Lemma expected_kinds_robot :
  expected_kinds obs_robot ["front_img_1"; "right_wrist_img"] ["joint_positions"].
Proof.
  split; [|split].
  - intros k v Hk Hv. apply list_elem_of_singleton in Hk as ->.
    vm_compute in Hv. injection Hv as <-. eexists. reflexivity.
  - intros k v Hk Hv. rewrite !elem_of_cons, elem_of_nil in Hk.
    destruct Hk as [->|[->|[]]]; vm_compute in Hv; injection Hv as <-;
      eexists; reflexivity.
  - intros v Hv. vm_compute in Hv. injection Hv as <-.
    eexists. split; [reflexivity|discriminate].
Qed.

Lemma X17_adapter_raises_witness :
  ["joint_positions"] <> ([] : list string) /\
  ["front_img_1"; "right_wrist_img"] <> ([] : list string) /\
  expected_kinds obs_robot ["front_img_1"; "right_wrist_img"] ["joint_positions"] /\
  _robomimic_to_act_data algo
    {| obs := obs_robot; actions := None; type_ := Some [0; 0]%Z |}
    ["front_img_1"; "right_wrist_img"] ["joint_positions"] = Raise (KeyError "actions") /\
  (("actions" = "actions" /\
    actions {| obs := obs_robot; actions := None; type_ := Some [0; 0]%Z |} = None) \/
   ("actions" ∈ ["joint_positions"] ++ ["front_img_1"; "right_wrist_img"] ++ ["pad_mask"] /\
    obs {| obs := obs_robot; actions := None; type_ := Some [0; 0]%Z |} !! "actions" = None)).
Proof.
  assert (H1 : ["joint_positions"] <> ([] : list string)) by discriminate.
  assert (H2 : ["front_img_1"; "right_wrist_img"] <> ([] : list string)) by discriminate.
  pose proof expected_kinds_robot as H3.
  assert (H : _robomimic_to_act_data algo
                {| obs := obs_robot; actions := None; type_ := Some [0; 0]%Z |}
                ["front_img_1"; "right_wrist_img"] ["joint_positions"]
              = Raise (KeyError "actions")) by reflexivity.
  exact (conj H1 (conj H2 (conj H3 (conj H
    (X17_adapter_raises algo
       {| obs := obs_robot; actions := None; type_ := Some [0; 0]%Z |}
       _ _ _ H1 H2 H3 H))))).
Defined.

End adapter_runs.

(** ** The evaluation pass of ACT *)

Section forward_eval_facts.
Import Tensor ACT.
Context {Img : Type}.
Implicit Types (self : @Self Img) (batch : @Batch Img).

(** The adapter on a batch without actions whose observations it can
    read raises at the actions. *)
Lemma robomimic_to_act_data_no_actions self batch cam_keys proprio_keys B :
  has_keys B (obs batch) cam_keys proprio_keys ->
  actions batch = None ->
  _robomimic_to_act_data self batch cam_keys proprio_keys = Raise (KeyError "actions").
Proof.
  intros (Hpne & Hp & Hcne & Hc) Ha. unfold _robomimic_to_act_data.
  destruct (proprio_Some _ _ _ Hpne Hp) as (q & Hq & _).
  destruct (for_each (getitem (obs batch)) proprio_keys) as [vs|]; simpl in *;
    [|discriminate].
  destruct (for_each as_low_dim vs) as [ts|]; simpl in *; [|discriminate].
  destruct (cat_axis1 ts); simpl in *; [|discriminate].
  destruct (images_Some _ _ (fun image => normalize self (color_jitter self image)) Hc)
    as (ims & Hims & Hlen).
  rewrite Hims. simpl.
  destruct ims as [|im ims]; [destruct cam_keys; [contradiction|discriminate]|].
  simpl. rewrite Ha. reflexivity.
Qed.

(** Without actions the adapter never returns. *)
Lemma robomimic_to_act_data_needs_actions self batch cam_keys proprio_keys :
  actions batch = None ->
  exists e, _robomimic_to_act_data self batch cam_keys proprio_keys = Raise e.
Proof.
  intros Ha.
  destruct (_robomimic_to_act_data self batch cam_keys proprio_keys) as [d|e] eqn:E;
    [|exists e; reflexivity].
  apply robomimic_to_act_data_Ok in E as (E & _). congruence.
Qed.

(** The actions of the batch reach nothing but the [actions] of the
    tuple. *)
Lemma robomimic_to_act_data_set_actions self batch cam_keys proprio_keys a :
  _robomimic_to_act_data self (set_actions a batch) cam_keys proprio_keys =
  let? d := _robomimic_to_act_data self (set_actions [] batch) cam_keys proprio_keys in
  Ok {| ad_qpos := ad_qpos d; ad_images := ad_images d; ad_env_state := ad_env_state d;
        ad_actions := a; ad_is_pad := ad_is_pad d |}.
Proof.
  unfold _robomimic_to_act_data. cbn [obs actions set_actions of_option].
  destruct (for_each (getitem (obs batch)) proprio_keys) as [vs|]; simpl; [|reflexivity].
  destruct (for_each as_low_dim vs) as [ts|]; simpl; [|reflexivity].
  destruct (cat_axis1 ts); simpl; [|reflexivity].
  destruct (for_each _ cam_keys) as [ims|]; simpl; [|reflexivity].
  destruct (cat_unsqueezed ims); simpl; [|reflexivity].
  destruct (getitem (obs batch) "pad_mask") as [pm|]; simpl; [|reflexivity].
  destruct (as_pad_mask pm); simpl; [|reflexivity].
  destruct (assert _); reflexivity.
Qed.

(** X18: the evaluation pass of ACT hands no actions to the policy, yet
    it needs the batch to hold some.  On a batch without actions it
    raises, with the object as it was and the policy not called; the
    exception is KeyError "actions" when the observations hold the keys
    the object reads.  On a batch with actions, their value has no
    effect on the outcome.  When the pass returns, the policy was called
    exactly once, without actions and without a modality, the pass
    returns the chunk the policy predicted, and the step counter and the
    stored chunk are as they were. *)
Theorem X18_forward_eval_actions batch self :
  (actions batch = None ->
   (exists e, ACT.forward_eval batch self = (Raise e, self)) /\
   (forall B, has_keys B (obs batch) (camera_keys self) (proprio_keys self) ->
      ACT.forward_eval batch self = (Raise (KeyError "actions"), self))) /\
  (forall a a',
     ACT.forward_eval (set_actions a batch) self
     = ACT.forward_eval (set_actions a' batch) self) /\
  (forall chunk self', ACT.forward_eval batch self = (Ok chunk, self') ->
     exists inp,
       policy_calls self' = policy_calls self ++ [inp] /\
       actions_arg inp = None /\ modality_arg inp = None /\
       chunk = a_hat (nets_policy self inp) /\
       _step_counter self' = _step_counter self /\
       a_hat_store self' = a_hat_store self).
Proof.
  split; [|split].
  - intros Ha. split.
    + destruct (robomimic_to_act_data_needs_actions self batch
                  (camera_keys self) (proprio_keys self) Ha) as (e & He).
      exists e. unfold ACT.forward_eval, bindM, get_self, lift. rewrite He. reflexivity.
    + intros B Hkeys. unfold ACT.forward_eval, bindM, get_self, lift.
      rewrite (robomimic_to_act_data_no_actions _ _ _ _ _ Hkeys Ha). reflexivity.
  - intros a a'. unfold ACT.forward_eval, bindM, get_self, lift, call_policy, ret.
    rewrite (robomimic_to_act_data_set_actions _ _ _ _ a).
    rewrite (robomimic_to_act_data_set_actions _ _ _ _ a').
    destruct (_robomimic_to_act_data self (set_actions [] batch) _ _); reflexivity.
  - intros chunk self'. unfold ACT.forward_eval, bindM, get_self, lift, call_policy, ret.
    destruct (_robomimic_to_act_data self batch _ _) as [d|]; [|discriminate].
    intros H. injection H as <- <-. eexists. repeat split.
Qed.

End forward_eval_facts.

(** ** Calls of [get_action] outside a well-formed rollout *)

Section get_action_more.
Import Tensor ACT.
Context {Img : Type}.
Implicit Types (self : @Self Img) (o : gmap string (@ObsValue Img)).

Lemma with_state_self self :
  with_state self (_step_counter self) (a_hat_store self) (policy_calls self) = self.
Proof. destruct self; reflexivity. Qed.

Lemma get_action_inputs_with_state self c store calls o :
  get_action_inputs (with_state self c store calls) o = get_action_inputs self o.
Proof. reflexivity. Qed.

(** [get_action] on any object, by cases on what stops it. *)
Lemma get_action_cases o self :
  get_action o self =
  if nets_training self then (Raise AssertionError, self)
  else match get_action_inputs self o with
       | Raise e => (Raise e, self)
       | Ok inp =>
           if (query_frequency self =? 0)%Z then (Raise ZeroDivisionError, self)
           else
             let r := (_step_counter self mod query_frequency self)%Z in
             let store' := if (r =? 0)%Z then Some (a_hat (nets_policy self inp))
                           else a_hat_store self in
             let calls' := if (r =? 0)%Z then policy_calls self ++ [inp]
                           else policy_calls self in
             match store' with
             | None => (Raise TypeError, with_state self (_step_counter self) store' calls')
             | Some chunk =>
                 match timestep chunk r with
                 | Ok action =>
                     (Ok action, with_state self (_step_counter self + 1) store' calls')
                 | Raise e => (Raise e, with_state self (_step_counter self) store' calls')
                 end
             end
       end.
Proof.
  destruct (nets_training self) eqn:Htr.
  { unfold get_action, bindM, get_self, lift. rewrite Htr. reflexivity. }
  destruct (get_action_inputs self o) as [inp|e] eqn:Hinp.
  2:{ unfold get_action, bindM, get_self, lift. rewrite Htr, Hinp. reflexivity. }
  destruct (Z.eqb_spec (query_frequency self) 0) as [Hq|Hq].
  { unfold get_action, bindM, get_self, lift, mod_. rewrite Htr, Hinp, Hq. reflexivity. }
  rewrite <- (with_state_self self) at 1.
  rewrite (get_action_step self _ _ _ o inp Htr Hq Hinp). reflexivity.
Qed.

(** X19: whatever the object and the observation, a call of
    [get_action] changes nothing of the object but the step counter, the
    stored chunk and the record of the policy calls; the step counter
    moves by one when the call returns an action and stays when it
    raises; and either the policy is not called and the stored chunk
    stays, or the step counter is a multiple of the query frequency, the
    policy is called once, on the inputs built from the observation, and
    its chunk is stored. *)
Theorem X19_get_action_frame o self :
  with_state self (_step_counter (snd (get_action o self)))
    (a_hat_store (snd (get_action o self))) (policy_calls (snd (get_action o self)))
  = snd (get_action o self) /\
  _step_counter (snd (get_action o self))
  = (if is_Ok (fst (get_action o self)) then _step_counter self + 1
     else _step_counter self)%Z /\
  ((policy_calls (snd (get_action o self)) = policy_calls self /\
    a_hat_store (snd (get_action o self)) = a_hat_store self) \/
   (exists inp,
      get_action_inputs self o = Ok inp /\
      (_step_counter self mod query_frequency self = 0)%Z /\
      policy_calls (snd (get_action o self)) = policy_calls self ++ [inp] /\
      a_hat_store (snd (get_action o self)) = Some (a_hat (nets_policy self inp)))).
Proof.
  rewrite get_action_cases.
  destruct (nets_training self).
  { cbn [fst snd is_Ok]. rewrite with_state_self. auto. }
  destruct (get_action_inputs self o) as [inp|e].
  2:{ cbn [fst snd is_Ok]. rewrite with_state_self. auto. }
  destruct (query_frequency self =? 0)%Z.
  { cbn [fst snd is_Ok]. rewrite with_state_self. auto. }
  cbv zeta.
  destruct (Z.eqb_spec (_step_counter self mod query_frequency self) 0) as [Hr|Hr].
  - destruct (timestep _ _); cbn [fst snd is_Ok with_state _step_counter a_hat_store
                                   policy_calls];
      (split; [reflexivity|]); (split; [reflexivity|]); right; exists inp; auto.
  - destruct (a_hat_store self) as [chunk|] eqn:Es.
    + destruct (timestep _ _); cbn [fst snd is_Ok with_state _step_counter a_hat_store
                                     policy_calls];
        (split; [reflexivity|]); (split; [reflexivity|]); left; auto.
    + cbn [fst snd is_Ok with_state _step_counter a_hat_store policy_calls].
      (split; [reflexivity|]); (split; [reflexivity|]); left; auto.
Qed.

(** X20: the calls of [get_action] that fail before the policy is
    reached leave the object as it was.  In training mode, which is the
    mode of a freshly created object, the call raises AssertionError
    whatever the observation; in evaluation mode, an observation from
    which the inputs cannot be built raises what building them raises
    (the KeyError of a proprioceptive key that the observation lacks,
    when it holds the keys before it); with the inputs built, a query
    frequency of 0 raises ZeroDivisionError; and with a step counter
    that is not a multiple of the query frequency and no chunk stored,
    the call raises TypeError. *)
Theorem X20_get_action_early_failures o self :
  (nets_training self = true -> get_action o self = (Raise AssertionError, self)) /\
  (forall seq_length rgb low_dim low_dim_hand w model nrm jitter,
     self = _create_networks seq_length rgb low_dim low_dim_hand w model nrm jitter ->
     get_action o self = (Raise AssertionError, self)) /\
  (nets_training self = false ->
   (forall e, get_action_inputs self o = Raise e -> get_action o self = (Raise e, self)) /\
   (forall pre k post, proprio_keys self = pre ++ k :: post ->
      Forall (fun k' => is_Some (o !! k')) pre -> o !! k = None ->
      get_action o self = (Raise (KeyError k), self)) /\
   (forall inp, get_action_inputs self o = Ok inp ->
      (query_frequency self = 0%Z ->
       get_action o self = (Raise ZeroDivisionError, self)) /\
      (query_frequency self <> 0%Z ->
       (_step_counter self mod query_frequency self)%Z <> 0%Z ->
       a_hat_store self = None ->
       get_action o self = (Raise TypeError, self)))).
Proof.
  split; [|split].
  - intros Htr. rewrite get_action_cases, Htr. reflexivity.
  - intros. subst self. reflexivity.
  - intros Htr. assert (Hinp : forall e, get_action_inputs self o = Raise e ->
                                 get_action o self = (Raise e, self)).
    { intros e He. rewrite get_action_cases, Htr, He. reflexivity. }
    split; [exact Hinp|]. split.
    + intros pre k post Hkeys Hpre Hk. apply Hinp. unfold get_action_inputs.
      rewrite Hkeys. clear Hkeys.
      replace (for_each (getitem o) (pre ++ k :: post)) with (@Raise (list (@ObsValue Img)) (KeyError k));
        [reflexivity|].
      induction Hpre as [|k' pre [v Hv] _ IH]; simpl.
      * unfold getitem at 1. rewrite Hk. reflexivity.
      * unfold getitem at 1. rewrite Hv. simpl. rewrite <- IH. reflexivity.
    + intros inp Hi. split.
      * intros Hq. rewrite get_action_cases, Htr, Hi, Hq. reflexivity.
      * intros Hq Hr Hs. rewrite get_action_cases, Htr, Hi.
        apply Z.eqb_neq in Hq, Hr. rewrite Hq. cbv zeta. rewrite Hr, Hs.
        rewrite <- Hs. rewrite with_state_self. reflexivity.
Qed.

(** The timestep of a chunk at an index that one of its trajectories
    does not reach. *)
Lemma timestep_out_of_range chunk (r : Z) :
  (0 <= r)%Z ->
  Exists (fun trajectory => (Z.of_nat (length trajectory) <= r)%Z) chunk ->
  timestep chunk r = Raise IndexError.
Proof.
  intros Hr H. unfold timestep.
  assert (Hidx : forall trajectory : list (list R),
            index trajectory r = Raise IndexError \/ exists v, index trajectory r = Ok v).
  { intros trajectory. unfold index.
    destruct (r <? 0)%Z; destruct (_ <? 0)%Z; auto;
      destruct (trajectory !! _); eauto. }
  induction H as [trajectory chunk Hlen|trajectory chunk _ IH]; simpl.
  - unfold index. destruct (Z.ltb_spec r 0); [lia|].
    destruct (Z.ltb_spec r 0); [lia|].
    rewrite lookup_ge_None_2 by lia. reflexivity.
  - destruct (Hidx trajectory) as [->|[v ->]]; [reflexivity|]. simpl.
    rewrite IH. reflexivity.
Qed.

(** X21: in evaluation mode, with a query frequency q > 0, when the step
    counter is not a multiple of q and the stored chunk has a trajectory
    without a timestep at index (counter mod q), a call of [get_action]
    raises IndexError and leaves the object as it was, the step counter
    included; so does every rollout of one call or more on observations
    that hold the keys: the object raises until it is reset. *)
Theorem X21_short_chunk_blocks self chunk observations :
  nets_training self = false ->
  (0 < query_frequency self)%Z ->
  (_step_counter self mod query_frequency self)%Z <> 0%Z ->
  a_hat_store self = Some chunk ->
  Exists (fun trajectory =>
            (Z.of_nat (length trajectory)
             <= _step_counter self mod query_frequency self)%Z) chunk ->
  observations <> [] ->
  Forall (fun o => is_Ok (get_action_inputs self o) = true) observations ->
  rollout observations self = (Raise IndexError, self) /\
  Forall (fun o => get_action o self = (Raise IndexError, self)) observations.
Proof.
  intros Htr Hq Hr Hs Hshort Hne Hall.
  assert (Hone : forall o, is_Ok (get_action_inputs self o) = true ->
                   get_action o self = (Raise IndexError, self)).
  { intros o Ho. rewrite get_action_cases, Htr.
    destruct (get_action_inputs self o) as [inp|]; [|discriminate].
    destruct (Z.eqb_spec (query_frequency self) 0) as [|_]; [lia|].
    cbv zeta. apply Z.eqb_neq in Hr. rewrite Hr, Hs.
    rewrite timestep_out_of_range;
      [|apply Z.mod_pos_bound; exact Hq|exact Hshort].
    rewrite <- Hs, with_state_self. reflexivity. }
  split.
  - destruct observations as [|o rest]; [contradiction|].
    inversion Hall as [|? ? Ho _]; subst.
    cbn [rollout]. unfold bindM. rewrite (Hone o Ho). reflexivity.
  - eapply Forall_impl; [exact Hall|]. exact Hone.
Qed.

(** X22: in evaluation mode, with a query frequency other than 0, a call
    of [get_action] at a step counter that is not a multiple of the query
    frequency does not depend on the observation, as long as the inputs
    can be built from it: two observations give the same action and
    leave the same object, the policy is not called, and the action is
    read from the chunk stored before the call, whichever call stored
    it. *)
Theorem X22_observation_unused_between_queries self o1 o2 :
  nets_training self = false ->
  query_frequency self <> 0%Z ->
  (_step_counter self mod query_frequency self)%Z <> 0%Z ->
  is_Ok (get_action_inputs self o1) = true ->
  is_Ok (get_action_inputs self o2) = true ->
  get_action o1 self = get_action o2 self /\
  policy_calls (snd (get_action o1 self)) = policy_calls self /\
  a_hat_store (snd (get_action o1 self)) = a_hat_store self /\
  forall action, fst (get_action o1 self) = Ok action ->
    exists chunk, a_hat_store self = Some chunk /\
      timestep chunk (_step_counter self mod query_frequency self) = Ok action.
Proof.
  intros Htr Hq Hr H1 H2. rewrite !get_action_cases, Htr.
  destruct (get_action_inputs self o1) as [inp1|]; [|discriminate].
  destruct (get_action_inputs self o2) as [inp2|]; [|discriminate].
  apply Z.eqb_neq in Hq, Hr. rewrite Hq. cbv zeta. rewrite Hr.
  split; [reflexivity|].
  destruct (a_hat_store self) as [chunk|] eqn:Es.
  - destruct (timestep chunk _) as [a|] eqn:Et; cbn [fst snd with_state policy_calls a_hat_store];
      repeat split; try discriminate.
    intros action Ha. injection Ha as <-. exists chunk. split; [reflexivity|exact Et].
  - cbn [fst snd with_state policy_calls a_hat_store]. repeat split. discriminate.
Qed.

End get_action_more.

(** ** Batches of the data loader *)

Section process_batch_facts.
Import Tensor ACT.
Context {Img : Type}.
Implicit Types (batch : @RawBatch Img) (self : @Self Img).

Lemma index_0 {A} (l : list A) : index l 0 = of_option IndexError (head l).
Proof. destruct l; reflexivity. Qed.

Lemma timestep_0 (t : list (list (list R))) :
  timestep t 0 = of_option IndexError (mapM (@head (list R)) t).
Proof.
  unfold timestep. induction t as [|trajectory t IH]; [reflexivity|].
  cbn [for_each]. rewrite index_0, IH. cbn [mapM].
  destruct (head trajectory); [|reflexivity]. cbn.
  destruct (mapM (@head (list R)) t); reflexivity.
Qed.

Lemma first_timestep_Ok (v : @RawObsValue Img) v' :
  first_timestep v = Ok v' ->
  match v, v' with
  | RawLowDim t, LowDim t0 => Forall2 (fun trajectory row => @head (list R) trajectory = Some row) t t0
  | RawRgb frames, Rgb frame => @head Img frames = Some frame
  | _, _ => False
  end.
Proof.
  destruct v as [t|frames]; cbn [first_timestep].
  - rewrite timestep_0. destruct (mapM (@head (list R)) t) as [t0|] eqn:E; [|discriminate].
    intros H. injection H as <-. apply mapM_Some in E. exact E.
  - rewrite index_0. destruct (head frames); [|discriminate].
    intros H. injection H as <-. reflexivity.
Qed.

Lemma first_timestep_is_Ok (v : @RawObsValue Img) :
  is_Ok (first_timestep v) = true <-> has_first_timestep v.
Proof.
  destruct v as [t|frames]; cbn [first_timestep has_first_timestep].
  - rewrite timestep_0. split.
    + destruct (mapM (@head (list R)) t) as [t0|] eqn:E; [|discriminate]. intros _.
      apply mapM_Some in E. induction E as [|trajectory row t t0 Hrow _ IH];
        constructor; [|exact IH].
      intros ->. discriminate.
    + intros H. destruct (mapM (@head (list R)) t) eqn:E; [reflexivity|].
      apply mapM_None in E. apply Exists_exists in E as (trajectory & Hin & Hnone).
      rewrite Forall_forall in H. specialize (H _ Hin).
      destruct trajectory; [contradiction|discriminate].
  - rewrite index_0. destruct frames; split; try discriminate; try reflexivity.
    intros H; contradiction.
Qed.

Lemma first_timestep_raises (v : @RawObsValue Img) e :
  first_timestep v = Raise e -> e = IndexError.
Proof.
  destruct v as [t|frames]; cbn [first_timestep].
  - rewrite timestep_0. destruct (mapM (@head (list R)) t); [discriminate|].
    intros H. injection H as <-. reflexivity.
  - rewrite index_0. destruct (head frames); [discriminate|].
    intros H. injection H as <-. reflexivity.
Qed.

Lemma sliced_Forall batch :
  map_Forall (fun _ r => is_Ok r = true)
    (first_timestep <$>
       filter (fun kv => fst kv <> "pad_mask" /\ fst kv <> "type") (raw_obs batch))
  <-> kept_have_first_timestep batch.
Proof.
  unfold kept_have_first_timestep. rewrite map_Forall_lookup. split.
  - intros H k v Hk H1 H2. apply first_timestep_is_Ok, (H k).
    rewrite lookup_fmap. erewrite (proj2 (map_lookup_filter_Some _ _ _ _)); [reflexivity|].
    split; [exact Hk|]. split; assumption.
  - intros H k r. rewrite lookup_fmap. intros Hr.
    apply fmap_Some in Hr as (v & Hv & ->).
    apply map_lookup_filter_Some in Hv as (Hv & H1 & H2).
    apply first_timestep_is_Ok. exact (H k v Hv H1 H2).
Qed.

Lemma process_batch_for_training_Ok batch ac_key b :
  process_batch_for_training batch ac_key = Ok b ->
  exists pad_mask type,
    kept_have_first_timestep batch /\
    raw_pad_mask batch = Some pad_mask /\ raw_type batch = Some type /\
    b = {| obs := <["pad_mask" := PadMask pad_mask]>
                    (omap (fun r => match r with Ok v => Some v | Raise _ => None end)
                       (first_timestep <$>
                          filter (fun kv => fst kv <> "pad_mask" /\ fst kv <> "type")
                            (raw_obs batch)));
           actions := raw_entries batch !! ac_key; type_ := Some type |}.
Proof.
  unfold process_batch_for_training. cbv zeta.
  destruct (decide (map_Forall _ _)) as [Hall|]; [|discriminate]. cbn [bind].
  destruct (raw_pad_mask batch) as [pm|]; [|discriminate]. cbn [of_option bind].
  destruct (raw_type batch) as [ty|]; [|discriminate]. cbn [of_option bind].
  intros H. injection H as <-. exists pm, ty.
  split; [apply sliced_Forall, Hall|]. repeat split.
Qed.

(** X23: what [process_batch_for_training] returns, for a key [ac_key]
    of an action tensor.  The observations of the processed batch hold,
    under every key of the raw observations other than "pad_mask" and
    "type", the first timestep of the raw observation (for each sample
    the first row of its trajectory; of the image batches the first),
    under "pad_mask" the padding mask as it was, with its time axis, and
    nothing under "type" or under any other key; the actions are the
    tensor under [ac_key], there being none when the raw batch has none;
    the type tag is that of the raw batch. *)
Theorem X23_process_batch_content batch (ac_key : string) b :
  ac_key ∉ ["obs"; "goal_obs"; "type"] ->
  process_batch_for_training batch ac_key = Ok b ->
  (exists pad_mask, raw_pad_mask batch = Some pad_mask /\
                    obs b !! "pad_mask" = Some (PadMask pad_mask)) /\
  obs b !! "type" = None /\
  (forall k, k <> "pad_mask" -> k <> "type" ->
     match raw_obs batch !! k, obs b !! k with
     | Some (RawLowDim t), Some (LowDim t0) =>
         Forall2 (fun trajectory row => @head (list R) trajectory = Some row) t t0
     | Some (RawRgb frames), Some (Rgb frame) => @head Img frames = Some frame
     | None, None => True
     | _, _ => False
     end) /\
  actions b = raw_entries batch !! ac_key /\
  (exists type, raw_type batch = Some type /\ type_ b = Some type).
Proof.
  intros _ H.
  destruct (process_batch_for_training_Ok _ _ _ H) as (pm & ty & Hall & Hpm & Hty & ->).
  cbn [obs actions type_].
  assert (Hlook : forall k, k <> "pad_mask" ->
    (<["pad_mask" := PadMask pm]>
       (omap (fun r => match r with Ok v => Some v | Raise _ => None end)
          (first_timestep <$>
             filter (fun kv => fst kv <> "pad_mask" /\ fst kv <> "type")
               (raw_obs batch))) : gmap string (@ObsValue Img)) !! k
    = match raw_obs batch !! k with
      | Some v => if decide (k = "type") then None
                  else match first_timestep v with Ok v' => Some v' | Raise _ => None end
      | None => None
      end).
  { intros k Hk. rewrite lookup_insert_ne by congruence.
    rewrite lookup_omap, lookup_fmap.
    destruct (raw_obs batch !! k) as [v|] eqn:Ev.
    - destruct (decide (k = "type")) as [Ht|Ht].
      + rewrite (proj2 (map_lookup_filter_None _ _ _)); [reflexivity|].
        right. intros x _ [_ Hx]. exact (Hx Ht).
      + rewrite (proj2 (map_lookup_filter_Some _ _ k v)); [reflexivity|].
        split; [exact Ev|]. split; assumption.
    - rewrite (proj2 (map_lookup_filter_None _ _ _)); [reflexivity|]. left. exact Ev. }
  split; [exists pm; split; [exact Hpm|apply lookup_insert_eq]|].
  split.
  { rewrite Hlook by discriminate. destruct (raw_obs batch !! "type"); [|reflexivity].
    destruct (decide _); [reflexivity|contradiction]. }
  split; [|split; [reflexivity|exists ty; split; [exact Hty|reflexivity]]].
  intros k Hk Ht. rewrite (Hlook k Hk).
  destruct (raw_obs batch !! k) as [v|] eqn:Ev; [|exact I].
  destruct (decide (k = "type")); [contradiction|].
  pose proof (proj2 (first_timestep_is_Ok v) (Hall k v Ev Hk Ht)) as Hok.
  destruct (first_timestep v) as [v'|] eqn:Ef; [|discriminate].
  apply first_timestep_Ok in Ef. destruct v, v'; try contradiction; exact Ef.
Qed.

(** X24: when [process_batch_for_training] returns and when it raises.
    It raises IndexError as soon as one of the observations it keeps has
    no first timestep, whatever else the batch holds; with first
    timesteps everywhere, it raises KeyError "pad_mask" on observations
    without padding mask, and then KeyError "type" on a batch without
    type tag; in all other cases it returns, whether or not the batch
    holds actions under [ac_key]. *)
Theorem X24_process_batch_raises batch (ac_key : string) :
  (~ kept_have_first_timestep batch ->
   process_batch_for_training batch ac_key = Raise IndexError) /\
  (kept_have_first_timestep batch ->
   (raw_pad_mask batch = None ->
    process_batch_for_training batch ac_key = Raise (KeyError "pad_mask")) /\
   (is_Some (raw_pad_mask batch) -> raw_type batch = None ->
    process_batch_for_training batch ac_key = Raise (KeyError "type")) /\
   (is_Some (raw_pad_mask batch) -> is_Some (raw_type batch) ->
    is_Ok (process_batch_for_training batch ac_key) = true)).
Proof.
  unfold process_batch_for_training. cbv zeta. split.
  - intros Hbad. destruct (decide (map_Forall _ _)) as [Hall|]; [|reflexivity].
    exfalso. apply Hbad, sliced_Forall, Hall.
  - intros Hok. destruct (decide (map_Forall _ _)) as [|Hbad].
    2:{ exfalso. apply Hbad, sliced_Forall, Hok. }
    cbn [bind]. split; [|split].
    + intros ->. reflexivity.
    + intros [pm ->] ->. reflexivity.
    + intros [pm ->] [ty ->]. reflexivity.
Qed.

(** X25: a raw batch that holds no tensor under [ac_key] is processed
    without complaint, but the processed batch has no actions and no
    pass accepts it: the training and the evaluation pass of ACT and of
    ACTSP all raise on it, with the object as it was and the policy not
    called. *)
Theorem X25_processed_without_actions batch (ac_key : string) b self :
  ac_key ∉ ["obs"; "goal_obs"; "type"] ->
  process_batch_for_training batch ac_key = Ok b ->
  raw_entries batch !! ac_key = None ->
  actions b = None /\
  (exists e, ACT._forward_training b self = (Raise e, self)) /\
  (exists e, ACT.forward_eval b self = (Raise e, self)) /\
  (exists e, ACTSP._forward_training b self = (Raise e, self)) /\
  (exists e, ACTSP.forward_eval b self = (Raise e, self)).
Proof.
  intros _ H Hnone.
  destruct (process_batch_for_training_Ok _ _ _ H) as (pm & ty & _ & _ & _ & Hb).
  assert (Ha : actions b = None) by (rewrite Hb; exact Hnone).
  clear H Hb Hnone.
  assert (Hadapt : forall cam_keys proprio_keys, exists e,
            _robomimic_to_act_data self b cam_keys proprio_keys = Raise e)
    by (intros; apply robomimic_to_act_data_needs_actions, Ha).
  assert (Hslice : ACTSP.slice_actions b = Raise (KeyError "actions"))
    by (unfold ACTSP.slice_actions; rewrite Ha; reflexivity).
  split; [exact Ha|]. split; [|split; [|split]].
  - destruct (Hadapt (camera_keys self) (proprio_keys self)) as (e & He).
    exists e. unfold ACT._forward_training, bindM, get_self, lift. rewrite He. reflexivity.
  - destruct (Hadapt (camera_keys self) (proprio_keys self)) as (e & He).
    exists e. unfold ACT.forward_eval, bindM, get_self, lift. rewrite He. reflexivity.
  - destruct (_modality_check b) as [[|]|e] eqn:Hc.
    + rewrite (forward_training_robot _ _ Hc).
      destruct (Hadapt (camera_keys self) (proprio_keys self)) as (e & He).
      exists e. unfold bindM, ACTSP._forward_training_with, bindM, get_self, lift.
      rewrite He. reflexivity.
    + rewrite (forward_training_hand _ _ Hc). unfold bindM, lift. rewrite Hslice.
      eexists. reflexivity.
    + exists e. apply forward_training_no_check, Hc.
  - destruct (_modality_check b) as [m|e] eqn:Hc;
      [|exists e; apply forward_eval_no_check, Hc].
    rewrite (forward_eval_checked _ _ _ Hc). unfold bindM, lift.
    destruct (contains (obs b) "right_wrist_img").
    + destruct (decide (robot = hand)) as [|_]; [discriminate|].
      destruct (Hadapt (if decide (robot = robot) then camera_keys self
                        else take 1 (camera_keys self)) (proprio_keys self)) as (e & He).
      exists e. unfold ACTSP.forward_eval_with, bindM, get_self, lift.
      rewrite He. reflexivity.
    + destruct (decide (hand = hand)) as [_|]; [|contradiction].
      rewrite Hslice. eexists. reflexivity.
Qed.

End process_batch_facts.

(** ** The video buffers of the evaluation loops *)

Section video_facts.
Import val_utils.
Context {Frame : Type} (zero_frame : Frame) (T : nat).

Lemma video_init_holding : video_init zero_frame T = holding zero_frame T [] 0 [].
Proof. unfold video_init, holding, new_video. simpl. rewrite Nat.sub_0_r. reflexivity. Qed.

Lemma add_frames_fill frames g k files :
  (length g + length frames <= T)%nat ->
  add_frames zero_frame T (holding zero_frame T g k files) frames = Ok (holding zero_frame T (g ++ frames) k files).
Proof.
  revert g. induction frames as [|im frames IH]; intros g Hlen.
  - rewrite app_nil_r. reflexivity.
  - simpl in Hlen. cbn [add_frames]. unfold add_frame.
    cbn [count holding video vids_written written].
    destruct (Nat.eqb_spec (length g) T) as [|_]; [lia|].
    cbn [count holding video vids_written written].
    rewrite length_app, length_replicate.
    destruct (Nat.ltb_spec (length g) (length g + (T - length g))) as [_|]; [|lia].
    cbn [bind].
    replace (T - length g)%nat with (S (T - length (g ++ [im])))
      by (rewrite length_app; simpl; lia).
    rewrite insert_app_r_alt by lia. rewrite Nat.sub_diag. cbn [replicate].
    change (<[0%nat := im]> (zero_frame :: ?l)) with (im :: l).
    replace (S (length g)) with (length (g ++ [im])) by (rewrite length_app; simpl; lia).
    replace (g ++ im :: replicate (T - length (g ++ [im])) zero_frame)
      with ((g ++ [im]) ++ replicate (T - length (g ++ [im])) zero_frame)
      by (rewrite <- app_assoc; reflexivity).
    fold (holding zero_frame T (g ++ [im]) k files).
    rewrite IH by (rewrite length_app; simpl; lia).
    rewrite <- app_assoc. reflexivity.
Qed.

Lemma write_video_holding g k files :
  (length g <= T)%nat ->
  write_video (holding zero_frame T g k files) = files ++ [(k, drop 1 g)].
Proof.
  intros Hlen. unfold write_video, holding. cbn [count video vids_written written].
  rewrite take_app_length. reflexivity.
Qed.

Lemma add_frames_flush g g' k files :
  length g = T -> (1 <= length g' <= T)%nat ->
  add_frames zero_frame T (holding zero_frame T g k files) g'
  = Ok (holding zero_frame T g' (S k) (files ++ [(k, drop 1 g)])).
Proof.
  intros Hg Hg'. destruct g' as [|im frames]; [simpl in Hg'; lia|].
  cbn [add_frames]. unfold add_frame at 1.
  replace ((count (holding zero_frame T g k files) =? T)%nat) with true
    by (symmetry; apply Nat.eqb_eq; exact Hg).
  rewrite write_video_holding by lia.
  cbn [count video vids_written written]. unfold new_video.
  rewrite length_replicate.
  destruct (Nat.ltb_spec 0 T) as [_|]; [|simpl in Hg'; lia].
  cbn [bind].
  pose proof (add_frames_fill frames [im] (S k) (files ++ [(k, drop 1 g)])) as Hfill.
  unfold holding at 1 in Hfill. cbn [length app] in Hfill.
  destruct T as [|T']; [simpl in Hg'; lia|].
  cbn [replicate]. change (<[0%nat := im]> (zero_frame :: ?l)) with (im :: l).
  replace (S T' - 1)%nat with T' in Hfill by lia.
  apply Hfill. simpl in Hg'. lia.
Qed.

Lemma grouped_snoc (groups : list (list Frame)) (last : list Frame) :
  Forall (fun g => length g = T) groups -> (1 <= length last <= T)%nat ->
  match groups ++ [last] with
  | [] => False
  | g :: rest => grouped T g rest
  end.
Proof.
  intros Hall Hlast. destruct groups as [|g groups]; [exact Hlast|].
  cbn [app]. revert g Hall.
  induction groups as [|g' groups IH]; intros g Hall.
  - inversion Hall as [|? ? Hg _]. split; [exact Hg|exact Hlast].
  - inversion Hall as [|? ? Hg Hall']. split; [exact Hg|]. apply IH, Hall'.
Qed.

Lemma grouped_length (g : list Frame) rest : grouped T g rest -> (1 <= length g <= T)%nat.
Proof.
  destruct rest as [|g' rest]; [auto|]. intros [Hg Hrest].
  assert (1 <= T)%nat; [|lia]. clear g Hg. revert g' Hrest.
  induction rest as [|g'' rest IH]; intros g' H; simpl in H; [lia|].
  destruct H as [_ H]. exact (IH _ H).
Qed.

(** The loop on grouped frames, from the buffer that holds the first
    group. *)
Lemma add_frames_grouped rest g k files :
  grouped T g rest ->
  exists g' files',
    add_frames zero_frame T (holding zero_frame T g k files) (concat rest)
    = Ok (holding zero_frame T g' (k + length rest) files') /\
    (length g' <= T)%nat /\
    files' ++ [(k + length rest, drop 1 g')]%nat
    = files ++ imap (fun i g => ((k + i)%nat, drop 1 g)) (g :: rest) /\
    files' = files ++ imap (fun i g => ((k + i)%nat, drop 1 g))
                        (take (length rest) (g :: rest)).
Proof.
  revert g k files. induction rest as [|g1 rest IH]; intros g k files H.
  - exists g, files. cbn [concat add_frames length take imap app].
    rewrite !Nat.add_0_r, app_nil_r. simpl in H.
    split_and!; [reflexivity|lia|reflexivity|reflexivity].
  - destruct H as [Hg Hrest]. pose proof (grouped_length _ _ Hrest) as Hg1.
    cbn [concat].
    assert (Happ : forall st fs1 fs2 st1,
              add_frames zero_frame T st fs1 = Ok st1 ->
              add_frames zero_frame T st (fs1 ++ fs2) = add_frames zero_frame T st1 fs2).
    { intros st fs1. revert st. induction fs1 as [|im fs1 IHf]; intros st fs2 st1 Hst.
      - injection Hst as <-. reflexivity.
      - cbn [app add_frames] in *. destruct (add_frame zero_frame T st im) as [st'|]; [|discriminate].
        cbn [bind] in *. exact (IHf _ _ _ Hst). }
    rewrite (Happ _ _ _ _ (add_frames_flush g g1 k files Hg Hg1)).
    destruct (IH g1 (S k) (files ++ [(k, drop 1 g)]) Hrest)
      as (g' & files' & Hrun & Hlen & Hfiles & Hwritten).
    exists g', files'. cbn [length].
    replace (k + S (length rest))%nat with (S k + length rest)%nat by lia.
    split; [exact Hrun|]. split; [exact Hlen|].
    assert (Hshift : forall l : list (list Frame),
              imap (fun i g => ((k + i)%nat, drop 1 g)) (g :: l)
              = (k, drop 1 g) :: imap (fun i g => ((S k + i)%nat, drop 1 g)) l).
    { intros l. cbn [imap]. rewrite Nat.add_0_r. f_equal.
      apply imap_ext. intros i x _. simpl. f_equal. lia. }
    split.
    + rewrite Hfiles, Hshift, <- app_assoc. reflexivity.
    + rewrite Hwritten. cbn [take]. rewrite Hshift, <- app_assoc. reflexivity.
Qed.

(** The loop on the frames of the groups [groups] and [last]. *)
Lemma add_frames_groups groups last :
  Forall (fun g => length g = T) groups ->
  (1 <= length last <= T)%nat ->
  exists st,
    add_frames zero_frame T (video_init zero_frame T) (concat groups ++ last) = Ok st /\
    written st = imap (fun i g => (i, drop 1 g)) groups /\
    write_video st = imap (fun i g => (i, drop 1 g)) (groups ++ [last]).
Proof.
  intros Hall Hlast. pose proof (grouped_snoc _ _ Hall Hlast) as Hgr.
  replace (concat groups ++ last) with (concat (groups ++ [last]))
    by (rewrite concat_app; simpl; rewrite app_nil_r; reflexivity).
  assert (Hlen : length (groups ++ [last]) = S (length groups))
    by (rewrite length_app; simpl; lia).
  assert (Htake : take (length groups) (groups ++ [last]) = groups)
    by apply take_app_length.
  destruct (groups ++ [last]) as [|g rest]; [contradiction|].
  cbn [concat]. rewrite video_init_holding.
  pose proof (grouped_length _ _ Hgr) as Hg.
  assert (Hfill : add_frames zero_frame T (holding zero_frame T [] 0 []) g = Ok (holding zero_frame T g 0 []))
    by (apply (add_frames_fill g [] 0 []); simpl; lia).
  assert (Happ : forall st fs1 fs2 st1,
            add_frames zero_frame T st fs1 = Ok st1 ->
            add_frames zero_frame T st (fs1 ++ fs2) = add_frames zero_frame T st1 fs2).
  { intros st fs1. revert st. induction fs1 as [|im fs1 IHf]; intros st fs2 st1 Hst.
    - injection Hst as <-. reflexivity.
    - cbn [app add_frames] in *. destruct (add_frame zero_frame T st im) as [st'|]; [|discriminate].
      cbn [bind] in *. exact (IHf _ _ _ Hst). }
  rewrite (Happ _ _ _ _ Hfill).
  destruct (add_frames_grouped rest g 0 [] Hgr)
    as (g' & files' & Hrun & Hg' & Hfiles & Hwritten).
  eexists. split; [exact Hrun|].
  simpl in Hlen. injection Hlen as Hlen. rewrite Hlen in *.
  cbn [written holding]. split.
  - rewrite Hwritten, Htake. reflexivity.
  - rewrite write_video_holding by exact Hg'. exact Hfiles.
Qed.

End video_facts.

Section video_runs.
Import val_utils.
Context {Frame : Type} (zero_frame : Frame).

(** X26: the videos of [evaluate_high_level_policy] (val_utils.py), whose
    buffer holds 700 frames.  For frames that come as full groups of 700
    followed by a last group of 1 to 700 frames, the loop and the write
    that follows it write one video per group, numbered from 0 in the
    order of the groups, and video i holds the frames of group i without
    the first: the first frame of every group is in no video, and no
    video is longer than 699 frames. *)
Theorem X26_videos_drop_first_frames (groups : list (list Frame)) (last : list Frame) :
  Forall (fun g => length g = 700%nat) groups ->
  (1 <= length last <= 700)%nat ->
  val_utils.evaluate_high_level_policy_videos zero_frame (concat groups ++ last)
  = Ok (imap (fun i g => (i, drop 1 g)) (groups ++ [last])) /\
  Forall (fun file => (length (snd file) <= 699)%nat)
    (imap (fun i g => (i, drop 1 g)) (groups ++ [last])).
Proof.
  intros Hall Hlast. split.
  - unfold val_utils.evaluate_high_level_policy_videos. cbv zeta.
    destruct (add_frames_groups zero_frame 700 groups last Hall Hlast)
      as (st & -> & _ & Hw).
    cbn [bind]. rewrite Hw. reflexivity.
  - apply Forall_forall. intros [i file] Hin.
    apply elem_of_lookup_imap in Hin as (j & g & Heq & Hg). injection Heq as -> ->.
    cbn [snd]. rewrite length_drop.
    assert (length g <= 700)%nat; [|lia].
    apply lookup_app_Some in Hg as [Hg|[_ Hg]].
    + rewrite Forall_forall in Hall. rewrite (Hall g); [lia|].
      eapply list_elem_of_lookup_2, Hg.
    + apply list_lookup_singleton_Some in Hg as [_ <-]. lia.
Qed.

(** X27: the videos of [evaluate_high_level_policy] of eval.py, whose
    buffer holds 400 frames and whose loop is followed by no write.  For
    frames that come as full groups of 400 followed by a last group of 1
    to 400 frames, one video is written per full group, holding its
    frames without the first, and the frames of the last group are in no
    video: with 400 frames or fewer nothing is written. *)
Theorem X27_eval_videos_lose_last_group (groups : list (list Frame)) (last : list Frame) :
  Forall (fun g => length g = 400%nat) groups ->
  (1 <= length last <= 400)%nat ->
  eval_script.evaluate_high_level_policy_videos zero_frame (concat groups ++ last)
  = Ok (imap (fun i g => (i, drop 1 g)) groups) /\
  (groups = [] ->
   eval_script.evaluate_high_level_policy_videos zero_frame last = Ok []).
Proof.
  intros Hall Hlast.
  assert (H : eval_script.evaluate_high_level_policy_videos zero_frame
                (concat groups ++ last)
              = Ok (imap (fun i g => (i, drop 1 g)) groups)).
  { unfold eval_script.evaluate_high_level_policy_videos. cbv zeta.
    destruct (add_frames_groups zero_frame 400 groups last Hall Hlast)
      as (st & -> & Hw & _).
    cbn [bind]. rewrite Hw. reflexivity. }
  split; [exact H|]. intros ->. exact H.
Qed.

End video_runs.

(** ** A batch that a pass of ACTSP has been through *)

Section rerun_facts.
Import Tensor ACT ACTSP.
Context {Img : Type}.
Implicit Types (self : @Self Img) (batch : @Batch Img).

Lemma take_3_idempotent (a : list (list (list R))) :
  map (map (take 3)) (map (map (take 3)) a) = map (map (take 3)) a.
Proof.
  rewrite map_map. apply map_ext. intros trajectory.
  rewrite map_map. apply map_ext. intros v. apply take_take.
Qed.

Lemma slice_actions_sliced batch a :
  slice_actions (set_actions (map (map (take 3)) a) batch)
  = Ok (set_actions (map (map (take 3)) a) batch).
Proof.
  unfold slice_actions. cbn [actions set_actions of_option bind].
  rewrite take_3_idempotent. reflexivity.
Qed.

Lemma set_actions_own batch a : actions batch = Some a -> set_actions a batch = batch.
Proof. destruct batch; simpl; intros ->; reflexivity. Qed.

(** An evaluation call does not see the actions of the batch. *)
Lemma forward_eval_with_set_actions modality cam_keys proprio_keys batch a a' self :
  forward_eval_with modality cam_keys proprio_keys (set_actions a batch) self
  = forward_eval_with modality cam_keys proprio_keys (set_actions a' batch) self.
Proof.
  unfold forward_eval_with, bindM, get_self, lift, call_policy, ret.
  rewrite (robomimic_to_act_data_set_actions _ _ _ _ a).
  rewrite (robomimic_to_act_data_set_actions _ _ _ _ a').
  destruct (_robomimic_to_act_data self (set_actions [] batch) _ _); reflexivity.
Qed.

(** X28: the passes of ACTSP change the "actions" entry of the batch
    they are given when they go the hand way, and a caller holds the
    changed batch afterwards.  When a training pass returns, the same
    pass on the batch it leaves returns the same predictions, leaves the
    same batch and the same object; and an evaluation pass on the batch
    it leaves predicts the same chunk, or raises the same exception, and
    leaves the same object as the evaluation pass on the batch as it was
    before. *)
Theorem X28_pass_on_its_own_batch batch self batch' p self' :
  ACTSP._forward_training batch self = (Ok (batch', p), self') ->
  ACTSP._forward_training batch' self = (Ok (batch', p), self') /\
  forall s,
    (let? r := fst (ACTSP.forward_eval batch' s) in Ok (snd r))
    = (let? r := fst (ACTSP.forward_eval batch s) in Ok (snd r)) /\
    snd (ACTSP.forward_eval batch' s) = snd (ACTSP.forward_eval batch s).
Proof.
  intros H.
  destruct (_modality_check batch) as [[|]|e] eqn:Hc.
  - destruct (forward_training_robot_Ok _ _ _ _ _ Hc H) as (-> & _).
    split; [exact H|]. intros s. split; reflexivity.
  - destruct (forward_training_hand_Ok _ _ _ _ _ Hc H)
      as (a & d & Ha & -> & _).
    assert (Hc' : _modality_check (set_actions (map (map (take 3)) a) batch) = Ok hand)
      by exact Hc.
    split.
    + rewrite (forward_training_hand _ _ Hc) in H.
      rewrite (forward_training_hand _ _ Hc').
      unfold bindM, lift in *. rewrite slice_actions_sliced.
      rewrite (slice_actions_Some _ _ Ha) in H. exact H.
    + intros s.
      rewrite (forward_eval_checked _ _ _ Hc), (forward_eval_checked _ _ _ Hc').
      cbn [obs set_actions]. unfold bindM, lift, ret.
      destruct (contains (obs batch) "right_wrist_img").
      * destruct (decide (robot = hand)) as [|_]; [discriminate|].
        assert (Heq : forall m ck pk,
                  forward_eval_with m ck pk (set_actions (map (map (take 3)) a) batch) s
                  = forward_eval_with m ck pk batch s).
        { intros m0 ck pk.
          transitivity (forward_eval_with m0 ck pk (set_actions a batch) s);
            [apply forward_eval_with_set_actions|].
          rewrite (set_actions_own _ _ Ha). reflexivity. }
        rewrite Heq.
        destruct (forward_eval_with _ _ _ _ _) as [[chunk|e] s']; split; reflexivity.
      * destruct (decide (hand = hand)) as [_|]; [|contradiction].
        rewrite slice_actions_sliced, (slice_actions_Some _ _ Ha).
        split; reflexivity.
  - rewrite (forward_training_no_check _ _ _ Hc) in H. discriminate.
Qed.

End rerun_facts.

(** ** What a pass leaves of the object *)

Section pass_frame.
Import Tensor ACT.
Context {Img : Type}.
Implicit Types (self : @Self Img) (batch : @Batch Img).

Lemma log_policy_call_with_state self inp :
  log_policy_call inp self
  = with_state self (_step_counter self) (a_hat_store self) (policy_calls self ++ [inp]).
Proof. reflexivity. Qed.

Lemma calls_policy_once_raise {A} self e :
  calls_policy_once self (@Raise A e, self).
Proof.
  split; [symmetry; apply with_state_self|]. right. split; reflexivity.
Qed.

Lemma calls_policy_once_called {A} self inp (r : result A) :
  calls_policy_once self (r, log_policy_call inp self).
Proof.
  split; [reflexivity|]. left. exists inp. reflexivity.
Qed.

Lemma forward_training_with_once modality cam_keys proprio_keys batch self :
  calls_policy_once self
    (ACTSP._forward_training_with modality cam_keys proprio_keys batch self).
Proof.
  unfold ACTSP._forward_training_with, bindM, get_self, lift, call_policy, ret.
  destruct (_robomimic_to_act_data self batch cam_keys proprio_keys) as [d|e];
    [|apply calls_policy_once_raise].
  repeat match goal with
         | |- context [of_option ?e ?o] => destruct o; cbn [of_option]
         | |- context [match kl_divergence ?m ?lv with _ => _ end] =>
             destruct (kl_divergence m lv)
         | |- context [match masked_l1 ?a ?b ?c with _ => _ end] =>
             destruct (masked_l1 a b c)
         | |- context [match index ?l ?i with _ => _ end] => destruct (index l i)
         end;
    apply calls_policy_once_called.
Qed.

Lemma forward_eval_with_once modality cam_keys proprio_keys batch self :
  calls_policy_once self
    (ACTSP.forward_eval_with modality cam_keys proprio_keys batch self).
Proof.
  unfold ACTSP.forward_eval_with, bindM, get_self, lift, call_policy, ret.
  destruct (_robomimic_to_act_data self batch cam_keys proprio_keys) as [d|e];
    [apply calls_policy_once_called|apply calls_policy_once_raise].
Qed.

Lemma calls_policy_once_pair {A B} self (out : result A * Self) (b : B) :
  calls_policy_once self out ->
  calls_policy_once self
    (let (r, self') := out in
     match r with
     | Ok a => (Ok (b, a), self')
     | Raise e => (Raise e, self')
     end).
Proof.
  destruct out as [[a|e] self']; intros [Hs Hc]; (split; [exact Hs|]); exact Hc.
Qed.

(** X29: the four passes (the training pass and the evaluation pass, of
    ACT and of ACTSP), on any batch and any object, change nothing of
    the object but the record of the policy calls: the step counter and
    the chunk stored by [get_action] are as they were.  A pass that
    returns has called the policy exactly once; a pass that raises has
    called it once or not at all. *)
Theorem X29_passes_leave_rollout_state batch self :
  calls_policy_once self (ACT._forward_training batch self) /\
  calls_policy_once self (ACT.forward_eval batch self) /\
  calls_policy_once self (ACTSP._forward_training batch self) /\
  calls_policy_once self (ACTSP.forward_eval batch self).
Proof.
  split; [|split; [|split]].
  - unfold ACT._forward_training, bindM, get_self, lift, call_policy, ret.
    destruct (_robomimic_to_act_data self batch _ _) as [d|e];
      [|apply calls_policy_once_raise].
    repeat match goal with
           | |- context [of_option ?e ?o] => destruct o; cbn [of_option]
           | |- context [match kl_divergence ?m ?lv with _ => _ end] =>
               destruct (kl_divergence m lv)
           | |- context [match masked_l1 ?a ?b ?c with _ => _ end] =>
               destruct (masked_l1 a b c)
           | |- context [match index ?l ?i with _ => _ end] => destruct (index l i)
           end;
      apply calls_policy_once_called.
  - unfold ACT.forward_eval, bindM, get_self, lift, call_policy, ret.
    destruct (_robomimic_to_act_data self batch _ _) as [d|e];
      [apply calls_policy_once_called|apply calls_policy_once_raise].
  - unfold ACTSP._forward_training, bindM, get_self, lift, ret.
    destruct (_modality_check batch) as [m|e]; [|apply calls_policy_once_raise].
    destruct (if decide (m = hand) then ACTSP.slice_actions batch else Ok batch)
      as [batch'|e]; [|apply calls_policy_once_raise].
    apply (calls_policy_once_pair self _ batch'), forward_training_with_once.
  - unfold ACTSP.forward_eval, bindM, get_self, lift, ret.
    destruct (_modality_check batch) as [m|e]; [|apply calls_policy_once_raise].
    destruct (if decide (_ = hand) then ACTSP.slice_actions batch else Ok batch)
      as [batch'|e]; [|apply calls_policy_once_raise].
    apply (calls_policy_once_pair self _ batch'), forward_eval_with_once.
Qed.

End pass_frame.

(** ** The further statements on concrete objects *)

Section more_runs.
Import Tensor ACT ACTSP Examples.

Lemma X21_short_chunk_blocks_witness :
  nets_training algo_eval = false /\
  (0 < query_frequency algo_eval)%Z /\
  (_step_counter algo_eval mod query_frequency algo_eval)%Z <> 0%Z /\
  a_hat_store algo_eval = Some [[[9; 9; 9]]; [[9; 9; 9]]] /\
  rollout [obs_robot; obs_robot] algo_eval = (Raise IndexError, algo_eval) /\
  Forall (fun o => get_action o algo_eval = (Raise IndexError, algo_eval))
    [obs_robot; obs_robot].
Proof.
  assert (H1 : nets_training algo_eval = false) by reflexivity.
  assert (H2 : (0 < query_frequency algo_eval)%Z) by reflexivity.
  assert (H3 : (_step_counter algo_eval mod query_frequency algo_eval)%Z <> 0%Z)
    by discriminate.
  assert (H4 : a_hat_store algo_eval = Some [[[9; 9; 9]]; [[9; 9; 9]]]) by reflexivity.
  assert (H5 : Exists (fun trajectory =>
                 (Z.of_nat (length trajectory)
                  <= _step_counter algo_eval mod query_frequency algo_eval)%Z)
                 [[[9; 9; 9]]; [[9; 9; 9]]])
    by (apply Exists_cons_hd; discriminate).
  assert (H6 : [obs_robot; obs_robot] <> []) by discriminate.
  assert (H7 : Forall (fun o => is_Ok (get_action_inputs algo_eval o) = true)
                 [obs_robot; obs_robot])
    by (repeat apply Forall_cons_2; try apply Forall_nil_2;
        rewrite inputs_robot; reflexivity).
  exact (conj H1 (conj H2 (conj H3 (conj H4
    (X21_short_chunk_blocks algo_eval _ _ H1 H2 H3 H4 H5 H6 H7))))).
Defined.

Lemma inputs_mid_chunk :
  is_Ok (get_action_inputs algo_mid_chunk obs_robot) = true /\
  is_Ok (get_action_inputs algo_mid_chunk obs_robot_moved) = true.
Proof. split; reflexivity. Qed.

Lemma X22_observation_unused_between_queries_witness :
  nets_training algo_mid_chunk = false /\
  query_frequency algo_mid_chunk <> 0%Z /\
  (_step_counter algo_mid_chunk mod query_frequency algo_mid_chunk)%Z <> 0%Z /\
  obs_robot !! "joint_positions" <> obs_robot_moved !! "joint_positions" /\
  get_action obs_robot algo_mid_chunk = get_action obs_robot_moved algo_mid_chunk /\
  policy_calls (snd (get_action obs_robot algo_mid_chunk)) = policy_calls algo_mid_chunk.
Proof.
  assert (H1 : nets_training algo_mid_chunk = false) by reflexivity.
  assert (H2 : query_frequency algo_mid_chunk <> 0%Z) by discriminate.
  assert (H3 : (_step_counter algo_mid_chunk mod query_frequency algo_mid_chunk)%Z
               <> 0%Z) by discriminate.
  assert (H4 : obs_robot !! "joint_positions" <> obs_robot_moved !! "joint_positions").
  { change (obs_robot !! "joint_positions")
      with (Some (@LowDim unit [[0; 0]; [0; 0]])).
    change (obs_robot_moved !! "joint_positions")
      with (Some (@LowDim unit [[1; 1]; [1; 1]])).
    intros H. injection H as H _. lra. }
  destruct (X22_observation_unused_between_queries algo_mid_chunk obs_robot
              obs_robot_moved H1 H2 H3 (proj1 inputs_mid_chunk) (proj2 inputs_mid_chunk))
    as (Hsame & Hcalls & _).
  exact (conj H1 (conj H2 (conj H3 (conj H4 (conj Hsame Hcalls))))).
Defined.

Lemma key_is_action_key : "actions_joints_act" ∉ ["obs"; "goal_obs"; "type"].
Proof.
  intros H. repeat (apply elem_of_cons in H as [H|H]; [discriminate|]).
  apply elem_of_nil in H. exact H.
Qed.

Lemma key_xyz_is_action_key : "actions_xyz_act" ∉ ["obs"; "goal_obs"; "type"].
Proof.
  intros H. repeat (apply elem_of_cons in H as [H|H]; [discriminate|]).
  apply elem_of_nil in H. exact H.
Qed.

Lemma raw_batch_processed (ac_key : string) :
  is_Ok (process_batch_for_training raw_batch ac_key) = true.
Proof.
  unfold process_batch_for_training. cbv zeta.
  destruct (decide (map_Forall _ _)) as [|Hbad]; [reflexivity|].
  exfalso. apply Hbad. refine (bool_decide_unpack _ _). vm_compute. exact I.
Qed.

Lemma X23_process_batch_content_witness :
  ("actions_joints_act" ∉ ["obs"; "goal_obs"; "type"]) /\
  exists b,
    process_batch_for_training raw_batch "actions_joints_act" = Ok b /\
    obs b !! "pad_mask" = Some (PadMask [[1; 1]; [1; 0]]%Z) /\
    obs b !! "type" = None /\
    actions b = Some [[[5]; [6]]; [[7]; [8]]] /\
    type_ b = Some [0; 0]%Z.
Proof.
  split; [exact key_is_action_key|].
  destruct (process_batch_for_training raw_batch "actions_joints_act") as [b|e] eqn:Hrun.
  2:{ pose proof (raw_batch_processed "actions_joints_act") as Hok.
      rewrite Hrun in Hok. discriminate Hok. }
  exists b. split; [reflexivity|].
  destruct (X23_process_batch_content raw_batch _ b key_is_action_key Hrun)
    as ((pm & Hpm & Hmask) & Htype & _ & Ha & (ty & Hty & Htag)).
  injection Hpm as <-. injection Hty as <-.
  split; [exact Hmask|]. split; [exact Htype|]. split; [exact Ha|exact Htag].
Defined.

Lemma X25_processed_without_actions_witness :
  ("actions_xyz_act" ∉ ["obs"; "goal_obs"; "type"]) /\
  raw_entries raw_batch !! "actions_xyz_act" = None /\
  exists b,
    process_batch_for_training raw_batch "actions_xyz_act" = Ok b /\
    actions b = None /\
    (exists e, ACT._forward_training b algo = (Raise e, algo)) /\
    (exists e, ACT.forward_eval b algo = (Raise e, algo)) /\
    (exists e, ACTSP._forward_training b algo = (Raise e, algo)) /\
    (exists e, ACTSP.forward_eval b algo = (Raise e, algo)).
Proof.
  assert (Hnone : raw_entries raw_batch !! "actions_xyz_act" = None) by reflexivity.
  split; [exact key_xyz_is_action_key|]. split; [exact Hnone|].
  destruct (process_batch_for_training raw_batch "actions_xyz_act") as [b|e] eqn:Hrun.
  2:{ pose proof (raw_batch_processed "actions_xyz_act") as Hok.
      rewrite Hrun in Hok. discriminate Hok. }
  exists b. split; [reflexivity|].
  exact (X25_processed_without_actions raw_batch _ b algo key_xyz_is_action_key Hrun Hnone).
Defined.

Lemma X26_videos_drop_first_frames_witness :
  Forall (fun g => length g = 700%nat) [seq 0 700] /\
  (1 <= length [700; 701]%nat <= 700)%nat /\
  val_utils.evaluate_high_level_policy_videos 0%nat (concat [seq 0 700] ++ [700; 701]%nat)
  = Ok (imap (fun i g => (i, drop 1 g)) ([seq 0 700] ++ [[700; 701]%nat])) /\
  Forall (fun file => (length (snd file) <= 699)%nat)
    (imap (fun i g => (i, drop 1 g)) ([seq 0 700] ++ [[700; 701]%nat])).
Proof.
  assert (H1 : Forall (fun g => length g = 700%nat) [seq 0 700])
    by (apply Forall_cons_2; [apply length_seq|apply Forall_nil_2]).
  assert (H2 : (1 <= length [700; 701]%nat <= 700)%nat) by (cbn [length]; lia).
  exact (conj H1 (conj H2 (X26_videos_drop_first_frames 0%nat _ _ H1 H2))).
Defined.

Lemma X27_eval_videos_lose_last_group_witness :
  Forall (fun g => length g = 400%nat) [seq 0 400] /\
  (1 <= length [400; 401]%nat <= 400)%nat /\
  eval_script.evaluate_high_level_policy_videos 0%nat
    (concat [seq 0 400] ++ [400; 401]%nat)
  = Ok (imap (fun i g => (i, drop 1 g)) [seq 0 400]).
Proof.
  assert (H1 : Forall (fun g => length g = 400%nat) [seq 0 400])
    by (apply Forall_cons_2; [apply length_seq|apply Forall_nil_2]).
  assert (H2 : (1 <= length [400; 401]%nat <= 400)%nat) by (cbn [length]; lia).
  exact (conj H1 (conj H2 (proj1 (X27_eval_videos_lose_last_group 0%nat _ _ H1 H2)))).
Defined.

Lemma hand_training_returns :
  is_Ok (fst (ACTSP._forward_training (batch_hand [1; 1]%Z) algo)) = true.
Proof. vm_compute. reflexivity. Qed.

Lemma X28_pass_on_its_own_batch_witness :
  exists batch' p self',
    ACTSP._forward_training (batch_hand [1; 1]%Z) algo = (Ok (batch', p), self') /\
    ACTSP._forward_training batch' algo = (Ok (batch', p), self') /\
    forall s,
      (let? r := fst (ACTSP.forward_eval batch' s) in Ok (snd r))
      = (let? r := fst (ACTSP.forward_eval (batch_hand [1; 1]%Z) s) in Ok (snd r)) /\
      snd (ACTSP.forward_eval batch' s) = snd (ACTSP.forward_eval (batch_hand [1; 1]%Z) s).
Proof.
  pose proof hand_training_returns as Hok.
  destruct (ACTSP._forward_training (batch_hand [1; 1]%Z) algo)
    as [[[batch' p]|e] self'] eqn:Hrun; [|discriminate Hok].
  exists batch', p, self'. split; [reflexivity|].
  exact (X28_pass_on_its_own_batch _ _ _ _ _ Hrun).
Defined.

End more_runs.

(** ** The summary of the metrics *)

Section summary_facts.
Import Tensor val_utils.

Lemma fold_zip_length (D : nat) (rows : list (list R)) (acc : list R) :
  length acc = D -> Forall (fun row => length row = D) rows ->
  length (fold_left (zip_with Rplus) rows acc) = D.
Proof.
  intros Hacc Hrows. revert acc Hacc.
  induction Hrows as [|row rows Hrow _ IH]; intros acc Hacc; [exact Hacc|].
  cbn [fold_left]. apply IH. rewrite length_zip_with. lia.
Qed.

Lemma lookup_nth (l : list R) (j : nat) :
  (j < length l)%nat -> l !! j = Some (nth j l 0).
Proof. intros Hj. destruct (nth_lookup_or_length l j 0); [assumption|lia]. Qed.

Lemma fold_zip_lookup (D : nat) (rows : list (list R)) (acc : list R) (j : nat) :
  length acc = D -> Forall (fun row => length row = D) rows -> (j < D)%nat ->
  fold_left (zip_with Rplus) rows acc !! j
  = Some (nth j acc 0 + Rsum (map (fun row => nth j row 0) rows)).
Proof.
  intros Hacc Hrows Hj. revert acc Hacc.
  induction Hrows as [|row rows Hrow _ IH]; intros acc Hacc.
  - cbn [fold_left map Rsum fold_right]. rewrite Rplus_0_r.
    apply lookup_nth. lia.
  - cbn [fold_left map]. rewrite IH by (rewrite length_zip_with; lia).
    f_equal. change (Rsum (?x :: ?l)) with (x + Rsum l).
    assert (Hz : nth j (zip_with Rplus acc row) 0 = nth j acc 0 + nth j row 0).
    { apply nth_lookup_Some with (d := 0).
      rewrite lookup_zip_with.
      rewrite (lookup_nth acc j) by lia.
      rewrite (lookup_nth row j) by lia. reflexivity. }
    rewrite Hz. lra.
Qed.

(** The entries of [t.mean(0)] are the means of the columns. *)
Lemma mean_axis0_columns (D : nat) (rows : list (list R)) :
  rows <> [] -> Forall (fun row => length row = D) rows ->
  mean_axis0 rows = map (fun j => column_mean j rows) (seq 0 D).
Proof.
  intros Hne Hrows. destruct rows as [|row rows]; [contradiction|].
  apply Forall_cons in Hrows as [Hrow Hrows].
  unfold mean_axis0. apply list_eq. intros j.
  rewrite !list_lookup_fmap.
  destruct (Nat.lt_ge_cases j D) as [Hj|Hj].
  - rewrite (fold_zip_lookup D) by assumption.
    rewrite lookup_seq_lt by exact Hj. cbn [fmap option_fmap option_map Nat.add].
    f_equal. unfold column_mean, mean. cbn [map Rsum fold_right length].
    rewrite length_map. reflexivity.
  - rewrite lookup_ge_None_2 by (rewrite (fold_zip_length D); assumption).
    rewrite lookup_seq_ge by exact Hj. reflexivity.
Qed.

Lemma stack_Ok (D : nat) (arrays : list (list R)) :
  arrays <> [] -> Forall (fun a => length a = D) arrays -> stack arrays = Ok arrays.
Proof.
  intros Hne H. destruct arrays as [|a rest]; [contradiction|].
  apply Forall_cons in H as [Ha Hrest]. cbn [stack].
  replace (forallb _ rest) with true; [reflexivity|].
  symmetry. apply forallb_forall. intros b Hb. apply Nat.eqb_eq.
  rewrite Ha. exact (proj1 (Forall_forall _ _) Hrest b (proj2 (list_elem_of_In _ _) Hb)).
Qed.

Lemma index_columns (D j : nat) (rows : list (list R)) :
  index (map (fun j => column_mean j rows) (seq 0 D)) (Z.of_nat j)
  = if (j <? D)%nat then Ok (column_mean j rows) else Raise IndexError.
Proof.
  destruct (Nat.ltb_spec j D) as [Hj|Hj].
  - apply index_nat. rewrite list_lookup_fmap, lookup_seq_lt by exact Hj. reflexivity.
  - unfold index. destruct (Z.ltb_spec (Z.of_nat j) 0); [lia|].
    destruct (Z.ltb_spec (Z.of_nat j) 0); [lia|].
    rewrite Nat2Z.id, lookup_ge_None_2; [reflexivity|].
    rewrite length_map, length_seq. exact Hj.
Qed.

(** X30: the summary that [evaluate_high_level_policy] returns.  Without
    a sample the summary raises ValueError (nothing to stack).  With
    samples of D axes the summary holds the means over the samples, axis
    by axis: for a key [ac_key] that contains "joints", the average over
    the axes of these means, for the paired and for the final error; for
    another key, with D >= 3, the means of the first three axes under
    "x", "y" and "z", followed by the average over all the axes, for the
    paired and then for the final error; and for another key with fewer
    than 3 axes it raises IndexError. *)
Theorem X30_summary_column_means (type ac_key : string) (metrics : Metrics) (D : nat) :
  let paired := map (fun j => column_mean j (paired_mse metrics)) (seq 0 D) in
  let final := map (fun j => column_mean j (final_mse metrics)) (seq 0 D) in
  (paired_mse metrics = [] \/ final_mse metrics = [] ->
   exists msg,
     evaluate_high_level_policy_summary type ac_key metrics = Raise (ValueError msg)) /\
  (paired_mse metrics <> [] -> final_mse metrics <> [] ->
   Forall (fun v => length v = D) (paired_mse metrics) ->
   Forall (fun v => length v = D) (final_mse metrics) ->
   (joints_in ac_key = true ->
    evaluate_high_level_policy_summary type ac_key metrics
    = Ok [(String.append type "_paired_mse_avg", mean paired);
          (String.append type "_final_mse_avg", mean final)]) /\
   (joints_in ac_key = false -> (3 <= D)%nat ->
    evaluate_high_level_policy_summary type ac_key metrics
    = Ok [(String.append type "_paired_mse x", column_mean 0 (paired_mse metrics));
          (String.append type "_paired_mse y", column_mean 1 (paired_mse metrics));
          (String.append type "_paired_mse z", column_mean 2 (paired_mse metrics));
          (String.append type "_paired_mse_avg", mean paired);
          (String.append type "_final_mse x", column_mean 0 (final_mse metrics));
          (String.append type "_final_mse y", column_mean 1 (final_mse metrics));
          (String.append type "_final_mse z", column_mean 2 (final_mse metrics));
          (String.append type "_final_mse_avg", mean final)]) /\
   (joints_in ac_key = false -> (D < 3)%nat ->
    evaluate_high_level_policy_summary type ac_key metrics = Raise IndexError)).
Proof.
  cbv zeta. split.
  - unfold evaluate_high_level_policy_summary. intros [Hp|Hf].
    + rewrite Hp. eexists. reflexivity.
    + rewrite Hf. destruct (stack (paired_mse metrics)) as [c|e] eqn:Ec.
      * eexists. reflexivity.
      * destruct (paired_mse metrics) as [|a rest]; cbn [stack] in Ec.
        -- injection Ec as <-. eexists. reflexivity.
        -- destruct (forallb _ rest); [discriminate|]. injection Ec as <-.
           eexists. reflexivity.
  - intros Hpne Hfne Hp Hf. unfold evaluate_high_level_policy_summary.
    rewrite (stack_Ok D _ Hpne Hp), (stack_Ok D _ Hfne Hf). cbn [bind].
    rewrite (mean_axis0_columns D _ Hpne Hp), (mean_axis0_columns D _ Hfne Hf).
    split; [|split].
    + intros ->. reflexivity.
    + intros -> HD.
      rewrite !(index_columns D 0), !(index_columns D 1), !(index_columns D 2).
      destruct (Nat.ltb_spec 0 D); [|lia].
      destruct (Nat.ltb_spec 1 D); [|lia].
      destruct (Nat.ltb_spec 2 D); [|lia].
      reflexivity.
    + intros -> HD.
      rewrite !(index_columns D 0), !(index_columns D 1), !(index_columns D 2).
      destruct (Nat.ltb_spec 0 D); [|reflexivity].
      destruct (Nat.ltb_spec 1 D); [|reflexivity].
      destruct (Nat.ltb_spec 2 D); [lia|reflexivity].
Qed.

End summary_facts.
